(** * Vault-backed wallets of accounts/vault: a shallow embedding

    The Go package [vault] keeps private keys in a HashiCorp Vault and
    exposes them as wallets.  This development embeds
    [hashicorp_wallet.go], [vault_wallet.go] and the backend file that
    builds the wallet collection, and states the package's lifecycle,
    error and key-handling properties over that embedding.

    Conventions.
    - A Go [(T, error)] result is a pair [T * option error]; [None] is the
      [nil] error.
    - Go code runs in the monad [M S]: a state transformer whose outcome is
      a normal return, a panic, or a goroutine blocked forever on a lock.
    - [defer] is [with_defer]: the deferred call runs after a normal return
      and while a panic unwinds, and does not run when the body blocks.
    - [nil] slices and [nil] maps are identified with the empty ones, which
      Go code reading them cannot tell apart.
    - Functions of other packages (go-ethereum's [crypto], [common],
      [core/types], the Vault [api], [os]) are fields of the class
      [Externals]; every theorem holds for all their behaviours. *)

From stdpp Require Import base gmap strings list fin_maps pretty.
From Stdlib Require Import ZArith Lia Ascii.

Set Warnings "-register-all".

Local Open Scope string_scope.
Local Open Scope list_scope.
Local Open Scope Z_scope.

(** ** Go values *)

(** [interface{}] values as the JSON decoder of the Vault client produces
    them. *)
Inductive value : Type :=
| VNil
| VBool (b : bool)
| VNumber (n : Z)
| VString (s : string)
| VList (l : list value)
| VMap (m : gmap string value).

(** [strconv.Itoa] *)
Definition Itoa (n : Z) : string := pretty n.

(** The byte [0x22], written by its code. *)
Definition dquote : string := String (ascii_of_nat 34) EmptyString.

(** [%q] of [fmt] on a string without characters to escape. *)
Definition quoted (s : string) : string := dquote +:+ s +:+ dquote.

(** [strings.HasPrefix] *)
Fixpoint HasPrefix (s p : string) : bool :=
  match p, s with
  | EmptyString, _ => true
  | String _ _, EmptyString => false
  | String a p', String b s' => if decide (a = b) then HasPrefix s' p' else false
  end.

(** [strings.Split s sep] for a non-empty [sep]: [skip] counts the bytes of
    a separator already matched that remain to be dropped, [cur] is the
    piece being read, last byte first. *)
Fixpoint Split_go (sep : string) (skip : nat) (cur : list ascii) (s : string)
  : list string :=
  match s with
  | EmptyString => [String.string_of_list_ascii (rev cur)]
  | String c s' =>
      match skip with
      | S k => Split_go sep k cur s'
      | O =>
          if HasPrefix s sep
          then String.string_of_list_ascii (rev cur)
                 :: Split_go sep (String.length sep - 1) [] s'
          else Split_go sep O (c :: cur) s'
      end
  end.

Definition Split (s sep : string) : list string := Split_go sep O [] s.

(** ** Errors *)

Record URL := { Scheme : string; Path : string }.

Record SecretData := {
  Name : string;
  SecretEngine : string;
  Version : Z;
  AccountID : string;
  KeyID : string
}.

Inductive error : Type :=
| ErrWalletAlreadyOpen
| ErrWalletClosed
| ErrUnknownAccount
| ErrNotSupported
| errorString (msg : string)
| hashicorpError (msg : string) (secret : SecretData) (walletUrl : URL)
    (err : option error)
| ErrLibrary (pkg msg : string).

#[global] Instance URL_eq_dec : EqDecision URL.
Proof. solve_decision. Defined.
#[global] Instance SecretData_eq_dec : EqDecision SecretData.
Proof. solve_decision. Defined.
Definition emptyURL : URL := {| Scheme := ""; Path := "" |}.

(** ** Secret Locator: [SecretData.toRequestData] *)

Definition versionError : error :=
  errorString "Hashicorp Vault secret version must be integer >= 0".

Definition toRequestData (s : SecretData)
  : string * gmap string (list string) * option error :=
  let path := SecretEngine s +:+ "/data/" +:+ Name s in
  let queryParams : gmap string (list string) := ∅ in
  if Version s <? 0 then ("", ∅, Some versionError)
  else
    let queryParams := <["version" := [Itoa (Version s)]]> queryParams in
    (path, queryParams, None).


(** ** The execution monad *)

Inductive outcome (S A : Type) : Type :=
| Ret (a : A) (s : S)
| Panic (msg : string) (s : S)
| Blocked (s : S).
Arguments Ret {S A} a s.
Arguments Panic {S A} msg s.
Arguments Blocked {S A} s.

Definition M (S A : Type) : Type := S -> outcome S A.

#[global] Instance M_ret {S} : MRet (M S) := fun A a s => Ret a s.
#[global] Instance M_bind {S} : MBind (M S) := fun A B f c s =>
  match c s with
  | Ret a s' => f a s'
  | Panic msg s' => Panic msg s'
  | Blocked s' => Blocked s'
  end.

Definition panic {S A} (msg : string) : M S A := fun s => Panic msg s.
Definition block {S A} : M S A := fun s => Blocked s.
Definition gets {S A} (f : S -> A) : M S A := fun s => Ret (f s) s.
Definition modify {S} (f : S -> S) : M S unit := fun s => Ret tt (f s).

(** [defer d] placed in front of [body]. *)
Definition with_defer {S A} (d : M S unit) (body : M S A) : M S A := fun s =>
  match body s with
  | Ret a s' =>
      match d s' with
      | Ret _ s'' => Ret a s''
      | Panic msg s'' => Panic msg s''
      | Blocked s'' => Blocked s''
      end
  | Panic msg s' =>
      match d s' with
      | Ret _ s'' => Panic msg s''
      | Panic msg' s'' => Panic msg' s''
      | Blocked s'' => Blocked s''
      end
  | Blocked s' => Blocked s'
  end.

(** The final state of a run, however it ended. *)
Definition final {S A} (o : outcome S A) : S :=
  match o with Ret _ s | Panic _ s | Blocked s => s end.

(** What a function of another package does when called. *)
Inductive call (A : Type) : Type :=
| Returns (a : A)
| Panics (msg : string).
Arguments Returns {A} a.
Arguments Panics {A} msg.

Definition nilDeref : string :=
  "runtime error: invalid memory address or nil pointer dereference".

(** ** Data of the package and of the libraries it uses *)

Definition bytes : Type := list Byte.byte.
Definition address : Type := N.

Record Account := { Address : address; Account_URL : URL }.

Record ClientData := {
  Url : string;
  Approle : string;
  CaCert : string;
  ClientCert : string;
  ClientKey : string
}.

(** [sync.RWMutex] as one goroutine sees it. *)
Record RWMutex := { readers : nat; writer : bool }.

(** [math/big.Int]: a sign and the magnitude words [Bits] returns. *)
Record bigInt := { neg : bool; abs : list Z }.

(** [ecdsa.PrivateKey]; [nil] big integers are [None]. *)
Record PrivateKey := { X : option bigInt; Y : option bigInt; D : option bigInt }.

Definition emptyKey : PrivateKey := {| X := None; Y := None; D := None |}.

(** [api.Client], as far as the wallet uses it. *)
Record api_Client := { addr : string; token : string }.

Record SecretAuth := { ClientToken : string }.

(** [api.Secret] *)
Record Secret := { Data : gmap string value; Auth : option SecretAuth }.

Inductive WalletEventType := WalletArrived | WalletOpened | WalletDropped.

Inductive Signer := EIP155Signer (chainId : Z) | HomesteadSigner.

(** ** The process around a receiver *)

Section Process.

Context {Transaction : Type}.

(** What the process does that is visible outside the wallet code. *)
Inductive event : Type :=
| Stdout (s : string)
| LogWarn (msg : string) (ctx : option error)
| VaultRead (c : api_Client) (path : string) (query : gmap string (list string))
| VaultWrite (c : api_Client) (path : string) (data : gmap string value)
| VaultHealth (c : api_Client)
| FeedSend (feed : nat) (wallet : URL) (kind : WalletEventType)
| CryptoSign (hash : bytes) (key : PrivateKey)
| TypesSignTx (tx : Transaction) (signer : Signer) (key : PrivateKey).

Record World := {
  environ : gmap string string;
  keys : list PrivateKey;
  clients : list api_Client;
  trace : list event
}.

(** A receiver object [self] and the rest of the process. *)
Record Proc (W : Type) := { self : W; world : World }.
Arguments self {W} p.
Arguments world {W} p.

Definition on_self {W} (f : W -> W) : M (Proc W) unit :=
  modify (fun p => {| self := f (self p); world := world p |}).
Definition on_world {W} (f : World -> World) : M (Proc W) unit :=
  modify (fun p => {| self := self p; world := f (world p) |}).

Definition emit {W} (e : event) : M (Proc W) unit :=
  on_world (fun w => {| environ := environ w; keys := keys w;
                        clients := clients w; trace := trace w ++ [e] |}).

(** [new(ecdsa.PrivateKey)]-style allocation: the pointer is the index. *)
Definition newKey {W} (k : PrivateKey) : M (Proc W) nat := fun p =>
  let w := world p in
  Ret (length (keys w))
      {| self := self p;
         world := {| environ := environ w; keys := keys w ++ [k];
                     clients := clients w; trace := trace w |} |}.

Definition storeKeyAt {W} (ptr : nat) (k : PrivateKey) : M (Proc W) unit :=
  on_world (fun w => {| environ := environ w; keys := <[ptr := k]> (keys w);
                        clients := clients w; trace := trace w |}).

Definition newClient {W} (c : api_Client) : M (Proc W) nat := fun p =>
  let w := world p in
  Ret (length (clients w))
      {| self := self p;
         world := {| environ := environ w; keys := keys w;
                     clients := clients w ++ [c]; trace := trace w |} |}.

Definition storeClientAt {W} (ptr : nat) (c : api_Client) : M (Proc W) unit :=
  on_world (fun w => {| environ := environ w; keys := keys w;
                        clients := <[ptr := c]> (clients w); trace := trace w |}).

(** Dereference of a pointer into a heap. *)
Definition deref {W A} (heap : World -> list A) (ptr : nat) : M (Proc W) A :=
  fun p => match heap (world p) !! ptr with
           | Some a => Ret a p
           | None => Panic nilDeref p
           end.

(** [os.LookupEnv] *)
Definition LookupEnv {W} (name : string) : M (Proc W) (option string) :=
  gets (fun p => environ (world p) !! name).

Definition extcall {W A} (c : call A) : M (Proc W) A :=
  match c with
  | Returns a => mret a
  | Panics msg => panic msg
  end.

(** Functions of other packages. The Vault server answers a request as a
    function of everything the process did before it. *)
Class Externals := {
  api_NewClient : gmap string string -> api_Client + error;
  api_SetAddress : api_Client -> string -> option error;
  api_Write : list event -> api_Client -> string -> gmap string value
              -> option Secret * option error;
  api_ReadWithData : list event -> api_Client -> string
                     -> gmap string (list string)
                     -> option Secret * option error;
  IsHexAddress : string -> bool;
  HexToAddress : string -> address;
  HexToECDSA : string -> PrivateKey + error;
  crypto_Sign : bytes -> PrivateKey -> call (bytes * option error);
  IsPrivate : Transaction -> bool;
  types_SignTx : Transaction -> Signer -> PrivateKey
                 -> call (option Transaction * option error)
}.

End Process.

Arguments event : clear implicits.
Arguments World : clear implicits.
Arguments Proc : clear implicits.
Arguments Externals : clear implicits.
Arguments self {Transaction W} p.
Arguments world {Transaction W} p.

(** ** Helpers shared by both wallet files *)

(** [sync.RWMutex] operations seen from the only running goroutine: an
    acquisition that cannot proceed waits forever. Unlocking a lock that is
    not held is a fatal error of the runtime, recorded as a panic by
    [on_lock]; the wallet code never reaches one. *)
Inductive lockres := Locked (m : RWMutex) | Waits | Fatal (msg : string).

Definition RLock (m : RWMutex) : lockres :=
  if writer m then Waits
  else Locked {| readers := S (readers m); writer := writer m |}.

Definition RUnlock (m : RWMutex) : lockres :=
  match readers m with
  | O => Fatal "sync: RUnlock of unlocked RWMutex"
  | S n => Locked {| readers := n; writer := writer m |}
  end.

Definition Lock (m : RWMutex) : lockres :=
  if writer m || negb (readers m =? 0)%nat then Waits
  else Locked {| readers := readers m; writer := true |}.

Definition Unlock (m : RWMutex) : lockres :=
  if writer m then Locked {| readers := readers m; writer := false |}
  else Fatal "sync: Unlock of unlocked RWMutex".

Definition unlocked : RWMutex := {| readers := 0; writer := false |}.

(** [parseURL], the same in both files. *)
Definition parseURL (url : string) : URL * option error :=
  let parts := Split url "://" in
  if negb (length parts =? 2)%nat || bool_decide (parts !! 0%nat = Some "")
  then (emptyURL, Some (errorString "protocol scheme missing"))
  else ({| Scheme := default "" (parts !! 0%nat);
           Path := default "" (parts !! 1%nat) |}, None).

(** The loop [for i := range b { b[i] = 0 }]. *)
Definition zeroWords (b : list Z) : list Z :=
  foldl (fun b i => <[i := 0]> b) b (seq 0 (length b)).

Definition newline : string := String (ascii_of_nat 10) EmptyString.

Definition emptyAccount : Account := {| Address := 0%N; Account_URL := emptyURL |}.


(** ** Key handling shared by both wallet files *)

(** [types.NewEIP155Signer]: a [nil] chain id counts as zero. *)
Definition NewEIP155Signer (chainID : option Z) : Signer :=
  EIP155Signer (default 0 chainID).

Section Keys.

Context {Transaction : Type} `{!Externals Transaction} {W : Type}.

(** [zeroKey], the same in both files. *)
Definition zeroKey (k : nat) : M (Proc Transaction W) unit :=
  key ← deref keys k;
  match D key with
  | None => panic nilDeref
  | Some d =>
      let b := abs d in
      storeKeyAt k {| X := X key; Y := Y key;
                      D := Some {| neg := neg d; abs := zeroWords b |} |}
  end.

(** [crypto.Sign(hash, key)] with the key at [k]. *)
Definition Sign (hash : bytes) (k : nat)
  : M (Proc Transaction W) (bytes * option error) :=
  key ← deref keys k;
  emit (CryptoSign hash key);;
  extcall (crypto_Sign hash key).

(** [types.SignTx(tx, s, key)] with the key at [k]. *)
Definition typesSignTx (tx : Transaction) (s : Signer) (k : nat)
  : M (Proc Transaction W) (option Transaction * option error) :=
  key ← deref keys k;
  emit (TypesSignTx tx s key);;
  extcall (types_SignTx tx s key).

End Keys.

(** ** Further library functions, used by [Status] and by key storage *)

(** [api.HealthResponse], as far as [Status] reads it. *)
Record HealthResponse := { Initialized : bool; Sealed : bool }.

(** [%v] of [fmt] on a boolean. *)
Definition boolString (b : bool) : string := if b then "true" else "false".

(** The digit of [hex.EncodeToString] for a value below sixteen. *)
Definition hexChar (n : N) : ascii :=
  if (n <? 10)%N then ascii_of_N (48 + n) else ascii_of_N (87 + n).

(** [hex.EncodeToString] *)
Fixpoint EncodeToString (b : bytes) : string :=
  match b with
  | [] => EmptyString
  | x :: rest =>
      String (hexChar (Byte.to_N x / 16)) (String (hexChar (Byte.to_N x mod 16))
        (EncodeToString rest))
  end.

(** The string without its first [n] bytes. *)
Fixpoint dropBytes (n : nat) (s : string) : string :=
  match n, s with
  | S k, String _ s' => dropBytes k s'
  | _, _ => s
  end.

(** Functions of other packages that [Externals] does not list. The health
    answer and the generated key are functions of everything the process
    did before. *)
Class Library (Transaction : Type) := {
  api_Health : list (event Transaction) -> api_Client
               -> option HealthResponse * option error;
  ecdsa_GenerateKey : list (event Transaction) -> PrivateKey + error;
  PubkeyToAddress : PrivateKey -> address;
  AddressHex : address -> string;
  FromECDSA : PrivateKey -> bytes
}.

(** ** hashicorp_wallet.go *)

Module Hashicorp.

Record hashicorpWallet := {
  stateLock : RWMutex;
  url : URL;
  clientData : ClientData;
  secrets : list SecretData;
  accounts : list Account;
  accountsSecretMap : gmap address SecretData;
  client : option nat;
  updateFeed : option nat;
  logger : option URL
}.

Definition zeroWallet : hashicorpWallet :=
  {| stateLock := unlocked; url := emptyURL;
     clientData := {| Url := ""; Approle := ""; CaCert := ""; ClientCert := "";
                      ClientKey := "" |};
     secrets := []; accounts := []; accountsSecretMap := ∅; client := None;
     updateFeed := None; logger := None |}.

Definition set_stateLock (m : RWMutex) (hw : hashicorpWallet) :=
  {| stateLock := m; url := url hw; clientData := clientData hw;
     secrets := secrets hw; accounts := accounts hw;
     accountsSecretMap := accountsSecretMap hw; client := client hw;
     updateFeed := updateFeed hw; logger := logger hw |}.

Definition set_Approle (a : string) (hw : hashicorpWallet) :=
  {| stateLock := stateLock hw; url := url hw;
     clientData := {| Url := Url (clientData hw); Approle := a;
                      CaCert := CaCert (clientData hw);
                      ClientCert := ClientCert (clientData hw);
                      ClientKey := ClientKey (clientData hw) |};
     secrets := secrets hw; accounts := accounts hw;
     accountsSecretMap := accountsSecretMap hw; client := client hw;
     updateFeed := updateFeed hw; logger := logger hw |}.

Definition set_client (c : option nat) (hw : hashicorpWallet) :=
  {| stateLock := stateLock hw; url := url hw; clientData := clientData hw;
     secrets := secrets hw; accounts := accounts hw;
     accountsSecretMap := accountsSecretMap hw; client := c;
     updateFeed := updateFeed hw; logger := logger hw |}.

Definition set_accounts (a : list Account) (hw : hashicorpWallet) :=
  {| stateLock := stateLock hw; url := url hw; clientData := clientData hw;
     secrets := secrets hw; accounts := a;
     accountsSecretMap := accountsSecretMap hw; client := client hw;
     updateFeed := updateFeed hw; logger := logger hw |}.

Definition set_accountsSecretMap (m : gmap address SecretData)
    (hw : hashicorpWallet) :=
  {| stateLock := stateLock hw; url := url hw; clientData := clientData hw;
     secrets := secrets hw; accounts := accounts hw;
     accountsSecretMap := m; client := client hw;
     updateFeed := updateFeed hw; logger := logger hw |}.

Definition set_updateFeed (f : option nat) (hw : hashicorpWallet) :=
  {| stateLock := stateLock hw; url := url hw; clientData := clientData hw;
     secrets := secrets hw; accounts := accounts hw;
     accountsSecretMap := accountsSecretMap hw; client := client hw;
     updateFeed := f; logger := logger hw |}.

Definition set_logger (l : option URL) (hw : hashicorpWallet) :=
  {| stateLock := stateLock hw; url := url hw; clientData := clientData hw;
     secrets := secrets hw; accounts := accounts hw;
     accountsSecretMap := accountsSecretMap hw; client := client hw;
     updateFeed := updateFeed hw; logger := l |}.

(** [newHashicorpWallet] *)
Definition newHashicorpWallet (clientData : ClientData)
    (secrets : list SecretData) : hashicorpWallet * option error :=
  let '(url, err) := parseURL (Url clientData) in
  match err with
  | Some err => (zeroWallet, Some err)
  | None =>
      ({| stateLock := unlocked; url := url; clientData := clientData;
          secrets := secrets; accounts := []; accountsSecretMap := ∅;
          client := None; updateFeed := None; logger := None |}, None)
  end.

(** [NewHashicorpWallet]: the feed and the logger are set on whatever
    [newHashicorpWallet] returned, also next to an error. *)
Definition NewHashicorpWallet (clientData : ClientData)
    (secrets : list SecretData) (updateFeed : option nat)
  : hashicorpWallet * option error :=
  let '(hw, err) := newHashicorpWallet clientData secrets in
  let hw := set_updateFeed updateFeed hw in
  let hw := set_logger (Some (url hw)) hw in
  (hw, err).

Section Methods.

Context {Transaction : Type} `{!Externals Transaction}.

Abbreviation HW := (Proc Transaction hashicorpWallet).
Abbreviation event := (event Transaction).

(** An operation on [hw.stateLock]. *)
Definition on_lock (f : RWMutex -> lockres) : M HW unit := fun p =>
  match f (stateLock (self p)) with
  | Locked m => on_self (set_stateLock m) p
  | Waits => Blocked p
  | Fatal msg => Panic msg p
  end.

(** [c.Logical().ReadWithData(path, data)] on the client at [ptr]. *)
Definition ReadWithData (ptr : nat) (path : string)
    (data : gmap string (list string)) : M HW (option Secret * option error) :=
  c ← deref clients ptr;
  history ← gets (fun p => trace (world p));
  emit (VaultRead c path data);;
  mret (api_ReadWithData history c path data).

(** [c.Logical().Write(path, data)] on the client at [ptr]. *)
Definition Write (ptr : nat) (path : string) (data : gmap string value)
  : M HW (option Secret * option error) :=
  c ← deref clients ptr;
  history ← gets (fun p => trace (world p));
  emit (VaultWrite c path data);;
  mret (api_Write history c path data).

(** [hw.read] *)
Definition read (path : string) (queryParams : gmap string (list string))
  : M HW (option Secret * option error) :=
  on_lock RLock;;
  with_defer (on_lock RUnlock)
    (hw ← gets self;
     match client hw with
     | None => panic nilDeref
     | Some c => ReadWithData c path queryParams
     end).

Definition notAMap : string :=
  "interface conversion: interface {} is not map[string]interface {}".

(** [hw.getAccount]. The deferred [zeroSecret] and [zeroSecretData] assign
    to their own parameter and change nothing. *)
Definition getAccount (secretData : SecretData)
  : M HW (Account * option error) :=
  let '(path, queryParams, err) := toRequestData secretData in
  match err with
  | Some err =>
      mret (emptyAccount,
            Some (hashicorpError "unable to get secret URL from data"
                    secretData emptyURL (Some err)))
  | None =>
      '(secret, err) ← read path queryParams;
      hw ← gets self;
      match err with
      | Some err =>
          mret (emptyAccount,
                Some (hashicorpError "unable to retrieve secret from vault"
                        secretData (url hw) (Some err)))
      | None =>
          match secret with
          | None => panic nilDeref
          | Some secret =>
              match Data secret !! "data" with
              | Some (VMap m) =>
                  match m !! AccountID secretData with
                  | None =>
                      mret (emptyAccount,
                            Some (hashicorpError
                                    "no value found in vault with provided AccountID"
                                    secretData (url hw) None))
                  | Some (VString strAcct) =>
                      if IsHexAddress strAcct then
                        let u := Url (clientData hw) +:+ "/v1/" +:+ path
                                 +:+ "?version=" +:+ Itoa (Version secretData) in
                        let '(url', err) := parseURL u in
                        match err with
                        | Some err =>
                            mret (emptyAccount,
                                  Some (hashicorpError
                                          "unable to create account URL"
                                          secretData (url hw) (Some err)))
                        | None =>
                            mret ({| Address := HexToAddress strAcct;
                                     Account_URL := url' |}, None)
                        end
                      else
                        mret (emptyAccount,
                              Some (hashicorpError
                                      "unable to get account from vault"
                                      secretData (url hw) None))
                  | Some _ =>
                      mret (emptyAccount,
                            Some (hashicorpError
                                    "AccountID value in vault is not plain string"
                                    secretData (url hw) None))
                  end
              | _ => panic notAMap
              end
          end
      end
  end.

(** [hw.getPrivateKey]; the result is a pointer into [keys]. *)
Definition getPrivateKey (secretData : SecretData)
  : M HW (nat * option error) :=
  let '(path, queryParams, err) := toRequestData secretData in
  match err with
  | Some err => k ← newKey emptyKey; mret (k, Some err)
  | None =>
      '(secret, err) ← read path queryParams;
      match err with
      | Some err => k ← newKey emptyKey; mret (k, Some err)
      | None =>
          match secret with
          | None => panic nilDeref
          | Some secret =>
              match Data secret !! "data" with
              | Some (VMap m) =>
                  match m !! KeyID secretData with
                  | None => k ← newKey emptyKey; mret (k, Some ErrUnknownAccount)
                  | Some (VString pk) =>
                      emit (Stdout ("Private key: " +:+ pk +:+ newline));;
                      match HexToECDSA pk with
                      | inr err => k ← newKey emptyKey; mret (k, Some err)
                      | inl key => k ← newKey key; mret (k, None)
                      end
                  | Some _ => panic "Not of type string"
                  end
              | _ => panic notAMap
              end
          end
      end
  end.

(** The loop of [refreshAccounts] from index [i] on. *)
Fixpoint refreshLoop (i : nat) (secrets : list SecretData)
    (accts : list Account) (acctsScrtsMap : gmap address SecretData)
  : M HW (list Account * gmap address SecretData * option error) :=
  match secrets with
  | [] => mret (accts, acctsScrtsMap, None)
  | secret :: rest =>
      '(acct, err) ← getAccount secret;
      match err with
      | Some err => mret (accts, acctsScrtsMap, Some err)
      | None =>
          refreshLoop (S i) rest (<[i := acct]> accts)
            (<[Address acct := secret]> acctsScrtsMap)
      end
  end.

(** [hw.refreshAccounts] *)
Definition refreshAccounts : M HW (option error) :=
  hw ← gets self;
  let accts := replicate (length (secrets hw)) emptyAccount in
  let acctsScrtsMap : gmap address SecretData := ∅ in
  '(accts, acctsScrtsMap, err) ← refreshLoop 0 (secrets hw) accts acctsScrtsMap;
  match err with
  | Some err => mret (Some err)
  | None =>
      on_self (set_accounts accts);;
      on_self (set_accountsSecretMap acctsScrtsMap);;
      mret None
  end.

(** Names of the environment variables read by [Open]. *)
Definition vaultRoleId : string := "VAULT_ROLE_ID".
Definition vaultSecretId : string := "VAULT_SECRET_ID".
Definition vaultApprolePath : string := "VAULT_APPROLE_PATH".

Definition approleError : error :=
  errorString ("both " +:+ quoted vaultRoleId +:+ " and " +:+ quoted vaultSecretId
               +:+ " environment variables must be set to use Approle authentication").

(** The part of [Open] that runs under the exclusive lock. The send on the
    feed is recorded where it happens and taken to return; how long
    [event.Feed.Send] waits for the subscribers of the feed is not
    modelled. *)
Definition OpenLocked : M HW (option error) :=
  env ← gets (fun p => environ (world p));
  match api_NewClient env with
  | inr err => mret (Some err)
  | inl c =>
      client ← newClient c;
      hw ← gets self;
      match api_SetAddress c (Url (clientData hw)) with
      | Some err => mret (Some err)
      | None =>
          storeClientAt client {| addr := Url (clientData hw); token := token c |};;
          roleId ← LookupEnv vaultRoleId;
          secretId ← LookupEnv vaultSecretId;
          let rIdOk := bool_decide (is_Some roleId) in
          let sIdOk := bool_decide (is_Some secretId) in
          if negb (Bool.eqb rIdOk sIdOk) then mret (Some approleError)
          else
            r ← (if rIdOk && sIdOk then
                   let authData : gmap string value :=
                     {[ "role_id" := VString (default "" roleId);
                        "secret_id" := VString (default "" secretId) ]} in
                   approlePath ← LookupEnv vaultApprolePath;
                   let approlePath := default "approle" approlePath in
                   on_self (set_Approle approlePath);;
                   hw ← gets self;
                   '(authResponse, err) ←
                     Write client ("auth/" +:+ Approle (clientData hw) +:+ "/login")
                       authData;
                   match err with
                   | Some err => mret (Some err)
                   | None =>
                       match authResponse with
                       | None => panic nilDeref
                       | Some authResponse =>
                           match Auth authResponse with
                           | None => panic nilDeref
                           | Some auth =>
                               c ← deref clients client;
                               storeClientAt client
                                 {| addr := addr c; token := ClientToken auth |};;
                               mret None
                           end
                       end
                   end
                 else mret None);
            match r with
            | Some err => mret (Some err)
            | None =>
                hw ← gets self;
                match updateFeed hw with
                | None => panic nilDeref
                | Some feed =>
                    emit (FeedSend feed (url hw) WalletOpened);;
                    on_self (set_client (Some client));;
                    mret None
                end
            end
      end
  end.

(** [hw.Open]. The early return on an open wallet happens between [RLock]
    and [RUnlock]. *)
Definition Open (passphrase : string) : M HW (option error) :=
  on_lock RLock;;
  hw ← gets self;
  if bool_decide (is_Some (client hw)) then mret (Some ErrWalletAlreadyOpen)
  else
    on_lock RUnlock;;
    on_lock Lock;;
    with_defer (on_lock Unlock) OpenLocked.

(** [hw.client.ClearToken()] *)
Definition ClearToken (ptr : nat) : M HW unit :=
  c ← deref clients ptr;
  storeClientAt ptr {| addr := addr c; token := "" |}.

(** [hw.Close] *)
Definition Close : M HW (option error) :=
  on_lock Lock;;
  with_defer (on_lock Unlock)
    (hw ← gets self;
     match client hw with
     | None => mret None
     | Some c =>
         ClearToken c;;
         on_self (set_client None);;
         on_self (set_accounts []);;
         on_self (set_accountsSecretMap ∅);;
         mret None
     end).

(** [hw.Accounts]: a new slice with the elements of [hw.accounts]. *)
Definition Accounts : M HW (list Account) :=
  on_lock RLock;;
  with_defer (on_lock RUnlock)
    (hw ← gets self;
     mret (accounts hw)).

(** [hw.Contains] *)
Definition Contains (account : Account) : M HW bool :=
  on_lock RLock;;
  with_defer (on_lock RUnlock)
    (hw ← gets self;
     mret (existsb
             (fun acct =>
                bool_decide (Address acct = Address account)
                && (bool_decide (emptyURL = Account_URL account)
                    || bool_decide (Account_URL acct = Account_URL account)))
             (accounts hw))).

(** [hw.SignHash] *)
Definition SignHash (account : Account) (hash : bytes)
  : M HW (bytes * option error) :=
  on_lock RLock;;
  with_defer (on_lock RUnlock)
    (hw ← gets self;
     if bool_decide (client hw = None) then mret ([], Some ErrWalletClosed)
     else
       match accountsSecretMap hw !! Address account with
       | None => mret ([], Some ErrUnknownAccount)
       | Some secretData =>
           '(key, err) ← getPrivateKey secretData;
           match err with
           | Some err => mret ([], Some err)
           | None => with_defer (zeroKey key) (Sign hash key)
           end
       end).

(** [hw.SignTx]; [chainID] is [None] for a [nil] pointer. *)
Definition SignTx (account : Account) (tx : Transaction) (chainID : option Z)
    (isQuorum : bool) : M HW (option Transaction * option error) :=
  on_lock RLock;;
  with_defer (on_lock RUnlock)
    (hw ← gets self;
     if bool_decide (client hw = None) then mret (None, Some ErrWalletClosed)
     else
       match accountsSecretMap hw !! Address account with
       | None => mret (None, Some ErrUnknownAccount)
       | Some secretData =>
           '(key, err) ← getPrivateKey secretData;
           match err with
           | Some err => mret (None, Some err)
           | None =>
               with_defer (zeroKey key)
                 (if bool_decide (chainID ≠ None) && negb (IsPrivate tx)
                  then typesSignTx tx (NewEIP155Signer chainID) key
                  else typesSignTx tx HomesteadSigner key)
           end
       end).

Definition SignHashWithPassphrase (account : Account) (passphrase : string)
    (hash : bytes) : M HW (bytes * option error) :=
  SignHash account hash.

Definition SignTxWithPassphrase (account : Account) (passphrase : string)
    (tx : Transaction) (chainID : option Z)
  : M HW (option Transaction * option error) :=
  SignTx account tx chainID true.

Context `{!Library Transaction}.

(** [hw.URL] *)
Definition URL_of : M HW URL := gets (fun p => url (self p)).

Definition walletClosed : string := "Closed".
Definition vaultUninitialised : string := "Vault uninitialised".
Definition vaultSealed : string := "Vault sealed".
Definition healthcheckFailed : string := "Vault healthcheck failed".
Definition walletOpen : string := "Open, vault initialised and unsealed".

Definition healthError (health : HealthResponse) : error :=
  errorString ("Vault health check result - Initialized: "
               +:+ boolString (Initialized health) +:+ ", Sealed: "
               +:+ boolString (Sealed health)).

(** [c.Sys().Health()] on the client at [ptr]: a request to the Vault,
    recorded like a read or a write. *)
Definition Health (ptr : nat) : M HW (option HealthResponse * option error) :=
  c ← deref clients ptr;
  history ← gets (fun p => trace (world p));
  emit (VaultHealth c);;
  mret (api_Health history c).

(** [hw.Status] *)
Definition Status : M HW (string * option error) :=
  on_lock RLock;;
  with_defer (on_lock RUnlock)
    (hw ← gets self;
     match client hw with
     | None => mret (walletClosed, None)
     | Some c =>
         '(health, err) ← Health c;
         match err with
         | Some err => mret (healthcheckFailed, Some err)
         | None =>
             match health with
             | None => panic nilDeref
             | Some health =>
                 if negb (Initialized health)
                 then mret (vaultUninitialised, Some (healthError health))
                 else if Sealed health
                 then mret (vaultSealed, Some (healthError health))
                 else mret (walletOpen, None)
             end
         end
     end).

(** [hw.Derive] *)
Definition Derive : M HW (Account * option error) :=
  mret (emptyAccount, Some ErrNotSupported).

(** [generateKey]: the new key is allocated on the heap of keys; next to an
    error the pointer is [nil], here the index past the heap. *)
Definition generateKey : M HW (nat * option error) :=
  history ← gets (fun p => trace (world p));
  match ecdsa_GenerateKey history with
  | inr err => n ← gets (fun p => length (keys (world p))); mret (n, Some err)
  | inl key => k ← newKey key; mret (k, None)
  end.

Definition indexOutOfRange : string := "runtime error: index out of range".

(** [hw.storeKey] for the key at [key]. In the payload the entry for
    [s.KeyID] is written after the one for [s.AccountID]. *)
Definition storeKey (key : nat) : M HW (address * option error) :=
  k ← deref keys key;
  let address := PubkeyToAddress k in
  let addrHex := AddressHex address in
  let addrHex := if HasPrefix addrHex "0x" then dropBytes 2 addrHex else addrHex in
  let keyBytes := FromECDSA k in
  let keyHex := EncodeToString keyBytes in
  hw ← gets self;
  match secrets hw !! 0%nat with
  | None => panic indexOutOfRange
  | Some s =>
      let path := SecretEngine s +:+ "/data/" +:+ Name s in
      let data : gmap string value :=
        <["data" := VMap (<[KeyID s := VString keyHex]>
                            (<[AccountID s := VString addrHex]> ∅))]> ∅ in
      match client hw with
      | None => panic nilDeref
      | Some c =>
          '(_, err) ← Write c path data;
          match err with
          | Some err => mret (0%N, Some err)
          | None => mret (address, None)
          end
      end
  end.

End Methods.

End Hashicorp.

(** ** vault_wallet.go *)

Module VaultWallet.

Section Methods.

Context {Transaction : Type} `{!Externals Transaction}.

(** The interface [VaultService], implemented by a service object of type
    [V]. A [*ecdsa.PrivateKey] result is a pointer into [keys]; a pointer
    outside the heap stands for [nil]. *)
Class VaultService (V : Type) := {
  status : M (Proc Transaction V) (string * option error);
  open : M (Proc Transaction V) (option error);
  isOpen : M (Proc Transaction V) bool;
  close : M (Proc Transaction V) (option error);
  getAccounts : M (Proc Transaction V) (list Account * list error);
  getPrivateKey : Account -> M (Proc Transaction V) (nat * option error);
  store : nat -> M (Proc Transaction V) (address * option error)
}.

Record vaultWallet (V : Type) := {
  vault : V;
  url : URL;
  updateFeed : option nat;
  stateLock : RWMutex;
  accounts : list Account
}.
Arguments vault {V} _.
Arguments url {V} _.
Arguments updateFeed {V} _.
Arguments stateLock {V} _.
Arguments accounts {V} _.

Context {V : Type} `{!VaultService V}.

Abbreviation VW := (Proc Transaction (vaultWallet V)).

Definition set_vault (v : V) (w : vaultWallet V) : vaultWallet V :=
  {| vault := v; url := url w; updateFeed := updateFeed w;
     stateLock := stateLock w; accounts := accounts w |}.

Definition set_stateLock (m : RWMutex) (w : vaultWallet V) : vaultWallet V :=
  {| vault := vault w; url := url w; updateFeed := updateFeed w;
     stateLock := m; accounts := accounts w |}.

Definition set_accounts (a : list Account) (w : vaultWallet V) : vaultWallet V :=
  {| vault := vault w; url := url w; updateFeed := updateFeed w;
     stateLock := stateLock w; accounts := a |}.

(** A method call on [w.vault]. *)
Definition on_vault {A} (c : M (Proc Transaction V) A) : M VW A := fun p =>
  let back (q : Proc Transaction V) : VW :=
    {| self := set_vault (self q) (self p); world := world q |} in
  match c {| self := vault (self p); world := world p |} with
  | Ret a q => Ret a (back q)
  | Panic msg q => Panic msg (back q)
  | Blocked q => Blocked (back q)
  end.

Definition on_lock (f : RWMutex -> lockres) : M VW unit := fun p =>
  match f (stateLock (self p)) with
  | Locked m => on_self (set_stateLock m) p
  | Waits => Blocked p
  | Fatal msg => Panic msg p
  end.

(** [w.Open]; the event is sent from a new goroutine, recorded here at the
    point where it is started. *)
Definition Open (passphrase : string) : M VW (option error) :=
  o ← on_vault isOpen;
  if (o : bool) then mret (Some ErrWalletAlreadyOpen)
  else
    err ← on_vault open;
    match err with
    | Some err => mret (Some err)
    | None =>
        w ← gets self;
        match updateFeed w with
        | None => panic nilDeref
        | Some feed =>
            emit (FeedSend feed (url w) WalletOpened);;
            mret None
        end
    end.

(** [w.Close] *)
Definition Close : M VW (option error) :=
  on_lock Lock;;
  on_self (set_accounts []);;
  on_lock Unlock;;
  on_vault close.

(** [w.Contains] *)
Definition Contains (account : Account) : M VW bool :=
  on_lock RLock;;
  with_defer (on_lock RUnlock)
    (w ← gets self;
     mret (existsb
             (fun wltAcct =>
                bool_decide (Address wltAcct = Address account)
                && (bool_decide (Account_URL account = emptyURL)
                    || bool_decide (Account_URL wltAcct = Account_URL account)))
             (accounts w))).

(** [w.SignHash] *)
Definition SignHash (account : Account) (hash : bytes)
  : M VW (bytes * option error) :=
  c ← Contains account;
  if negb c then mret ([], Some ErrUnknownAccount)
  else
    '(key, err) ← on_vault (getPrivateKey account);
    match err with
    | Some err => mret ([], Some err)
    | None => with_defer (zeroKey key) (Sign hash key)
    end.

(** [w.SignTx] *)
Definition SignTx (account : Account) (tx : Transaction) (chainID : option Z)
    (isQuorum : bool) : M VW (option Transaction * option error) :=
  c ← Contains account;
  if negb c then mret (None, Some ErrUnknownAccount)
  else
    '(key, err) ← on_vault (getPrivateKey account);
    match err with
    | Some err => mret (None, Some err)
    | None =>
        with_defer (zeroKey key)
          (if bool_decide (chainID ≠ None) && negb (IsPrivate tx)
           then typesSignTx tx (NewEIP155Signer chainID) key
           else typesSignTx tx HomesteadSigner key)
    end.

(** [w.URL] *)
Definition URL_of : M VW URL := gets (fun p => url (self p)).

(** [w.Status] *)
Definition Status : M VW (string * option error) := on_vault status.

(** The warnings [Accounts] logs, one for each error. *)
Fixpoint warnAll (errs : list error) : M VW unit :=
  match errs with
  | [] => mret tt
  | err :: rest =>
      emit (LogWarn "Error getting account from vault" (Some err));;
      warnAll rest
  end.

(** [w.Accounts] *)
Definition Accounts : M VW (list Account) :=
  '(accts, errs) ← on_vault getAccounts;
  warnAll errs;;
  on_lock Lock;;
  on_self (set_accounts accts);;
  on_lock Unlock;;
  on_lock RLock;;
  with_defer (on_lock RUnlock)
    (w ← gets self;
     mret (accounts w)).

(** [w.Derive] *)
Definition Derive : M VW (Account * option error) :=
  mret (emptyAccount, Some ErrNotSupported).

Definition SignHashWithPassphrase (account : Account) (passphrase : string)
    (hash : bytes) : M VW (bytes * option error) :=
  SignHash account hash.

Definition SignTxWithPassphrase (account : Account) (passphrase : string)
    (tx : Transaction) (chainID : option Z)
  : M VW (option Transaction * option error) :=
  SignTx account tx chainID true.

End Methods.

Arguments VaultService : clear implicits.
Arguments vault {V} _.
Arguments url {V} _.
Arguments updateFeed {V} _.
Arguments stateLock {V} _.
Arguments accounts {V} _.

End VaultWallet.

(** ** The backend file *)

Module Backend.

Record HashicorpConfig := {
  Client : ClientData;
  Secrets : list SecretData
}.

(** [wallets] holds the [*hashicorpWallet] values by content; [updateFeed]
    is the identity of the backend's feed. *)
Record hashicorpBackend := {
  stateLock : RWMutex;
  wallets : list Hashicorp.hashicorpWallet;
  updateFeed : nat;
  hashicorpConfigs : list HashicorpConfig
}.

Definition set_wallets (ws : list Hashicorp.hashicorpWallet)
    (hb : hashicorpBackend) : hashicorpBackend :=
  {| stateLock := stateLock hb; wallets := ws; updateFeed := updateFeed hb;
     hashicorpConfigs := hashicorpConfigs hb |}.

Section Methods.

Context {Transaction : Type}.

Abbreviation HB := (Proc Transaction hashicorpBackend).

(** The first loop of [refreshWallets]: one wallet and one event per
    configuration. *)
Fixpoint buildWallets (feed : nat) (configs : list HashicorpConfig)
    (wallets : list Hashicorp.hashicorpWallet)
    (events : list (Hashicorp.hashicorpWallet * WalletEventType))
  : M HB (list Hashicorp.hashicorpWallet
          * list (Hashicorp.hashicorpWallet * WalletEventType)) :=
  match configs with
  | [] => mret (wallets, events)
  | hc :: rest =>
      let '(w, err) := Hashicorp.NewHashicorpWallet (Client hc) (Secrets hc)
                         (Some feed) in
      (match err with
       | Some err => emit (LogWarn "Unable to create Hashicorp wallet" (Some err))
       | None => mret tt
       end);;
      let events := events ++ [(w, WalletArrived)] in
      let wallets := wallets ++ [w] in
      buildWallets feed rest wallets events
  end.

(** The second loop of [refreshWallets]. *)
Fixpoint sendAll (feed : nat)
    (events : list (Hashicorp.hashicorpWallet * WalletEventType)) : M HB unit :=
  match events with
  | [] => mret tt
  | (w, kind) :: rest =>
      emit (FeedSend feed (Hashicorp.url w) kind);;
      sendAll feed rest
  end.

(** [hb.refreshWallets] *)
Definition refreshWallets : M HB unit :=
  hb ← gets self;
  if (length (wallets hb) =? 0)%nat then
    '(wallets, events) ← buildWallets (updateFeed hb) (hashicorpConfigs hb) [] [];
    sendAll (updateFeed hb) events;;
    on_self (set_wallets wallets)
  else mret tt.

(** [NewHashicorpBackend]; [feed] identifies the feed of the new backend. *)
Definition NewHashicorpBackend (feed : nat)
    (hashicorpConfigs : list HashicorpConfig) (w : World Transaction)
  : outcome HB hashicorpBackend :=
  let hb := {| stateLock := unlocked; wallets := []; updateFeed := feed;
               hashicorpConfigs := hashicorpConfigs |} in
  (refreshWallets;; gets self) {| self := hb; world := w |}.

(** [hb.Wallets] *)
Definition Wallets : M HB (list Hashicorp.hashicorpWallet) :=
  gets (fun p => wallets (self p)).

End Methods.

End Backend.

(** ** [GenerateAndStore] of hashicorp_wallet.go *)

Section GenerateAndStore.

Context {Transaction : Type} `{!Externals Transaction} `{!Library Transaction}.

Definition clientError : error := errorString "error creating Vault client".

(** What [GenerateAndStore] does with the wallet it has built. The result
    of [Open] is dropped. *)
Definition generateAndStoreOn
  : M (Proc Transaction Hashicorp.hashicorpWallet) (address * option error) :=
  Hashicorp.Open "";;
  '(status, err) ← Hashicorp.Status;
  match err with
  | Some err => mret (0%N, Some err)
  | None =>
      if bool_decide (status = "Closed") then mret (0%N, Some clientError)
      else
        '(key, err) ← Hashicorp.generateKey;
        match err with
        | Some err => mret (0%N, Some err)
        | None =>
            with_defer (zeroKey key)
              ('(address, err) ← Hashicorp.storeKey key;
               match err with
               | Some err => mret (0%N, Some err)
               | None => mret (address, None)
               end)
        end
  end.

(** [GenerateAndStore], started in the world [w]. *)
Definition GenerateAndStore (config : Backend.HashicorpConfig)
    (w : World Transaction)
  : outcome (Proc Transaction Hashicorp.hashicorpWallet) (address * option error) :=
  let '(hw, err) := Hashicorp.newHashicorpWallet (Backend.Client config)
                      (Backend.Secrets config) in
  match err with
  | Some err => Ret (0%N, Some err) {| self := hw; world := w |}
  | None => generateAndStoreOn {| self := hw; world := w |}
  end.

End GenerateAndStore.

(** ** A small concrete process, used to run the code on examples *)

Module Demo.

(** Hexadecimal digits to a number; [None] on any other character. *)
Definition hexDigit (c : ascii) : option N :=
  let n := N_of_ascii c in
  if (48 <=? n)%N && (n <=? 57)%N then Some (n - 48)%N
  else if (97 <=? n)%N && (n <=? 102)%N then Some (n - 87)%N
  else if (65 <=? n)%N && (n <=? 70)%N then Some (n - 55)%N
  else None.

Fixpoint hexValue (acc : N) (s : string) : option N :=
  match s with
  | EmptyString => Some acc
  | String c s' =>
      match hexDigit c with
      | Some d => hexValue (acc * 16 + d)%N s'
      | None => None
      end
  end.

(** A transaction is its privacy flag and its payload. *)
Definition Transaction : Type := bool * string.

(** A fake Vault and stand-ins for the go-ethereum functions: one word per
    key, a 32-byte check in [crypto.Sign], one secret engine. The secret
    ["once"] can be read once; later reads of it fail. The Vault has no
    secret ["missing"]: a read of it returns no secret and no error. *)
#[local] Instance externals : Externals Transaction := {|
  api_NewClient env :=
    inl {| addr := "https://127.0.0.1:8200"; token := default "" (env !! "VAULT_TOKEN") |};
  api_SetAddress c url :=
    if HasPrefix url "http" then None
    else Some (ErrLibrary "api" "failed to set address");
  api_Write history c path data :=
    if bool_decide (path = "auth/approle/login")
    then (Some {| Data := ∅; Auth := Some {| ClientToken := "s.session" |} |}, None)
    else (None, Some (ErrLibrary "api" "permission denied"));
  api_ReadWithData history c path query :=
    if bool_decide (path = "secret/data/acct1") then
      (Some {| Data := {[ "data" := VMap {[ "address" := VString "0a";
                                             "key" := VString "11" ]} ]};
               Auth := None |}, None)
    else if bool_decide (path = "secret/data/acct2") then
      (Some {| Data := {[ "data" := VMap {[ "address" := VString "0b";
                                             "key" := VNumber 42 ]} ]};
               Auth := None |}, None)
    else if bool_decide (path = "secret/data/acct3") then
      (Some {| Data := {[ "data" := VMap {[ "address" := VString "0c";
                                             "key" := VString "zz" ]} ]};
               Auth := None |}, None)
    else if bool_decide (path = "secret/data/once") then
      if existsb (fun e => match e with
                           | VaultRead _ p _ => bool_decide (p = path)
                           | _ => false
                           end) history
      then (None, Some (ErrLibrary "api" "connection refused"))
      else
        (Some {| Data := {[ "data" := VMap {[ "address" := VString "0f";
                                               "key" := VString "2a" ]} ]};
                 Auth := None |}, None)
    else if bool_decide (path = "secret/data/missing") then (None, None)
    else (None, Some (ErrLibrary "api" "connection refused"));
  IsHexAddress s := bool_decide (is_Some (hexValue 0 s));
  HexToAddress s := default 0%N (hexValue 0 s);
  HexToECDSA s :=
    match hexValue 0 s with
    | Some n =>
        if (n =? 0)%N then inr (ErrLibrary "crypto" "invalid private key")
        else inl {| X := None; Y := None;
                    D := Some {| neg := false; abs := [Z.of_N n] |} |}
    | None => inr (ErrLibrary "hex" "invalid byte")
    end;
  crypto_Sign hash key :=
    if (length hash =? 32)%nat then Returns (hash, None)
    else Returns ([], Some (ErrLibrary "crypto" "hash is required to be exactly 32 bytes"));
  IsPrivate tx := fst tx;
  types_SignTx tx s key := Returns (Some tx, None)
|}.

Definition secret (name : string) (version : Z) : SecretData :=
  {| Name := name; SecretEngine := "secret"; Version := version;
     AccountID := "address"; KeyID := "key" |}.

Definition clientData : ClientData :=
  {| Url := "http://vault:8200"; Approle := ""; CaCert := ""; ClientCert := "";
     ClientKey := "" |}.

Definition world0 : World Transaction :=
  {| environ := ∅; keys := []; clients := []; trace := [] |}.

(** A wallet as [NewHashicorpWallet] builds it, not yet opened. *)
Definition closedWallet (secrets : list SecretData) : Hashicorp.hashicorpWallet :=
  fst (Hashicorp.NewHashicorpWallet clientData secrets (Some 0%nat)).

Definition closed (secrets : list SecretData)
  : Proc Transaction Hashicorp.hashicorpWallet :=
  {| self := closedWallet secrets; world := world0 |}.

(** The closed wallet in a process with the environment [env]. *)
Definition closedIn (env : gmap string string) (secrets : list SecretData)
  : Proc Transaction Hashicorp.hashicorpWallet :=
  {| self := closedWallet secrets;
     world := {| environ := env; keys := []; clients := []; trace := [] |} |}.

(** The same wallet after [Open] and [refreshAccounts]. *)
Definition opened (secrets : list SecretData)
  : Proc Transaction Hashicorp.hashicorpWallet :=
  final ((Hashicorp.Open "";; Hashicorp.refreshAccounts) (closed secrets)).

Definition hash32 : bytes := replicate 32 Byte.x00.

Definition twoSecrets : list SecretData := [secret "acct1" 1; secret "once" 1].

(** The wallet for [twoSecrets] after [Open] alone. *)
Definition justOpened : Proc Transaction Hashicorp.hashicorpWallet :=
  final (Hashicorp.Open "" (closed twoSecrets)).

(** Two descriptors, the second for a secret the Vault does not have, and
    the wallet for them after [Open]. *)
Definition missingSecrets : list SecretData :=
  [secret "acct1" 1; secret "missing" 1].

Definition openedMissing : Proc Transaction Hashicorp.hashicorpWallet :=
  final (Hashicorp.Open "" (closed missingSecrets)).

Definition accountAt (a : address) (name : string) : Account :=
  {| Address := a;
     Account_URL := {| Scheme := "http";
                       Path := "vault:8200/v1/secret/data/" +:+ name +:+ "?version=1" |} |}.

Definition refusedError : error :=
  hashicorpError "unable to retrieve secret from vault" (secret "once" 1)
    {| Scheme := "http"; Path := "vault:8200" |}
    (Some (ErrLibrary "api" "connection refused")).

(** The account of the secret ["acct1"], without a locator. *)
Definition account1 : Account := {| Address := 10%N; Account_URL := emptyURL |}.

Definition tx1 : Transaction := (false, "payload").

Definition config (url : string) : Backend.HashicorpConfig :=
  {| Backend.Client := {| Url := url; Approle := ""; CaCert := ""; ClientCert := "";
                          ClientKey := "" |};
     Backend.Secrets := [secret "acct1" 1] |}.

(** Three wallet configurations; the second URL has no scheme. *)
Definition threeConfigs : list Backend.HashicorpConfig :=
  [config "http://vault-a:8200"; config "vault-b:8200"; config "http://vault-c:8200"].

(** What [NewHashicorpWallet] returns for the second configuration. *)
Definition failedWallet : Hashicorp.hashicorpWallet :=
  Hashicorp.set_logger (Some emptyURL)
    (Hashicorp.set_updateFeed (Some 0%nat) Hashicorp.zeroWallet).

(** An in-memory stand-in for the vault service behind a [vaultWallet]:
    it hands out a copy of one key while it is open. *)
Record memoryVault := { mv_open : bool; mv_key : PrivateKey }.

#[local] Instance memoryService : VaultWallet.VaultService Transaction memoryVault := {|
  VaultWallet.status := mret ("", None);
  VaultWallet.open :=
    on_self (fun v => {| mv_open := true; mv_key := mv_key v |});; mret None;
  VaultWallet.isOpen := gets (fun p => mv_open (self p));
  VaultWallet.close :=
    on_self (fun v => {| mv_open := false; mv_key := mv_key v |});; mret None;
  VaultWallet.getAccounts := mret ([account1], []);
  VaultWallet.getPrivateKey account :=
    v ← gets self;
    if mv_open v then k ← newKey (mv_key v); mret (k, None)
    else k ← newKey emptyKey; mret (k, Some ErrWalletClosed);
  VaultWallet.store k := mret (0%N, Some ErrNotSupported)
|}.

Definition key17 : PrivateKey :=
  {| X := None; Y := None; D := Some {| neg := false; abs := [17] |} |}.


(** A [vaultWallet] with an open service and one account. *)
Definition openVaultWallet : Proc Transaction (VaultWallet.vaultWallet memoryVault) :=
  {| self := {| VaultWallet.vault := {| mv_open := true; mv_key := key17 |};
                VaultWallet.url := {| Scheme := "http"; Path := "vault:8200" |};
                VaultWallet.updateFeed := Some 0%nat;
                VaultWallet.stateLock := unlocked;
                VaultWallet.accounts := [account1] |};
     world := world0 |}.

End Demo.

(** Stand-ins for the library functions of [Library], for examples: a Vault
    that is initialised and unsealed, one fixed generated key. *)
Module DemoLibrary.

#[local] Instance library : Library Demo.Transaction := {|
  api_Health history c := (Some {| Initialized := true; Sealed := false |}, None);
  ecdsa_GenerateKey history := inl Demo.key17;
  PubkeyToAddress key := 10%N;
  AddressHex a := "0x0a";
  FromECDSA key := [Byte.x11]
|}.

(** A second service stand-in whose [close] fails. *)
Record stuckVault := { sv_accounts : list Account }.

#[local] Instance stuckService : VaultWallet.VaultService Demo.Transaction stuckVault := {|
  VaultWallet.status := mret ("stuck", None);
  VaultWallet.open := mret (Some (ErrLibrary "service" "cannot open"));
  VaultWallet.isOpen := mret false;
  VaultWallet.close := mret (Some (ErrLibrary "service" "cannot close"));
  VaultWallet.getAccounts :=
    v ← gets self;
    mret (sv_accounts v, [ErrLibrary "service" "one secret is missing"]);
  VaultWallet.getPrivateKey account :=
    k ← newKey emptyKey; mret (k, Some ErrWalletClosed);
  VaultWallet.store k := mret (0%N, Some ErrNotSupported)
|}.

Definition stuckWallet : Proc Demo.Transaction (VaultWallet.vaultWallet stuckVault) :=
  {| self := {| VaultWallet.vault := {| sv_accounts := [Demo.account1] |};
                VaultWallet.url := {| Scheme := "http"; Path := "vault:8200" |};
                VaultWallet.updateFeed := Some 0%nat;
                VaultWallet.stateLock := unlocked;
                VaultWallet.accounts := [] |};
     world := Demo.world0 |}.

End DemoLibrary.

(** * Vocabulary of the properties *)

Section Effects.

Context {Transaction : Type} {W : Type}.

(** The process after [emit e]. *)
Definition logged (e : event Transaction) (p : Proc Transaction W)
  : Proc Transaction W :=
  {| self := self p;
     world := {| environ := environ (world p); keys := keys (world p);
                 clients := clients (world p);
                 trace := trace (world p) ++ [e] |} |}.

(** The process after [newKey k]. *)
Definition withKey (k : PrivateKey) (p : Proc Transaction W)
  : Proc Transaction W :=
  {| self := self p;
     world := {| environ := environ (world p); keys := keys (world p) ++ [k];
                 clients := clients (world p); trace := trace (world p) |} |}.

(** What a call added to the trace. *)
Definition added (before after : Proc Transaction W) : list (event Transaction) :=
  drop (length (trace (world before))) (trace (world after)).

End Effects.

(** The lines written to standard output, in order. *)
Definition stdoutOf {Transaction : Type} (t : list (event Transaction))
  : list string :=
  omap (fun e => match e with Stdout s => Some s | _ => None end) t.

(** The signers handed to [types.SignTx], in order. *)
Definition signersUsed {Transaction : Type} (t : list (event Transaction))
  : list Signer :=
  omap (fun e => match e with TypesSignTx _ s _ => Some s | _ => None end) t.

(** The request [toRequestData] builds for a descriptor it accepts. *)
Definition requestPath (sd : SecretData) : string :=
  SecretEngine sd +:+ "/data/" +:+ Name sd.

Definition requestQuery (sd : SecretData) : gmap string (list string) :=
  {[ "version" := [Itoa (Version sd)] ]}.

(** The line [getPrivateKey] prints for the stored string [pk]. *)
Definition keyLine {Transaction : Type} (pk : string) : event Transaction :=
  Stdout ("Private key: " +:+ pk +:+ newline).

Section KeyVocabulary.

Context {Transaction : Type} `{!Externals Transaction} {W : Type}.

(** A key after [zeroKey]. *)
Definition zeroedKey (key : PrivateKey) : PrivateKey :=
  {| X := X key; Y := Y key;
     D := (fun d => {| neg := neg d; abs := zeroWords (abs d) |}) <$> D key |}.

(** Every word of the private number [D], when there is one, is zero. *)
Definition zeroed (key : PrivateKey) : Prop :=
  forall d, D key = Some d -> Forall (fun w => w = 0) (abs d).

(** Every key allocated at index [n] or later holds only zero words. *)
Definition keys_zeroed_from (n : nat) (w : World Transaction) : Prop :=
  forall k key, (n <= k)%nat -> keys w !! k = Some key -> zeroed key.

(** The process after the key at [k] was overwritten by [key]. *)
Definition withKeyAt (k : nat) (key : PrivateKey) (p : Proc Transaction W)
  : Proc Transaction W :=
  {| self := self p;
     world := {| environ := environ (world p);
                 keys := <[k := key]> (keys (world p));
                 clients := clients (world p); trace := trace (world p) |} |}.

(** The receiver of [p] in the world of [q]. *)
Definition back_in (p q : Proc Transaction W) : Proc Transaction W :=
  {| self := self p; world := world q |}.

(** A logged call of a library function on the key at [k]. *)
Definition keyCall {A} (E : PrivateKey -> event Transaction)
    (F : PrivateKey -> call A) (k : nat) : M (Proc Transaction W) A :=
  key ← deref keys k;
  emit (E key);;
  extcall (F key).

(** [defer zeroKey(key)] in front of such a call, in direct style. *)
Definition keyCallZeroed {A} (E : PrivateKey -> event Transaction)
    (F : PrivateKey -> call A) (k : nat) (p : Proc Transaction W)
  : outcome (Proc Transaction W) A :=
  match keys (world p) !! k with
  | None => Panic nilDeref p
  | Some key =>
      let p3 := logged (E key) p in
      match D key with
      | None => Panic nilDeref p3
      | Some _ =>
          let p4 := withKeyAt k (zeroedKey key) p3 in
          match F key with
          | Returns r => Ret r p4
          | Panics msg => Panic msg p4
          end
      end
  end.

End KeyVocabulary.

(** The scheme the specification names for a chain id and a privacy flag. *)
Definition signing_scheme (chainID : option Z) (private : bool) : Signer :=
  match chainID with
  | Some c => if private then HomesteadSigner else EIP155Signer c
  | None => HomesteadSigner
  end.

Section HashicorpVocabulary.

Context {Transaction : Type} `{!Externals Transaction}.

Import Hashicorp.

(** The wallet with one more reader on its lock. *)
Definition rlocked (p : Proc Transaction hashicorpWallet)
  : Proc Transaction hashicorpWallet :=
  {| self := set_stateLock
               {| readers := S (readers (stateLock (self p)));
                  writer := writer (stateLock (self p)) |} (self p);
     world := world p |}.

(** The code [SignHash] and [SignTx] share: [nilv] is the value returned
    next to an error, [body] signs with the key it is given. *)
Definition signing {A} (nilv : A)
    (body : nat -> M (Proc Transaction hashicorpWallet) (A * option error))
    (account : Account) : M (Proc Transaction hashicorpWallet) (A * option error) :=
  on_lock RLock;;
  with_defer (on_lock RUnlock)
    (hw ← gets self;
     if bool_decide (client hw = None) then mret (nilv, Some ErrWalletClosed)
     else
       match accountsSecretMap hw !! Address account with
       | None => mret (nilv, Some ErrUnknownAccount)
       | Some secretData =>
           '(key, err) ← getPrivateKey secretData;
           match err with
           | Some err => mret (nilv, Some err)
           | None => with_defer (zeroKey key) (body key)
           end
       end).

(** The same code in direct style, for a body that is a library call. *)
Definition signingOutcome {A} (nilv : A) (E : PrivateKey -> event Transaction)
    (F : PrivateKey -> call (A * option error)) (account : Account)
    (p : Proc Transaction hashicorpWallet)
  : outcome (Proc Transaction hashicorpWallet) (A * option error) :=
  if writer (stateLock (self p)) then Blocked p
  else if bool_decide (client (self p) = None)
  then Ret (nilv, Some ErrWalletClosed) p
  else
    match accountsSecretMap (self p) !! Address account with
    | None => Ret (nilv, Some ErrUnknownAccount) p
    | Some sd =>
        match getPrivateKey sd (rlocked p) with
        | Blocked p2 => Blocked p2
        | Panic msg p2 => Panic msg (back_in p p2)
        | Ret (k, Some err) p2 => Ret (nilv, Some err) (back_in p p2)
        | Ret (k, None) p2 =>
            match keyCallZeroed E F k p2 with
            | Ret r p4 => Ret r (back_in p p4)
            | Panic msg p4 => Panic msg (back_in p p4)
            | Blocked p4 => Blocked p4
            end
        end
    end.

End HashicorpVocabulary.

Section VaultVocabulary.

Context {Transaction : Type} `{!Externals Transaction}.
Context {V : Type} `{!VaultWallet.VaultService Transaction V}.

Import VaultWallet.

(** [Contains] without the locking around it. *)
Definition contains (account : Account) (w : vaultWallet V) : bool :=
  existsb
    (fun wltAcct =>
       bool_decide (Address wltAcct = Address account)
       && (bool_decide (Account_URL account = emptyURL)
           || bool_decide (Account_URL wltAcct = Account_URL account)))
    (accounts w).

(** The code [SignHash] and [SignTx] of [vault_wallet.go] share. *)
Definition vsigning {A} (nilv : A)
    (body : nat -> M (Proc Transaction (vaultWallet V)) (A * option error))
    (account : Account) : M (Proc Transaction (vaultWallet V)) (A * option error) :=
  c ← Contains account;
  if negb c then mret (nilv, Some ErrUnknownAccount)
  else
    '(key, err) ← on_vault (getPrivateKey account);
    match err with
    | Some err => mret (nilv, Some err)
    | None => with_defer (zeroKey key) (body key)
    end.

(** The same code in direct style, for a body that is a library call. *)
Definition vsigningOutcome {A} (nilv : A) (E : PrivateKey -> event Transaction)
    (F : PrivateKey -> call (A * option error)) (account : Account)
    (p : Proc Transaction (vaultWallet V))
  : outcome (Proc Transaction (vaultWallet V)) (A * option error) :=
  if writer (stateLock (self p)) then Blocked p
  else if negb (contains account (self p))
  then Ret (nilv, Some ErrUnknownAccount) p
  else
    match on_vault (getPrivateKey account) p with
    | Blocked p2 => Blocked p2
    | Panic msg p2 => Panic msg p2
    | Ret (k, Some err) p2 => Ret (nilv, Some err) p2
    | Ret (k, None) p2 => keyCallZeroed E F k p2
    end.

End VaultVocabulary.

Section RefreshVocabulary.

Context {Transaction : Type} `{!Externals Transaction}.

Import Hashicorp.

(** [resolves p sds accts q]: starting in [p], [getAccount] resolves the
    descriptors [sds] one after the other without error, to the accounts
    [accts], and leaves the process in [q]. *)
Inductive resolves : Proc Transaction hashicorpWallet -> list SecretData
                     -> list Account -> Proc Transaction hashicorpWallet -> Prop :=
| resolves_nil p : resolves p [] [] p
| resolves_cons p p1 p2 sd sds acct accts :
    getAccount sd p = Ret (acct, None) p1 ->
    resolves p1 sds accts p2 ->
    resolves p (sd :: sds) (acct :: accts) p2.

(** The slice after [accts[i] = acct] for the accounts [new], from index
    [i] on. *)
Fixpoint place (i : nat) (new accts : list Account) : list Account :=
  match new with
  | [] => accts
  | a :: rest => place (S i) rest (<[i := a]> accts)
  end.

(** The map after [m[acct.Address] = secret] for the accounts [new] and
    their descriptors, in order. *)
Fixpoint indexAll (new : list Account) (sds : list SecretData)
    (m : gmap address SecretData) : gmap address SecretData :=
  match new, sds with
  | a :: rest, sd :: sds' => indexAll rest sds' (<[Address a := sd]> m)
  | _, _ => m
  end.

End RefreshVocabulary.

Section OpenVocabulary.

Context {Transaction : Type}.

Import Hashicorp.

(** The client [Open] works with once its address is set. *)
Definition addressed (c0 : api_Client) (p : Proc Transaction hashicorpWallet) : api_Client :=
  {| addr := Url (clientData (self p)); token := token c0 |}.

(** The login request of the Approle exchange. *)
Definition loginPath (p : Proc Transaction hashicorpWallet) : string :=
  "auth/" +:+ default "approle" (environ (world p) !! vaultApprolePath) +:+ "/login".

Definition loginData (roleId secretId : string) : gmap string value :=
  {[ "role_id" := VString roleId; "secret_id" := VString secretId ]}.

End OpenVocabulary.

(** * Vocabulary of the further properties *)

(** [strings.Join] *)
Fixpoint Join (l : list string) (sep : string) : string :=
  match l with
  | [] => EmptyString
  | x :: rest =>
      match rest with
      | [] => x
      | _ :: _ => x +:+ sep +:+ Join rest sep
      end
  end.

(** The string [getAccount] parses into the locator of an account. *)
Definition accountLocator (url : string) (sd : SecretData) : string :=
  url +:+ "/v1/" +:+ requestPath sd +:+ "?version=" +:+ Itoa (Version sd).

(** The account list and the account-to-secret index name the same
    addresses. *)
Definition consistent (hw : Hashicorp.hashicorpWallet) : Prop :=
  forall a, is_Some (Hashicorp.accountsSecretMap hw !! a)
            <-> a ∈ (Address <$> Hashicorp.accounts hw).

(** The read requests [refreshAccounts] sends for a list of descriptors. *)
Definition readsFor {Transaction : Type} (cl : api_Client) (sds : list SecretData)
  : list (event Transaction) :=
  (fun sd => VaultRead cl (requestPath sd) (requestQuery sd)) <$> sds.

(** [Contains] of [hashicorp_wallet.go] without the locking around it. *)
Definition hcontains (account : Account) (hw : Hashicorp.hashicorpWallet) : bool :=
  existsb
    (fun acct =>
       bool_decide (Address acct = Address account)
       && (bool_decide (emptyURL = Account_URL account)
           || bool_decide (Account_URL acct = Account_URL account)))
    (Hashicorp.accounts hw).

(** The events of a trace that announce a wallet on a feed. *)
Definition feedEvents {Transaction : Type} (t : list (event Transaction))
  : list (nat * URL * WalletEventType) :=
  omap (fun e => match e with FeedSend f u k => Some (f, u, k) | _ => None end) t.

(** The process after the events [l]. *)
Definition traced {Transaction W : Type} (l : list (event Transaction))
    (p : Proc Transaction W) : Proc Transaction W :=
  {| self := self p;
     world := {| environ := environ (world p); keys := keys (world p);
                 clients := clients (world p);
                 trace := trace (world p) ++ l |} |}.

(** The wallet the backend builds for a configuration. *)
Definition builtWallet (feed : nat) (hc : Backend.HashicorpConfig)
  : Hashicorp.hashicorpWallet :=
  fst (Hashicorp.NewHashicorpWallet (Backend.Client hc) (Backend.Secrets hc)
         (Some feed)).

(** The warnings the backend logs: one for each configuration whose URL
    [parseURL] rejects. *)
Definition warningsFor {Transaction : Type} (configs : list Backend.HashicorpConfig)
  : list (event Transaction) :=
  omap (fun hc =>
          (fun err => LogWarn "Unable to create Hashicorp wallet" (Some err))
            <$> snd (parseURL (Url (Backend.Client hc))))
       configs.

(** The arrival events for a list of wallets. *)
Definition arrivals {Transaction : Type} (feed : nat)
    (ws : list Hashicorp.hashicorpWallet) : list (event Transaction) :=
  (fun w => FeedSend feed (Hashicorp.url w) WalletArrived) <$> ws.

(** [addrHex] of [storeKey]: the address without a leading ["0x"]. *)
Definition without0x (s : string) : string :=
  if HasPrefix s "0x" then dropBytes 2 s else s.

(** The payload [storeKey] writes for the descriptor [s]. *)
Definition storedData (s : SecretData) (addrHex keyHex : string)
  : gmap string value :=
  <["data" := VMap (<[KeyID s := VString keyHex]>
                      (<[AccountID s := VString addrHex]> ∅))]> ∅.

Section VaultVocabulary2.

Context {Transaction : Type} {V : Type}.

(** The wallet of [vault_wallet.go] with another account list. *)
Definition withAccounts (accts : list Account)
    (q : Proc Transaction (VaultWallet.vaultWallet V))
  : Proc Transaction (VaultWallet.vaultWallet V) :=
  {| self := {| VaultWallet.vault := VaultWallet.vault (self q);
                VaultWallet.url := VaultWallet.url (self q);
                VaultWallet.updateFeed := VaultWallet.updateFeed (self q);
                VaultWallet.stateLock := VaultWallet.stateLock (self q);
                VaultWallet.accounts := accts |};
     world := world q |}.

(** The warnings [Accounts] logs for the errors of the service. *)
Definition accountWarnings (errs : list error) : list (event Transaction) :=
  (fun err => LogWarn "Error getting account from vault" (Some err)) <$> errs.

End VaultVocabulary2.

Section StoreVocabulary.

Context {Transaction : Type} `{!Externals Transaction} `{!Library Transaction}.

(** How a call that started in the world [w] leaves a wallet that it did
    not get open: no client, the answer "Closed", the keys of [w], and no
    request sent but, at most, the login of the Approle exchange. *)
Definition leftClosed (w : World Transaction)
    (p' : Proc Transaction Hashicorp.hashicorpWallet) : Prop :=
  Hashicorp.client (self p') = None
  /\ Hashicorp.Status p' = Ret (Hashicorp.walletClosed, None) p'
  /\ keys (world p') = keys w
  /\ (trace (world p') = trace w
      \/ exists cl roleId secretId,
           trace (world p')
           = trace w ++ [VaultWrite cl (loginPath p') (loginData roleId secretId)]).

End StoreVocabulary.

(** * Properties *)

(** Unfolds the monad and the basic effects. *)
Ltac unfold_run :=
  unfold mbind, M_bind, mret, M_ret, with_defer, gets, modify, on_self,
    on_world, emit, newKey, storeKeyAt, newClient, storeClientAt, deref,
    LookupEnv, panic, block, extcall, logged, withKey in *.

#[local] Existing Instance Demo.externals.
#[local] Existing Instance Demo.memoryService.

(** ** Library stand-ins on examples *)

Example Itoa_12 : Itoa 12 = "12".
Proof. reflexivity. Qed.
Example Itoa_0 : Itoa 0 = "0".
Proof. reflexivity. Qed.
Example Split_url : Split "http://vault:8200" "://" = ["http"; "vault:8200"].
Proof. reflexivity. Qed.
Example Split_none : Split "nourl" "://" = ["nourl"].
Proof. reflexivity. Qed.
Example Split_twice : Split "a://b://c" "://" = ["a"; "b"; "c"].
Proof. reflexivity. Qed.
Example parseURL_ok :
  parseURL "http://vault:8200" = ({| Scheme := "http"; Path := "vault:8200" |}, None).
Proof. reflexivity. Qed.
Example parseURL_missing :
  parseURL "vault:8200" = (emptyURL, Some (errorString "protocol scheme missing")).
Proof. reflexivity. Qed.
Example parseURL_empty_scheme :
  parseURL "://vault" = (emptyURL, Some (errorString "protocol scheme missing")).
Proof. reflexivity. Qed.
Example zeroWords_3 : zeroWords [5; 0; 9] = [0; 0; 0].
Proof. reflexivity. Qed.

(** ** The basic effects *)

Lemma emit_eq {Transaction W} e (p : Proc Transaction W) :
  emit e p = Ret tt (logged e p).
Proof. reflexivity. Qed.

Lemma newKey_eq {Transaction W} k (p : Proc Transaction W) :
  newKey k p = Ret (length (keys (world p))) (withKey k p).
Proof. reflexivity. Qed.

(** ** Key retrieval in [hashicorp_wallet.go], in direct style *)

Lemma toRequestData_ok sd :
  (Version sd <? 0) = false ->
  toRequestData sd = (requestPath sd, requestQuery sd, None).
Proof. intros H. unfold toRequestData. rewrite H. reflexivity. Qed.

Lemma toRequestData_negative sd :
  (Version sd <? 0) = true -> toRequestData sd = ("", ∅, Some versionError).
Proof. intros H. unfold toRequestData. rewrite H. reflexivity. Qed.

Section HashicorpFacts.

Context {Transaction : Type} `{!Externals Transaction}.

Import Hashicorp.

Abbreviation HW := (Proc Transaction hashicorpWallet).

Lemma read_eq path query (p : HW) :
  read path query p =
  if writer (stateLock (self p)) then Blocked p
  else match client (self p) with
       | None => Panic nilDeref p
       | Some c =>
           match clients (world p) !! c with
           | None => Panic nilDeref p
           | Some cl =>
               Ret (api_ReadWithData (trace (world p)) cl path query)
                   (logged (VaultRead cl path query) p)
           end
       end.
Proof.
  destruct p as [hw w]; destruct hw as [[n wr] ? ? ? ? ? cl ? ?].
  unfold read, ReadWithData, on_lock, RLock, RUnlock. unfold_run. simpl.
  destruct wr; [reflexivity|]. simpl.
  destruct cl as [c|]; [|reflexivity]. simpl.
  destruct (clients w !! c); reflexivity.
Qed.

Lemma getPrivateKey_eq sd (p : HW) :
  getPrivateKey sd p =
  let fresh := length (keys (world p)) in
  if Version sd <? 0 then Ret (fresh, Some versionError) (withKey emptyKey p)
  else if writer (stateLock (self p)) then Blocked p
  else match client (self p) with
       | None => Panic nilDeref p
       | Some c =>
           match clients (world p) !! c with
           | None => Panic nilDeref p
           | Some cl =>
               let p1 := logged (VaultRead cl (requestPath sd) (requestQuery sd)) p in
               match api_ReadWithData (trace (world p)) cl (requestPath sd)
                       (requestQuery sd) with
               | (_, Some err) => Ret (fresh, Some err) (withKey emptyKey p1)
               | (None, None) => Panic nilDeref p1
               | (Some secret, None) =>
                   match Data secret !! "data" with
                   | Some (VMap m) =>
                       match m !! KeyID sd with
                       | None => Ret (fresh, Some ErrUnknownAccount) (withKey emptyKey p1)
                       | Some (VString pk) =>
                           let p2 := logged (keyLine pk) p1 in
                           match HexToECDSA pk with
                           | inr err => Ret (fresh, Some err) (withKey emptyKey p2)
                           | inl key => Ret (fresh, None) (withKey key p2)
                           end
                       | Some _ => Panic "Not of type string" p1
                       end
                   | _ => Panic notAMap p1
                   end
               end
           end
       end.
Proof.
  unfold getPrivateKey.
  destruct (Version sd <? 0) eqn:Hv.
  - rewrite (toRequestData_negative _ Hv). reflexivity.
  - rewrite (toRequestData_ok _ Hv). cbv zeta.
    unfold mbind at 1. unfold M_bind. rewrite read_eq.
    destruct (writer (stateLock (self p))); [reflexivity|].
    destruct (client (self p)) as [c|]; [|reflexivity].
    destruct (clients (world p) !! c) as [cl|]; [|reflexivity].
    destruct (api_ReadWithData _ _ _ _) as [[secret|] [err|]]; try reflexivity.
    destruct (Data secret !! "data") as [[]|]; try reflexivity.
    destruct (m !! KeyID sd) as [[]|]; try reflexivity.
    unfold_run. simpl. destruct (HexToECDSA s); reflexivity.
Qed.

End HashicorpFacts.

(** ** Secret Locator *)

Example Itoa_negative : Itoa (-7) = "-7".
Proof. reflexivity. Qed.

(** [Itoa] writes a number that is not negative in base ten: one digit
    below ten, and otherwise the digits of [n / 10] followed by the digit
    of [n mod 10]. Different numbers give different strings. *)

Lemma string_app_assoc (a b c : string) : (a +:+ b) +:+ c = a +:+ (b +:+ c).
Proof.
  induction a as [|x a IH]; [reflexivity|].
  change (String x ((a +:+ b) +:+ c) = String x (a +:+ (b +:+ c))).
  rewrite IH. reflexivity.
Qed.

Lemma pretty_N_go_app (x : N) :
  forall s, pretty_N_go x s = pretty_N_go x "" +:+ s.
Proof.
  induction (N.lt_wf_0 x) as [x _ IH]; intros s.
  destruct (decide (x = 0%N)) as [->|Hx].
  - rewrite !pretty_N_go_0. reflexivity.
  - rewrite !(pretty_N_go_step x) by lia.
    assert (Hlt : (x `div` 10 < x)%N) by (apply N.div_lt; lia).
    rewrite (IH _ Hlt (String _ s)), (IH _ Hlt (String _ "")).
    rewrite string_app_assoc. reflexivity.
Qed.

Lemma Itoa_N (n : Z) : 0 <= n -> Itoa n = pretty (Z.to_N n).
Proof. intros Hn. destruct n as [|p|p]; [reflexivity|reflexivity|lia]. Qed.

Lemma pretty_N_digit (x : N) :
  (x < 10)%N -> pretty x = String (ascii_of_N (48 + x)) "".
Proof.
  intros Hx.
  assert (x = 0 \/ x = 1 \/ x = 2 \/ x = 3 \/ x = 4 \/ x = 5 \/ x = 6
          \/ x = 7 \/ x = 8 \/ x = 9)%N as Hc by lia.
  repeat (destruct Hc as [->|Hc]; [reflexivity|]). subst x. reflexivity.
Qed.

Lemma pretty_N_char_code (d : N) :
  (d < 10)%N -> pretty_N_char d = ascii_of_N (48 + d).
Proof.
  intros Hd.
  assert (d = 0 \/ d = 1 \/ d = 2 \/ d = 3 \/ d = 4 \/ d = 5 \/ d = 6
          \/ d = 7 \/ d = 8 \/ d = 9)%N as Hc by lia.
  repeat (destruct Hc as [->|Hc]; [reflexivity|]). subst d. reflexivity.
Qed.

Lemma pretty_N_tens (x : N) :
  (10 <= x)%N -> pretty x = pretty (x `div` 10)%N +:+ pretty (x `mod` 10)%N.
Proof.
  intros Hx. unfold pretty at 1 2. unfold pretty_N.
  assert (Hq : (1 <= x `div` 10)%N).
  { apply N.div_le_lower_bound; lia. }
  rewrite decide_False by lia. rewrite (decide_False (P := (x `div` 10 = 0)%N)) by lia.
  rewrite pretty_N_go_step by lia. rewrite pretty_N_go_app.
  f_equal.
  assert (Hm : (x `mod` 10 < 10)%N) by (apply N.mod_lt; lia).
  rewrite pretty_N_digit by exact Hm.
  rewrite pretty_N_char_code by exact Hm. reflexivity.
Qed.

Lemma Itoa_digit (n : Z) :
  0 <= n < 10 -> Itoa n = String (ascii_of_N (48 + Z.to_N n)) "".
Proof. intros Hn. rewrite Itoa_N by lia. apply pretty_N_digit. lia. Qed.

Lemma Itoa_tens (n : Z) :
  10 <= n -> Itoa n = Itoa (n / 10) +:+ Itoa (n mod 10).
Proof.
  intros Hn.
  assert (0 <= n / 10) by (apply Z.div_pos; lia).
  assert (0 <= n mod 10 < 10) by (apply Z.mod_pos_bound; lia).
  rewrite !Itoa_N by lia.
  rewrite Z2N.inj_div, Z2N.inj_mod by lia.
  apply pretty_N_tens. lia.
Qed.

Lemma Itoa_inj (a b : Z) : Itoa a = Itoa b -> a = b.
Proof. apply pretty_Z_inj. Qed.

Example toRequestData_acct1 :
  toRequestData (Demo.secret "acct1" 3)
  = ("secret/data/acct1", {[ "version" := ["3"] ]}, None).
Proof. reflexivity. Qed.

(** C9. [toRequestData] is a function of the descriptor alone (it takes no
    state and has no effect). For a version [>= 0] it returns the path
    [{SecretEngine}/data/{Name}], the query that maps ["version"] to the
    decimal string of the version, and no error. For a version [< 0] it
    returns the version error with the empty path and the empty query. The
    decimal string is one digit below ten and otherwise the string of
    [n / 10] followed by the digit of [n mod 10]. *)
Theorem toRequestData_spec (s : SecretData) :
  (0 <= Version s ->
   toRequestData s
   = (SecretEngine s +:+ "/data/" +:+ Name s,
      {[ "version" := [Itoa (Version s)] ]}, None))
  /\ (Version s < 0 -> toRequestData s = ("", ∅, Some versionError))
  /\ (forall n, 0 <= n < 10 -> Itoa n = String (ascii_of_N (48 + Z.to_N n)) "")
  /\ (forall n, 10 <= n -> Itoa n = Itoa (n / 10) +:+ Itoa (n mod 10)).
Proof.
  split; [|split; [|split]].
  - intros H. apply toRequestData_ok. lia.
  - intros H. apply toRequestData_negative. lia.
  - exact Itoa_digit.
  - exact Itoa_tens.
Qed.

Lemma toRequestData_spec_witness :
  toRequestData (Demo.secret "acct1" 0)
  = ("secret/data/acct1", {[ "version" := ["0"] ]}, None)
  /\ toRequestData (Demo.secret "acct1" (-1)) = ("", ∅, Some versionError).
Proof.
  split.
  - apply (proj1 (toRequestData_spec (Demo.secret "acct1" 0))). simpl. lia.
  - apply (proj1 (proj2 (toRequestData_spec (Demo.secret "acct1" (-1))))). simpl. lia.
Defined.

(** ** Heaps: the last cell *)

Lemma insert_snoc {A} (l : list A) (x y : A) :
  <[length l := y]> (l ++ [x]) = l ++ [y].
Proof. rewrite insert_app_r_alt by lia. rewrite Nat.sub_diag. reflexivity. Qed.

Lemma lookup_snoc {A} (l : list A) (x : A) : (l ++ [x]) !! length l = Some x.
Proof. rewrite lookup_app_r by lia. rewrite Nat.sub_diag. reflexivity. Qed.

(** ** Zeroing *)

Lemma zeroWords_from (pre b : list Z) :
  foldl (fun b i => <[i := 0]> b) (pre ++ b) (seq (length pre) (length b))
  = pre ++ replicate (length b) 0.
Proof.
  revert pre. induction b as [|x b IH]; intros pre; [reflexivity|].
  simpl. rewrite insert_app_r_alt by lia. rewrite Nat.sub_diag. simpl.
  replace (pre ++ 0 :: b) with ((pre ++ [0]) ++ b) by (rewrite <- app_assoc; reflexivity).
  replace (S (length pre)) with (length (pre ++ [0])) by (rewrite length_app; simpl; lia).
  rewrite IH. rewrite <- app_assoc. reflexivity.
Qed.

Lemma zeroWords_replicate (b : list Z) : zeroWords b = replicate (length b) 0.
Proof. exact (zeroWords_from [] b). Qed.

Lemma zeroedKey_zeroed key : zeroed (zeroedKey key).
Proof.
  intros d Hd. unfold zeroedKey in Hd. simpl in Hd.
  destruct (D key) as [d0|]; simpl in Hd; [|discriminate].
  injection Hd as <-. simpl. rewrite zeroWords_replicate.
  apply Forall_forall. intros w Hw. apply elem_of_replicate in Hw. tauto.
Qed.

Lemma emptyKey_zeroed : zeroed emptyKey.
Proof. intros d Hd. discriminate. Qed.

Section SigningFacts.

Context {Transaction : Type} `{!Externals Transaction}.

Lemma keyCallZeroed_eq {W A} (E : PrivateKey -> event Transaction)
    (F : PrivateKey -> call A) k (p : Proc Transaction W) :
  with_defer (zeroKey k) (keyCall E F k) p = keyCallZeroed E F k p.
Proof.
  unfold keyCallZeroed, keyCall, zeroKey, withKeyAt, zeroedKey. unfold_run. simpl.
  destruct (keys (world p) !! k) as [key|] eqn:Hk; simpl; [|rewrite Hk; reflexivity].
  destruct (F key); simpl; rewrite Hk; destruct (D key); reflexivity.
Qed.

Lemma keyCallZeroed_frame {W A} (E : PrivateKey -> event Transaction)
    (F : PrivateKey -> call A) k (p : Proc Transaction W) :
  self (final (keyCallZeroed E F k p)) = self p
  /\ (forall q, keyCallZeroed E F k p <> Blocked q).
Proof.
  unfold keyCallZeroed.
  destruct (keys (world p) !! k) as [key|]; [|split; [reflexivity|discriminate]].
  destruct (D key); [|split; [reflexivity|discriminate]].
  destruct (F key); split; (reflexivity || discriminate).
Qed.

Import Hashicorp.

Abbreviation HW := (Proc Transaction hashicorpWallet).

Lemma getPrivateKey_frame sd (p : HW) :
  self (final (getPrivateKey sd p)) = self p
  /\ clients (world (final (getPrivateKey sd p))) = clients (world p)
  /\ environ (world (final (getPrivateKey sd p))) = environ (world p).
Proof.
  rewrite getPrivateKey_eq. cbv zeta.
  repeat case_match; simpl; auto.
Qed.

Lemma getPrivateKey_blocked sd (p q : HW) :
  getPrivateKey sd p = Blocked q -> writer (stateLock (self p)) = true.
Proof.
  rewrite getPrivateKey_eq. cbv zeta.
  repeat case_match; simpl; congruence.
Qed.

Lemma signing_eq {A} (nilv : A) E F account (p : HW) :
  signing nilv (keyCall E F) account p = signingOutcome nilv E F account p.
Proof.
  unfold signing, signingOutcome.
  destruct p as [hw w]; destruct hw as [[n wr] u cd ss accts m cl fd lg].
  unfold on_lock at 1. unfold RLock. simpl.
  destruct wr; [reflexivity|]. simpl.
  unfold mbind at 1. unfold M_bind at 1. unfold on_self at 1. unfold modify at 1.
  unfold with_defer at 1. unfold mbind at 1. unfold M_bind at 1.
  unfold gets at 1. cbn [self set_stateLock client accountsSecretMap].
  destruct cl as [c|]; simpl; [|reflexivity].
  destruct (m !! Address account) as [sd|]; [|reflexivity].
  unfold mbind at 1. unfold M_bind at 1. unfold rlocked. simpl.
  match goal with |- context [getPrivateKey sd ?q] => set (p1 := q) end.
  pose proof (getPrivateKey_frame sd p1) as (Hself & _ & _).
  pose proof (getPrivateKey_blocked sd p1) as Hblk.
  destruct (getPrivateKey sd p1) as [[k err] p2|msg p2|p2]; simpl in Hself.
  - destruct p2 as [hw2 w2]; simpl in Hself; subst hw2.
    destruct err as [err|]; [reflexivity|].
    rewrite keyCallZeroed_eq.
    destruct (keyCallZeroed_frame E F k {| self := self p1; world := w2 |}) as [Hs Hb].
    destruct (keyCallZeroed E F k _) as [r p4|msg p4|p4]; simpl in Hs.
    + destruct p4 as [hw4 w4]; simpl in Hs; subst hw4. reflexivity.
    + destruct p4 as [hw4 w4]; simpl in Hs; subst hw4. reflexivity.
    + exfalso. exact (Hb p4 eq_refl).
  - destruct p2 as [hw2 w2]; simpl in Hself; subst hw2. reflexivity.
  - specialize (Hblk p2 eq_refl). discriminate.
Qed.

Lemma SignHash_signing account hash :
  SignHash account hash
  = signing [] (keyCall (CryptoSign hash) (crypto_Sign hash)) account.
Proof. reflexivity. Qed.

Lemma SignTx_signing account tx chainID isQuorum :
  SignTx account tx chainID isQuorum
  = signing None
      (keyCall (TypesSignTx tx (signing_scheme chainID (IsPrivate tx)))
         (types_SignTx tx (signing_scheme chainID (IsPrivate tx))))
      account.
Proof.
  unfold SignTx, signing, signing_scheme, NewEIP155Signer.
  destruct chainID as [c|]; destruct (IsPrivate tx); reflexivity.
Qed.

End SigningFacts.

(** ** C1: keys are zeroed when a signing call ends *)

Section ZeroingFacts.

Context {Transaction : Type} `{!Externals Transaction}.

Import Hashicorp.

Abbreviation HW := (Proc Transaction hashicorpWallet).

Lemma keys_zeroed_from_same (w : World Transaction) :
  keys_zeroed_from (length (keys w)) w.
Proof.
  intros k key Hk Hl. apply lookup_lt_Some in Hl. lia.
Qed.

Lemma keys_zeroed_from_eq (w w' : World Transaction) :
  keys w' = keys w -> keys_zeroed_from (length (keys w)) w'.
Proof.
  intros Heq k key Hk Hl. rewrite Heq in Hl. apply lookup_lt_Some in Hl. lia.
Qed.

Lemma keys_zeroed_from_snoc (ks : list PrivateKey) key (w : World Transaction) :
  keys w = ks ++ [key] -> zeroed key -> keys_zeroed_from (length ks) w.
Proof.
  intros Hw Hz k key' Hk Hl. rewrite Hw in Hl.
  apply lookup_app_Some in Hl as [Hl|[_ Hl]].
  - apply lookup_lt_Some in Hl. lia.
  - destruct (k - length ks)%nat; simpl in Hl; [|discriminate].
    injection Hl as <-. exact Hz.
Qed.

(** What [getPrivateKey] does to the heap of keys: one key is allocated
    when it returns, the empty one next to an error. *)
Lemma getPrivateKey_keys sd (p : HW) :
  match getPrivateKey sd p with
  | Ret (k, err) q =>
      k = length (keys (world p))
      /\ exists key, keys (world q) = keys (world p) ++ [key]
                     /\ (err <> None -> key = emptyKey)
  | Panic _ q | Blocked q => keys (world q) = keys (world p)
  end.
Proof.
  rewrite getPrivateKey_eq. cbv zeta.
  repeat case_match; simplify_eq/=; try reflexivity;
    (split; [reflexivity|eexists; split; [reflexivity|]; intros; congruence]).
Qed.

Lemma zeroedKey_no_D key : D key = None -> zeroedKey key = key.
Proof. destruct key as [x y d]. simpl. intros ->. reflexivity. Qed.

Lemma keyCallZeroed_keys {W A} (E : PrivateKey -> event Transaction)
    (F : PrivateKey -> call A) k key (p : Proc Transaction W) :
  keys (world p) !! k = Some key ->
  keys (world (final (keyCallZeroed E F k p)))
  = <[k := zeroedKey key]> (keys (world p)).
Proof.
  intros Hk. unfold keyCallZeroed. rewrite Hk.
  destruct (D key) eqn:HD.
  - destruct (F key); reflexivity.
  - simpl. rewrite zeroedKey_no_D by assumption.
    symmetry. apply list_insert_id. exact Hk.
Qed.

Lemma signingOutcome_keys {A} (nilv : A) E F account (p : HW) :
  keys_zeroed_from (length (keys (world p)))
    (world (final (signingOutcome nilv E F account p))).
Proof.
  unfold signingOutcome.
  destruct (writer (stateLock (self p))); [apply keys_zeroed_from_same|].
  case_bool_decide; [apply keys_zeroed_from_same|].
  destruct (accountsSecretMap (self p) !! Address account) as [sd|];
    [|apply keys_zeroed_from_same].
  pose proof (getPrivateKey_keys sd (rlocked p)) as Hkeys.
  destruct (getPrivateKey sd (rlocked p)) as [[k err] p2|msg p2|p2];
    simpl in Hkeys.
  - destruct Hkeys as (-> & key & Hks & Hempty).
    destruct err as [err|].
    + simpl. eapply keys_zeroed_from_snoc; [exact Hks|].
      rewrite Hempty by discriminate. apply emptyKey_zeroed.
    + assert (Hk : keys (world p2) !! length (keys (world p)) = Some key).
      { rewrite Hks. rewrite lookup_app_r by lia.
        rewrite Nat.sub_diag. reflexivity. }
      pose proof (keyCallZeroed_keys E F _ _ p2 Hk) as Hfin.
      assert (Hgoal : keys_zeroed_from (length (keys (world p)))
                        (world (final (keyCallZeroed E F (length (keys (world p))) p2)))).
      { eapply (keys_zeroed_from_snoc (keys (world p)) (zeroedKey key)).
        - rewrite Hfin, Hks. rewrite insert_app_r_alt by lia.
          rewrite Nat.sub_diag. reflexivity.
        - apply zeroedKey_zeroed. }
      destruct (keyCallZeroed E F _ p2); exact Hgoal.
  - apply keys_zeroed_from_eq. exact Hkeys.
  - apply keys_zeroed_from_eq. exact Hkeys.
Qed.

Lemma signingOutcome_past_retrieval {A} (nilv : A) E F account (p p2 : HW) sd k :
  writer (stateLock (self p)) = false ->
  client (self p) <> None ->
  accountsSecretMap (self p) !! Address account = Some sd ->
  getPrivateKey sd (rlocked p) = Ret (k, None) p2 ->
  exists key,
    keys (world p2) !! k = Some key
    /\ signingOutcome nilv E F account p
       = match keyCallZeroed E F k p2 with
         | Ret r p4 => Ret r (back_in p p4)
         | Panic msg p4 => Panic msg (back_in p p4)
         | Blocked p4 => Blocked p4
         end
    /\ keys (world (final (signingOutcome nilv E F account p)))
       = keys (world p) ++ [zeroedKey key].
Proof.
  intros Hw Hc Hm Hget.
  pose proof (getPrivateKey_keys sd (rlocked p)) as Hkeys.
  rewrite Hget in Hkeys. destruct Hkeys as (-> & key & Hks & _).
  simpl in Hks.
  assert (Hk : keys (world p2) !! length (keys (world (rlocked p))) = Some key).
  { rewrite Hks. simpl. rewrite lookup_app_r by lia.
    rewrite Nat.sub_diag. reflexivity. }
  exists key. split; [exact Hk|].
  assert (Heq : signingOutcome nilv E F account p
       = match keyCallZeroed E F (length (keys (world (rlocked p)))) p2 with
         | Ret r p4 => Ret r (back_in p p4)
         | Panic msg p4 => Panic msg (back_in p p4)
         | Blocked p4 => Blocked p4
         end).
  { unfold signingOutcome. rewrite Hw. rewrite bool_decide_eq_false_2 by assumption.
    rewrite Hm, Hget. reflexivity. }
  split; [exact Heq|].
  rewrite Heq.
  pose proof (keyCallZeroed_keys E F _ _ p2 Hk) as Hfin.
  rewrite Hks in Hfin. simpl in Hfin.
  rewrite insert_app_r_alt in Hfin by lia. rewrite Nat.sub_diag in Hfin.
  simpl in Hfin.
  destruct (keyCallZeroed E F _ p2); exact Hfin.
Qed.

Lemma zeroedKey_words key d :
  D key = Some d ->
  D (zeroedKey key) = Some {| neg := neg d; abs := replicate (length (abs d)) 0 |}.
Proof.
  intros Hd. unfold zeroedKey. simpl. rewrite Hd. simpl.
  rewrite zeroWords_replicate. reflexivity.
Qed.

(** C1. When a call of [SignHash] or [SignTx] ends (by a return or by a panic
    of the signing function), every private key object the call created
    holds only zero words: the empty key that [getPrivateKey] returns next
    to an error has no private number, and the key it returns without an
    error is overwritten by the deferred [zeroKey]. In particular, when the
    call gets past key retrieval, the key obtained, with private number
    [d], is left in memory with as many words as [d], all of them zero,
    whether signing succeeded or failed. *)
Theorem signing_zeroes_key account hash tx chainID isQuorum (p : HW) :
  (keys_zeroed_from (length (keys (world p)))
     (world (final (SignHash account hash p)))
   /\ keys_zeroed_from (length (keys (world p)))
        (world (final (SignTx account tx chainID isQuorum p))))
  /\ (forall sd k p2,
        writer (stateLock (self p)) = false ->
        client (self p) <> None ->
        accountsSecretMap (self p) !! Address account = Some sd ->
        getPrivateKey sd (rlocked p) = Ret (k, None) p2 ->
        exists key,
          keys (world p2) !! k = Some key
          /\ keys (world (final (SignHash account hash p)))
             = keys (world p) ++ [zeroedKey key]
          /\ keys (world (final (SignTx account tx chainID isQuorum p)))
             = keys (world p) ++ [zeroedKey key]
          /\ forall d, D key = Some d ->
                D (zeroedKey key)
                = Some {| neg := neg d; abs := replicate (length (abs d)) 0 |}).
Proof.
  rewrite SignHash_signing, SignTx_signing, !signing_eq.
  split; [split; apply signingOutcome_keys|].
  intros sd k p2 Hw Hc Hm Hget.
  destruct (signingOutcome_past_retrieval [] (CryptoSign hash) (crypto_Sign hash)
              account p p2 sd k Hw Hc Hm Hget) as (key & Hk & _ & Hh).
  destruct (signingOutcome_past_retrieval None
              (TypesSignTx tx (signing_scheme chainID (IsPrivate tx)))
              (types_SignTx tx (signing_scheme chainID (IsPrivate tx)))
              account p p2 sd k Hw Hc Hm Hget) as (key' & Hk' & _ & Ht).
  assert (key' = key) as -> by congruence.
  exists key. repeat split; try assumption.
  apply zeroedKey_words.
Qed.

End ZeroingFacts.

Lemma signing_zeroes_key_witness :
  exists key,
    keys (world (final (Hashicorp.getPrivateKey (Demo.secret "acct1" 1)
                          (rlocked (Demo.opened [Demo.secret "acct1" 1])))))
      !! 0%nat = Some key
    /\ keys (world (final (Hashicorp.SignHash
                             Demo.account1
                             Demo.hash32 (Demo.opened [Demo.secret "acct1" 1]))))
       = [] ++ [zeroedKey key]
    /\ keys (world (final (Hashicorp.SignTx
                             Demo.account1
                             Demo.tx1 (Some 1) true
                             (Demo.opened [Demo.secret "acct1" 1]))))
       = [] ++ [zeroedKey key]
    /\ forall d, D key = Some d ->
          D (zeroedKey key)
          = Some {| neg := neg d; abs := replicate (length (abs d)) 0 |}.
Proof.
  refine (proj2 (signing_zeroes_key Demo.account1
                   Demo.hash32 Demo.tx1 (Some 1) true
                   (Demo.opened [Demo.secret "acct1" 1]))
            (Demo.secret "acct1" 1) 0%nat _ _ _ _ _).
  - vm_compute. reflexivity.
  - vm_compute. discriminate.
  - vm_compute. reflexivity.
  - vm_compute. reflexivity.
Defined.

Example SignHash_leaves_zero_words :
  keys (world (final (Hashicorp.SignHash
                        Demo.account1
                        Demo.hash32 (Demo.opened [Demo.secret "acct1" 1]))))
  = [{| X := None; Y := None; D := Some {| neg := false; abs := [0] |} |}].
Proof. vm_compute. reflexivity. Qed.

Example getPrivateKey_allocates_words :
  keys (world (final (Hashicorp.getPrivateKey (Demo.secret "acct1" 1)
                        (Demo.opened [Demo.secret "acct1" 1]))))
  = [{| X := None; Y := None; D := Some {| neg := false; abs := [17] |} |}].
Proof. vm_compute. reflexivity. Qed.

(** ** C7 and C4: what key retrieval prints, and when it panics *)

Lemma append_length (s1 s2 : string) :
  String.length (s1 +:+ s2) = (String.length s1 + String.length s2)%nat.
Proof. induction s1 as [|a s1 IH]; simpl; [reflexivity|]. rewrite IH. reflexivity. Qed.

Lemma append_inv_tail (s1 s2 t : string) : s1 +:+ t = s2 +:+ t -> s1 = s2.
Proof.
  revert s2. induction s1 as [|a s1 IH]; intros [|b s2] H; simpl in H.
  - reflexivity.
  - apply (f_equal String.length) in H.
    rewrite !append_length in H. simpl in H. lia.
  - apply (f_equal String.length) in H.
    rewrite !append_length in H. simpl in H. lia.
  - injection H as -> H. f_equal. apply IH. exact H.
Qed.

Lemma keyLine_inj {Transaction : Type} (pk1 pk2 : string) :
  @keyLine Transaction pk1 = keyLine pk2 -> pk1 = pk2.
Proof.
  unfold keyLine. intros H. injection H as H.
  apply (append_inv_tail _ _ newline). exact H.
Qed.

Section RetrievalClaims.

Context {Transaction : Type} `{!Externals Transaction}.

Import Hashicorp.

Abbreviation HW := (Proc Transaction hashicorpWallet).

(** A successful retrieval, taken apart. *)
Lemma getPrivateKey_success sd (p p2 : HW) k :
  getPrivateKey sd p = Ret (k, None) p2 ->
  exists c cl secret m pk key,
    client (self p) = Some c
    /\ clients (world p) !! c = Some cl
    /\ api_ReadWithData (trace (world p)) cl (requestPath sd) (requestQuery sd)
       = (Some secret, None)
    /\ Data secret !! "data" = Some (VMap m)
    /\ m !! KeyID sd = Some (VString pk)
    /\ HexToECDSA pk = inl key
    /\ k = length (keys (world p))
    /\ p2 = withKey key
              (logged (keyLine pk)
                 (logged (VaultRead cl (requestPath sd) (requestQuery sd)) p)).
Proof.
  rewrite getPrivateKey_eq. cbv zeta. intros H.
  repeat case_match; simplify_eq/=.
  eexists _, _, _, _, _, _. repeat split; eauto.
Qed.

(** C7. Every retrieval of a private key that succeeds appends to the
    process's standard output the line ["Private key: "] followed by the
    very string stored in the key field of the secret, the hexadecimal
    string from which the returned key is parsed; the line determines that
    string. So every [SignHash] and [SignTx] call that gets past key
    retrieval leaves this line on standard output, before the record of the
    signing call that uses the key. *)
Theorem getPrivateKey_prints_key account hash tx chainID isQuorum (p : HW) :
  (forall sd k p2,
     getPrivateKey sd p = Ret (k, None) p2 ->
     exists cl secret m pk key,
       api_ReadWithData (trace (world p)) cl (requestPath sd) (requestQuery sd)
       = (Some secret, None)
       /\ Data secret !! "data" = Some (VMap m)
       /\ m !! KeyID sd = Some (VString pk)
       /\ HexToECDSA pk = inl key
       /\ keys (world p2) !! k = Some key
       /\ trace (world p2)
          = trace (world p)
            ++ [VaultRead cl (requestPath sd) (requestQuery sd);
                Stdout ("Private key: " +:+ pk +:+ newline)])
  /\ (forall sd k p2,
        writer (stateLock (self p)) = false ->
        client (self p) <> None ->
        accountsSecretMap (self p) !! Address account = Some sd ->
        getPrivateKey sd (rlocked p) = Ret (k, None) p2 ->
        exists cl pk key,
          HexToECDSA pk = inl key
          /\ trace (world (final (SignHash account hash p)))
             = trace (world p)
               ++ [VaultRead cl (requestPath sd) (requestQuery sd);
                   Stdout ("Private key: " +:+ pk +:+ newline);
                   CryptoSign hash key]
          /\ trace (world (final (SignTx account tx chainID isQuorum p)))
             = trace (world p)
               ++ [VaultRead cl (requestPath sd) (requestQuery sd);
                   Stdout ("Private key: " +:+ pk +:+ newline);
                   TypesSignTx tx (signing_scheme chainID (IsPrivate tx)) key])
  /\ (forall pk1 pk2 : string,
        Stdout (Transaction := Transaction) ("Private key: " +:+ pk1 +:+ newline)
        = Stdout ("Private key: " +:+ pk2 +:+ newline) ->
        pk1 = pk2).
Proof.
  split; [|split].
  - intros sd k p2 Hget.
    apply getPrivateKey_success in Hget
      as (c & cl & secret & m & pk & key & _ & _ & Hr & Hd & Hm & Hk & -> & ->).
    exists cl, secret, m, pk, key. repeat split; try assumption.
    + simpl. rewrite lookup_app_r by lia. rewrite Nat.sub_diag. reflexivity.
    + simpl. rewrite <- app_assoc. reflexivity.
  - intros sd k p2 Hw Hc Hm Hget.
    rewrite SignHash_signing, SignTx_signing, !signing_eq.
    destruct (signingOutcome_past_retrieval [] (CryptoSign hash) (crypto_Sign hash)
                account p p2 sd k Hw Hc Hm Hget) as (key & Hk & Hh & _).
    destruct (signingOutcome_past_retrieval None
                (TypesSignTx tx (signing_scheme chainID (IsPrivate tx)))
                (types_SignTx tx (signing_scheme chainID (IsPrivate tx)))
                account p p2 sd k Hw Hc Hm Hget) as (key' & Hk' & Ht & _).
    assert (key' = key) as -> by congruence.
    rewrite Hh, Ht. clear Hh Ht.
    apply getPrivateKey_success in Hget
      as (c & cl & secret & m & pk & key0 & _ & _ & Hr & Hd & Hmk & Hpk & -> & ->).
    assert (key0 = key) as ->.
    { simpl in Hk. rewrite lookup_app_r in Hk by lia.
      rewrite Nat.sub_diag in Hk. simpl in Hk. congruence. }
    exists cl, pk, key. split; [assumption|].
    unfold keyCallZeroed. rewrite Hk.
    split.
    + destruct (D key); [destruct (crypto_Sign hash key)|]; simpl;
        rewrite <- !app_assoc; reflexivity.
    + destruct (D key); [destruct (types_SignTx _ _ key)|]; simpl;
        rewrite <- !app_assoc; reflexivity.
  - intros pk1 pk2 H. exact (keyLine_inj pk1 pk2 H).
Qed.

(** The key field holds something that is not a string: a panic. *)
Lemma getPrivateKey_not_string sd (p : HW) c cl secret m v :
  (Version sd <? 0) = false ->
  writer (stateLock (self p)) = false ->
  client (self p) = Some c ->
  clients (world p) !! c = Some cl ->
  api_ReadWithData (trace (world p)) cl (requestPath sd) (requestQuery sd)
  = (Some secret, None) ->
  Data secret !! "data" = Some (VMap m) ->
  m !! KeyID sd = Some v ->
  (forall s, v <> VString s) ->
  getPrivateKey sd p
  = Panic "Not of type string"
      (logged (VaultRead cl (requestPath sd) (requestQuery sd)) p).
Proof.
  intros Hv Hw Hc Hcl Hr Hd Hm Hns.
  rewrite getPrivateKey_eq. cbv zeta. rewrite Hv, Hw, Hc, Hcl, Hr, Hd, Hm.
  destruct v; try reflexivity. exfalso. exact (Hns s eq_refl).
Qed.

(** The key field holds a string that is not a key: the parse error. *)
Lemma getPrivateKey_malformed sd (p : HW) c cl secret m pk err :
  (Version sd <? 0) = false ->
  writer (stateLock (self p)) = false ->
  client (self p) = Some c ->
  clients (world p) !! c = Some cl ->
  api_ReadWithData (trace (world p)) cl (requestPath sd) (requestQuery sd)
  = (Some secret, None) ->
  Data secret !! "data" = Some (VMap m) ->
  m !! KeyID sd = Some (VString pk) ->
  HexToECDSA pk = inr err ->
  exists p2, getPrivateKey sd p = Ret (length (keys (world p)), Some err) p2.
Proof.
  intros Hv Hw Hc Hcl Hr Hd Hm Hp.
  rewrite getPrivateKey_eq. cbv zeta. rewrite Hv, Hw, Hc, Hcl, Hr, Hd, Hm, Hp.
  eexists. reflexivity.
Qed.

End RetrievalClaims.

Lemma getPrivateKey_prints_key_witness :
  exists cl pk key,
    HexToECDSA pk = inl key
    /\ trace (world (final (Hashicorp.SignHash Demo.account1 Demo.hash32
                             (Demo.opened [Demo.secret "acct1" 1]))))
       = trace (world (Demo.opened [Demo.secret "acct1" 1]))
         ++ [VaultRead cl (requestPath (Demo.secret "acct1" 1))
               (requestQuery (Demo.secret "acct1" 1));
             Stdout ("Private key: " +:+ pk +:+ newline);
             CryptoSign Demo.hash32 key]
    /\ trace (world (final (Hashicorp.SignTx Demo.account1 Demo.tx1 (Some 1) true
                             (Demo.opened [Demo.secret "acct1" 1]))))
       = trace (world (Demo.opened [Demo.secret "acct1" 1]))
         ++ [VaultRead cl (requestPath (Demo.secret "acct1" 1))
               (requestQuery (Demo.secret "acct1" 1));
             Stdout ("Private key: " +:+ pk +:+ newline);
             TypesSignTx Demo.tx1 (signing_scheme (Some 1) (IsPrivate Demo.tx1)) key].
Proof.
  refine (proj1 (proj2 (getPrivateKey_prints_key Demo.account1 Demo.hash32
                          Demo.tx1 (Some 1) true
                          (Demo.opened [Demo.secret "acct1" 1])))
            (Demo.secret "acct1" 1) 0%nat _ _ _ _ _).
  - vm_compute. reflexivity.
  - vm_compute. discriminate.
  - vm_compute. reflexivity.
  - vm_compute. reflexivity.
Defined.

Example SignHash_stdout :
  stdoutOf
    (trace (world (final (Hashicorp.SignHash Demo.account1 Demo.hash32
                            (Demo.opened [Demo.secret "acct1" 1])))))
  = ["Private key: 11" +:+ newline].
Proof. vm_compute. reflexivity. Qed.

(** C4. The secret ["acct2"] stores the number 42 in its key field. Key
    retrieval for it does not return an error: it panics with
    ["Not of type string"]. *)
Theorem getPrivateKey_panics_on_non_string :
  Hashicorp.getPrivateKey (Demo.secret "acct2" 1)
    (Demo.opened [Demo.secret "acct1" 1])
  = Panic "Not of type string"
      (logged (VaultRead {| addr := "http://vault:8200"; token := "" |}
                 "secret/data/acct2" {[ "version" := ["1"] ]})
         (Demo.opened [Demo.secret "acct1" 1])).
Proof. vm_compute. reflexivity. Qed.

Example getPrivateKey_parse_error :
  exists p2,
    Hashicorp.getPrivateKey (Demo.secret "acct3" 1)
      (Demo.opened [Demo.secret "acct1" 1])
    = Ret (0%nat, Some (ErrLibrary "hex" "invalid byte")) p2.
Proof. eexists. vm_compute. reflexivity. Qed.

(** ** Signing in [vault_wallet.go], in direct style *)

Section VaultFacts.

Context {Transaction : Type} `{!Externals Transaction}.
Context {V : Type} `{!VaultWallet.VaultService Transaction V}.

Import VaultWallet.

Abbreviation VW := (Proc Transaction (vaultWallet V)).

Lemma Contains_eq account (p : VW) :
  Contains account p
  = if writer (stateLock (self p)) then Blocked p
    else Ret (contains account (self p)) p.
Proof.
  destruct p as [w wd]; destruct w as [v u f [n wr] accts].
  unfold Contains, on_lock, RLock, RUnlock, contains. unfold_run. simpl.
  destruct wr; reflexivity.
Qed.

Lemma vsigning_eq {A} (nilv : A) E F account (p : VW) :
  vsigning nilv (keyCall E F) account p = vsigningOutcome nilv E F account p.
Proof.
  unfold vsigning, vsigningOutcome.
  unfold mbind at 1. unfold M_bind at 1. rewrite Contains_eq.
  destruct (writer (stateLock (self p))); [reflexivity|].
  destruct (contains account (self p)); simpl; [|reflexivity].
  unfold mbind at 1. unfold M_bind at 1.
  destruct (on_vault (getPrivateKey account) p) as [[k [err|]] p2|msg p2|p2];
    try reflexivity.
  apply keyCallZeroed_eq.
Qed.

Lemma vault_SignHash_signing account hash :
  SignHash account hash
  = vsigning [] (keyCall (CryptoSign hash) (crypto_Sign hash)) account.
Proof. reflexivity. Qed.

Lemma vault_SignTx_signing account tx chainID isQuorum :
  SignTx account tx chainID isQuorum
  = vsigning None
      (keyCall (TypesSignTx tx (signing_scheme chainID (IsPrivate tx)))
         (types_SignTx tx (signing_scheme chainID (IsPrivate tx))))
      account.
Proof.
  unfold SignTx, vsigning, signing_scheme, NewEIP155Signer.
  destruct chainID as [c|]; destruct (IsPrivate tx); reflexivity.
Qed.

End VaultFacts.

(** ** C8: the signer handed to [types.SignTx] *)

Section SchemeFacts.

Context {Transaction : Type} `{!Externals Transaction}.
Context {V : Type} `{!VaultWallet.VaultService Transaction V}.

Abbreviation HW := (Proc Transaction Hashicorp.hashicorpWallet).
Abbreviation VW := (Proc Transaction (VaultWallet.vaultWallet V)).

Lemma added_app {W} (p q : Proc Transaction W) l :
  trace (world q) = trace (world p) ++ l -> added p q = l.
Proof. intros Heq. unfold added. rewrite Heq. apply drop_app_length. Qed.

Lemma getPrivateKey_trace sd (p : HW) :
  exists l,
    trace (world (final (Hashicorp.getPrivateKey sd p))) = trace (world p) ++ l
    /\ signersUsed l = [].
Proof.
  rewrite getPrivateKey_eq. cbv zeta.
  repeat case_match; simpl;
    first [ exists []; split; [symmetry; apply app_nil_r|reflexivity]
          | eexists; split; [rewrite <- ?app_assoc; reflexivity|reflexivity] ].
Qed.

Lemma keyCallZeroed_trace {W A} (E : PrivateKey -> event Transaction)
    (F : PrivateKey -> call A) k key (p : Proc Transaction W) :
  keys (world p) !! k = Some key ->
  trace (world (final (keyCallZeroed E F k p))) = trace (world p) ++ [E key].
Proof.
  intros Hk. unfold keyCallZeroed. rewrite Hk.
  destruct (D key); [destruct (F key)|]; reflexivity.
Qed.

Lemma signingOutcome_signers {A} (nilv : A) tx s F account (p : HW) :
  signersUsed (added p (final (signingOutcome nilv (TypesSignTx tx s) F account p)))
  = []
  \/ signersUsed (added p (final (signingOutcome nilv (TypesSignTx tx s) F account p)))
     = [s].
Proof.
  assert (Hsame : added p p = []).
  { apply added_app. symmetry. apply app_nil_r. }
  unfold signingOutcome.
  destruct (writer (Hashicorp.stateLock (self p))); [left; simpl; rewrite Hsame; reflexivity|].
  case_bool_decide; [left; simpl; rewrite Hsame; reflexivity|].
  destruct (Hashicorp.accountsSecretMap (self p) !! Address account) as [sd|];
    [|left; simpl; rewrite Hsame; reflexivity].
  destruct (getPrivateKey_trace sd (rlocked p)) as (l & Hl & Hs).
  pose proof (getPrivateKey_keys sd (rlocked p)) as Hkeys.
  destruct (Hashicorp.getPrivateKey sd (rlocked p)) as [[k err] p2|msg p2|p2];
    simpl in Hl, Hkeys.
  - destruct err as [err|].
    + left. simpl. rewrite (added_app p (back_in p p2) l Hl). exact Hs.
    + destruct Hkeys as (-> & key & Hks & _).
      assert (Hk : keys (world p2) !! length (keys (world p)) = Some key).
      { rewrite Hks. rewrite lookup_app_r by lia.
        rewrite Nat.sub_diag. reflexivity. }
      pose proof (keyCallZeroed_trace (TypesSignTx tx s) F _ _ p2 Hk) as Ht.
      rewrite Hl, <- app_assoc in Ht.
      right.
      assert (Hadd : forall q : HW,
                 trace (world q) = trace (world p) ++ l ++ [TypesSignTx tx s key] ->
                 signersUsed (added p q) = [s]).
      { intros q Hq. rewrite (added_app p q _ Hq).
        unfold signersUsed in *. rewrite omap_app, Hs. reflexivity. }
      destruct (keyCallZeroed _ F _ p2); simpl in *; apply Hadd; exact Ht.
  - left. simpl. rewrite (added_app p (back_in p p2) l Hl). exact Hs.
  - left. simpl. rewrite (added_app p p2 l Hl). exact Hs.
Qed.

(** C8. The signer [SignTx] hands to [types.SignTx] is
    [signing_scheme chainID (IsPrivate tx)]: the EIP155 signer of the chain
    id when a chain id is given and the transaction is not private, the
    Homestead signer in every other case. In [hashicorp_wallet.go] a call
    makes no signing call or exactly one with this signer, and exactly one
    when it gets past key retrieval; in [vault_wallet.go] a call that gets
    past key retrieval makes the signing call with this signer. *)
Theorem SignTx_scheme account tx chainID isQuorum (p : HW) (q : VW) :
  (signersUsed (added p (final (Hashicorp.SignTx account tx chainID isQuorum p))) = []
   \/ signersUsed (added p (final (Hashicorp.SignTx account tx chainID isQuorum p)))
      = [signing_scheme chainID (IsPrivate tx)])
  /\ (forall sd k p2,
        writer (Hashicorp.stateLock (self p)) = false ->
        Hashicorp.client (self p) <> None ->
        Hashicorp.accountsSecretMap (self p) !! Address account = Some sd ->
        Hashicorp.getPrivateKey sd (rlocked p) = Ret (k, None) p2 ->
        exists key,
          keys (world p2) !! k = Some key
          /\ trace (world (final (Hashicorp.SignTx account tx chainID isQuorum p)))
             = trace (world p2)
               ++ [TypesSignTx tx (signing_scheme chainID (IsPrivate tx)) key])
  /\ (forall k q2 key,
        writer (VaultWallet.stateLock (self q)) = false ->
        contains account (self q) = true ->
        VaultWallet.on_vault (VaultWallet.getPrivateKey account) q
        = Ret (k, None) q2 ->
        keys (world q2) !! k = Some key ->
        trace (world (final (VaultWallet.SignTx account tx chainID isQuorum q)))
        = trace (world q2)
          ++ [TypesSignTx tx (signing_scheme chainID (IsPrivate tx)) key])
  /\ (forall c, signing_scheme (Some c) false = EIP155Signer c)
  /\ (forall c, signing_scheme (Some c) true = HomesteadSigner)
  /\ (forall private, signing_scheme None private = HomesteadSigner).
Proof.
  split; [|split; [|split; [|repeat split]]].
  - rewrite SignTx_signing, signing_eq. apply signingOutcome_signers.
  - intros sd k p2 Hw Hc Hm Hget.
    rewrite SignTx_signing, signing_eq.
    destruct (signingOutcome_past_retrieval None
                (TypesSignTx tx (signing_scheme chainID (IsPrivate tx)))
                (types_SignTx tx (signing_scheme chainID (IsPrivate tx)))
                account p p2 sd k Hw Hc Hm Hget) as (key & Hk & Ht & _).
    exists key. split; [exact Hk|]. rewrite Ht.
    pose proof (keyCallZeroed_trace
                  (TypesSignTx tx (signing_scheme chainID (IsPrivate tx)))
                  (types_SignTx tx (signing_scheme chainID (IsPrivate tx)))
                  _ _ p2 Hk) as Htr.
    destruct (keyCallZeroed _ _ k p2); exact Htr.
  - intros k q2 key Hw Hc Hget Hk.
    rewrite vault_SignTx_signing, vsigning_eq. unfold vsigningOutcome.
    rewrite Hw, Hc, Hget. simpl.
    apply keyCallZeroed_trace. exact Hk.
Qed.

End SchemeFacts.

Lemma SignTx_scheme_witness :
  (exists key,
     keys (world (final (Hashicorp.getPrivateKey (Demo.secret "acct1" 1)
                           (rlocked (Demo.opened [Demo.secret "acct1" 1])))))
       !! 0%nat = Some key
     /\ trace (world (final (Hashicorp.SignTx Demo.account1 Demo.tx1 (Some 5) true
                              (Demo.opened [Demo.secret "acct1" 1]))))
        = trace (world (final (Hashicorp.getPrivateKey (Demo.secret "acct1" 1)
                                 (rlocked (Demo.opened [Demo.secret "acct1" 1])))))
          ++ [TypesSignTx Demo.tx1 (signing_scheme (Some 5) (IsPrivate Demo.tx1)) key])
  /\ trace (world (final (VaultWallet.SignTx Demo.account1 Demo.tx1 (Some 5) true
                           Demo.openVaultWallet)))
     = trace (world (final (VaultWallet.on_vault
                              (VaultWallet.getPrivateKey Demo.account1)
                              Demo.openVaultWallet)))
       ++ [TypesSignTx Demo.tx1 (signing_scheme (Some 5) (IsPrivate Demo.tx1))
             Demo.key17].
Proof.
  pose proof (SignTx_scheme Demo.account1 Demo.tx1 (Some 5) true
                (Demo.opened [Demo.secret "acct1" 1]) Demo.openVaultWallet)
    as (_ & Hh & Hv & _).
  split.
  - refine (Hh (Demo.secret "acct1" 1) 0%nat _ _ _ _ _).
    + vm_compute. reflexivity.
    + vm_compute. discriminate.
    + vm_compute. reflexivity.
    + vm_compute. reflexivity.
  - refine (Hv 0%nat _ Demo.key17 _ _ _ _).
    + vm_compute. reflexivity.
    + vm_compute. reflexivity.
    + vm_compute. reflexivity.
    + vm_compute. reflexivity.
Defined.

Example SignTx_chain_public :
  signersUsed (trace (world (final (Hashicorp.SignTx Demo.account1 (false, "t")
                                      (Some 5) true
                                      (Demo.opened [Demo.secret "acct1" 1])))))
  = [EIP155Signer 5].
Proof. vm_compute. reflexivity. Qed.

Example SignTx_chain_private :
  signersUsed (trace (world (final (Hashicorp.SignTx Demo.account1 (true, "t")
                                      (Some 5) true
                                      (Demo.opened [Demo.secret "acct1" 1])))))
  = [HomesteadSigner].
Proof. vm_compute. reflexivity. Qed.

Example SignTx_no_chain :
  signersUsed (trace (world (final (Hashicorp.SignTx Demo.account1 (false, "t")
                                      None true
                                      (Demo.opened [Demo.secret "acct1" 1])))))
  = [HomesteadSigner].
Proof. vm_compute. reflexivity. Qed.

(** ** C6: errors of the signing calls *)

Section SigningErrors.

Context {Transaction : Type} `{!Externals Transaction}.
Context {V : Type} `{!VaultWallet.VaultService Transaction V}.

Abbreviation HW := (Proc Transaction Hashicorp.hashicorpWallet).
Abbreviation VW := (Proc Transaction (VaultWallet.vaultWallet V)).




End SigningErrors.



(** On a closed [hashicorpWallet] the closed check comes first, also for an
    account that is not in the index. *)
Example closed_hashicorpWallet_unknown_account :
  Hashicorp.SignHash {| Address := 99%N; Account_URL := emptyURL |} Demo.hash32
    (Demo.closed [Demo.secret "acct1" 1])
  = Ret ([], Some ErrWalletClosed) (Demo.closed [Demo.secret "acct1" 1]).
Proof. vm_compute. reflexivity. Qed.

(** With the stand-in for [crypto.Sign], a hash that is not 32 bytes long
    makes signing fail for a present account with a valid key. *)
Example SignHash_short_hash :
  exists p',
    Hashicorp.SignHash Demo.account1 [Byte.x00]
      (Demo.opened [Demo.secret "acct1" 1])
    = Ret ([], Some (ErrLibrary "crypto" "hash is required to be exactly 32 bytes")) p'.
Proof. eexists. vm_compute. reflexivity. Qed.

(** ** C2: [refreshAccounts] and the first failure *)

Lemma place_app (pre new : list Account) (x : Account) :
  place (length pre) new (pre ++ replicate (length new) x) = pre ++ new.
Proof.
  revert pre. induction new as [|a new IH]; intros pre; simpl.
  - reflexivity.
  - rewrite insert_app_r_alt by lia. rewrite Nat.sub_diag. simpl.
    replace (pre ++ a :: replicate (length new) x)
      with ((pre ++ [a]) ++ replicate (length new) x)
      by (rewrite <- app_assoc; reflexivity).
    replace (S (length pre)) with (length (pre ++ [a]))
      by (rewrite length_app; simpl; lia).
    rewrite IH. rewrite <- app_assoc. reflexivity.
Qed.

Lemma place_replicate (new : list Account) (x : Account) :
  place 0 new (replicate (length new) x) = new.
Proof. exact (place_app [] new x). Qed.

Section RefreshFacts.

Context {Transaction : Type} `{!Externals Transaction}.

Import Hashicorp.

Abbreviation HW := (Proc Transaction hashicorpWallet).

Lemma getAccount_frame sd (p : HW) :
  self (final (getAccount sd p)) = self p.
Proof.
  unfold getAccount.
  destruct (toRequestData sd) as [[path query] [err|]]; [reflexivity|].
  unfold mbind at 1. unfold M_bind at 1. rewrite read_eq.
  destruct (writer (stateLock (self p))); [reflexivity|].
  destruct (client (self p)) as [c|]; [|reflexivity].
  destruct (clients (world p) !! c) as [cl|]; [|reflexivity].
  unfold_run.
  destruct (api_ReadWithData _ _ _ _) as [[secret|] [err|]]; try reflexivity.
  simpl. repeat case_match; reflexivity.
Qed.

Lemma resolves_frame (p q : HW) sds accts :
  resolves p sds accts q -> self q = self p /\ length accts = length sds.
Proof.
  induction 1 as [p|p p1 p2 sd sds acct accts Hget _ [IH1 IH2]].
  - split; reflexivity.
  - pose proof (getAccount_frame sd p) as Hf. rewrite Hget in Hf. simpl in Hf.
    split; [congruence|simpl; congruence].
Qed.

Lemma refreshLoop_fails (p p1 p2 : HW) pre sd post new acct err :
  resolves p pre new p1 ->
  getAccount sd p1 = Ret (acct, Some err) p2 ->
  forall i accts m,
    refreshLoop i (pre ++ sd :: post) accts m p
    = Ret (place i new accts, indexAll new pre m, Some err) p2.
Proof.
  intros Hres Hget.
  induction Hres as [p|p p1 p3 sd' sds a new Hget' _ IH]; intros i accts m; simpl.
  - unfold mbind, M_bind. rewrite Hget. reflexivity.
  - unfold mbind at 1. unfold M_bind at 1. rewrite Hget'.
    apply IH. exact Hget.
Qed.

Lemma refreshLoop_resolves (p p1 : HW) sds new :
  resolves p sds new p1 ->
  forall i accts m,
    refreshLoop i sds accts m p
    = Ret (place i new accts, indexAll new sds m, None) p1.
Proof.
  induction 1 as [p|p p1 p2 sd sds a new Hget _ IH]; intros i accts m; simpl.
  - reflexivity.
  - unfold mbind at 1. unfold M_bind at 1. rewrite Hget. apply IH.
Qed.

(** Every run of the loop either resolves all descriptors or ends with the
    wallet as it was. *)
Lemma refreshLoop_total sds :
  forall i accts m (p : HW),
    match refreshLoop i sds accts m p with
    | Ret (_, _, None) p1 => exists new, resolves p sds new p1
    | Ret (_, _, Some _) p1 | Panic _ p1 | Blocked p1 => self p1 = self p
    end.
Proof.
  induction sds as [|sd sds IH]; intros i accts m p; simpl.
  - exists []. constructor.
  - unfold mbind at 1. unfold M_bind at 1.
    pose proof (getAccount_frame sd p) as Hf.
    destruct (getAccount sd p) as [[acct [err|]] p1|msg p1|p1] eqn:Hget;
      simpl in Hf; try exact Hf.
    specialize (IH (S i) (<[i := acct]> accts) (<[Address acct := sd]> m) p1).
    destruct (refreshLoop _ sds _ _ p1) as [[[a' m'] [err|]] p2|msg p2|p2];
      try congruence.
    destruct IH as [new Hnew]. exists (acct :: new).
    econstructor; eassumption.
Qed.

Lemma refreshAccounts_eq (p : HW) :
  refreshAccounts p
  = match refreshLoop 0 (secrets (self p))
            (replicate (length (secrets (self p))) emptyAccount) ∅ p with
    | Ret (_, _, Some err) p1 => Ret (Some err) p1
    | Ret (accts, m, None) p1 =>
        Ret None {| self := set_accountsSecretMap m (set_accounts accts (self p1));
                    world := world p1 |}
    | Panic msg p1 => Panic msg p1
    | Blocked p1 => Blocked p1
    end.
Proof.
  unfold refreshAccounts. unfold mbind at 1. unfold M_bind at 1.
  unfold gets at 1. cbv zeta.
  unfold mbind at 1. unfold M_bind at 1.
  destruct (refreshLoop _ _ _ _ p) as [[[a' m'] [err|]] p1|msg p1|p1];
    reflexivity.
Qed.

(** What [refreshAccounts] keeps of its contract. If [getAccount] fails
    with an error for a descriptor after all the
    descriptors before it were resolved, [refreshAccounts] returns that
    error, and the account list and the account-to-secret index are the
    ones from before the call. If every descriptor is resolved, the list
    becomes the resolved accounts and the index maps each account's address
    to its descriptor. In every other run (an error, a panic of
    [getAccount], a lock that is not free) the list and the index are left
    as they were. *)
Theorem refreshAccounts_all_or_nothing (p : HW) :
  (forall pre sd post new p1 acct err p2,
     secrets (self p) = pre ++ sd :: post ->
     resolves p pre new p1 ->
     getAccount sd p1 = Ret (acct, Some err) p2 ->
     refreshAccounts p = Ret (Some err) p2
     /\ accounts (self p2) = accounts (self p)
     /\ accountsSecretMap (self p2) = accountsSecretMap (self p))
  /\ (forall new p1,
        resolves p (secrets (self p)) new p1 ->
        exists p',
          refreshAccounts p = Ret None p'
          /\ accounts (self p') = new
          /\ accountsSecretMap (self p') = indexAll new (secrets (self p)) ∅
          /\ world p' = world p1)
  /\ ((exists new p1, resolves p (secrets (self p)) new p1)
      \/ (accounts (self (final (refreshAccounts p))) = accounts (self p)
          /\ accountsSecretMap (self (final (refreshAccounts p)))
             = accountsSecretMap (self p))).
Proof.
  split; [|split].
  - intros pre sd post new p1 acct err p2 Hsec Hres Hget.
    unfold refreshAccounts. unfold mbind at 1. unfold M_bind at 1.
    unfold gets at 1. cbv zeta.
    unfold mbind at 1. unfold M_bind at 1.
    simpl. rewrite Hsec.
    rewrite (refreshLoop_fails p p1 p2 pre sd post new acct err Hres Hget).
    split; [reflexivity|].
    apply resolves_frame in Hres as [Hs _].
    pose proof (getAccount_frame sd p1) as Hf. rewrite Hget in Hf. simpl in Hf.
    rewrite Hf, Hs. split; reflexivity.
  - intros new p1 Hres.
    unfold refreshAccounts. unfold mbind at 1. unfold M_bind at 1.
    unfold gets at 1. cbv zeta.
    unfold mbind at 1. unfold M_bind at 1.
    rewrite (refreshLoop_resolves p p1 _ new Hres).
    apply resolves_frame in Hres as [Hs Hlen].
    eexists. split; [reflexivity|]. simpl.
    split; [|split; reflexivity].
    rewrite <- Hlen. apply place_replicate.
  - rewrite refreshAccounts_eq.
    pose proof (refreshLoop_total (secrets (self p)) 0
                  (replicate (length (secrets (self p))) emptyAccount) ∅ p) as Ht.
    destruct (refreshLoop _ _ _ _ p) as [[[a' m'] [err|]] p1|msg p1|p1].
    + right. simpl. rewrite Ht. split; reflexivity.
    + left. destruct Ht as [new Hnew]. exists new, p1. exact Hnew.
    + right. simpl. rewrite Ht. split; reflexivity.
    + right. simpl. rewrite Ht. split; reflexivity.
Qed.

End RefreshFacts.

Lemma refreshAccounts_all_or_nothing_witness :
  (Hashicorp.refreshAccounts (Demo.opened Demo.twoSecrets)
   = Ret (Some Demo.refusedError)
       (final (Hashicorp.getAccount (Demo.secret "once" 1)
                 (final (Hashicorp.getAccount (Demo.secret "acct1" 1)
                           (Demo.opened Demo.twoSecrets)))))
   /\ Hashicorp.accounts
        (self (final (Hashicorp.getAccount (Demo.secret "once" 1)
                        (final (Hashicorp.getAccount (Demo.secret "acct1" 1)
                                  (Demo.opened Demo.twoSecrets))))))
      = Hashicorp.accounts (self (Demo.opened Demo.twoSecrets))
   /\ Hashicorp.accountsSecretMap
        (self (final (Hashicorp.getAccount (Demo.secret "once" 1)
                        (final (Hashicorp.getAccount (Demo.secret "acct1" 1)
                                  (Demo.opened Demo.twoSecrets))))))
      = Hashicorp.accountsSecretMap (self (Demo.opened Demo.twoSecrets)))
  /\ (exists p',
        Hashicorp.refreshAccounts Demo.justOpened = Ret None p'
        /\ Hashicorp.accounts (self p')
           = [Demo.accountAt 10%N "acct1"; Demo.accountAt 15%N "once"]
        /\ Hashicorp.accountsSecretMap (self p')
           = indexAll [Demo.accountAt 10%N "acct1"; Demo.accountAt 15%N "once"]
               (Hashicorp.secrets (self Demo.justOpened)) ∅
        /\ world p'
           = world (final (Hashicorp.getAccount (Demo.secret "once" 1)
                             (final (Hashicorp.getAccount (Demo.secret "acct1" 1)
                                       Demo.justOpened))))).
Proof.
  split.
  - refine (proj1 (refreshAccounts_all_or_nothing (Demo.opened Demo.twoSecrets))
              [Demo.secret "acct1" 1] (Demo.secret "once" 1) []
              [Demo.accountAt 10%N "acct1"]
              (final (Hashicorp.getAccount (Demo.secret "acct1" 1)
                        (Demo.opened Demo.twoSecrets)))
              emptyAccount Demo.refusedError _ _ _ _).
    + vm_compute. reflexivity.
    + eapply resolves_cons; [|apply resolves_nil]. vm_compute. reflexivity.
    + vm_compute. reflexivity.
  - refine (proj1 (proj2 (refreshAccounts_all_or_nothing Demo.justOpened))
              [Demo.accountAt 10%N "acct1"; Demo.accountAt 15%N "once"] _ _).
    eapply resolves_cons; [vm_compute; reflexivity|].
    eapply resolves_cons; [vm_compute; reflexivity|].
    apply resolves_nil.
Defined.

Example refreshAccounts_keeps_accounts :
  Hashicorp.accounts (self (final (Hashicorp.refreshAccounts
                                     (Demo.opened Demo.twoSecrets))))
  = [Demo.accountAt 10%N "acct1"; Demo.accountAt 15%N "once"].
Proof. vm_compute. reflexivity. Qed.

(** C2. A descriptor whose secret the Vault does not have cannot be
    resolved: the read returns no secret and no error. [getAccount] then
    does not return an error, it panics on the missing secret, and so does
    [refreshAccounts]: the caller gets no error back. The list and the
    index are left as they were. *)
Theorem refreshAccounts_panics_on_missing_secret :
  exists p1 p2,
    Hashicorp.getAccount (Demo.secret "acct1" 1) Demo.openedMissing
    = Ret (Demo.accountAt 10%N "acct1", None) p1
    /\ api_ReadWithData (trace (world p1))
         {| addr := "http://vault:8200"; token := "" |}
         "secret/data/missing" {[ "version" := ["1"] ]}
       = (None, None)
    /\ Hashicorp.getAccount (Demo.secret "missing" 1) p1 = Panic nilDeref p2
    /\ Hashicorp.refreshAccounts Demo.openedMissing = Panic nilDeref p2
    /\ added Demo.openedMissing p2
       = [VaultRead {| addr := "http://vault:8200"; token := "" |}
            "secret/data/acct1" {[ "version" := ["1"] ]};
          VaultRead {| addr := "http://vault:8200"; token := "" |}
            "secret/data/missing" {[ "version" := ["1"] ]}]
    /\ Hashicorp.accounts (self p2) = Hashicorp.accounts (self Demo.openedMissing)
    /\ Hashicorp.accountsSecretMap (self p2)
       = Hashicorp.accountsSecretMap (self Demo.openedMissing).
Proof. eexists _, _. vm_compute. repeat split. Qed.

(** On a wallet that was never opened [refreshAccounts] panics in the same
    way, on the missing client; [SignHash] on the same wallet returns
    [ErrWalletClosed]. *)
Example refreshAccounts_closed_wallet :
  Hashicorp.refreshAccounts (Demo.closed [Demo.secret "acct1" 1])
  = Panic nilDeref (Demo.closed [Demo.secret "acct1" 1])
  /\ Hashicorp.SignHash Demo.account1 Demo.hash32
       (Demo.closed [Demo.secret "acct1" 1])
     = Ret ([], Some ErrWalletClosed) (Demo.closed [Demo.secret "acct1" 1]).
Proof. vm_compute. repeat split. Qed.

(** ** C5: [Open] and the Approle environment variables *)

Section OpenFacts.

Context {Transaction : Type} `{!Externals Transaction}.

Import Hashicorp.

Abbreviation HW := (Proc Transaction hashicorpWallet).

(** Unfolds [Open] on a closed wallet with a free lock whose client can be
    built. *)
Ltac open_start p Hr Hw Hc Hnew Hset :=
  destruct p as [hw w]; destruct hw as [[n wr] u cd ss accts m cl fd lg];
  destruct w as [env ks cls tr];
  simpl in Hr, Hw, Hc, Hnew, Hset; subst n wr cl;
  unfold Open, OpenLocked, Write, on_lock, RLock, RUnlock, Lock, Unlock,
    addressed, loginPath, loginData;
  unfold_run; simpl; rewrite Hnew; simpl; rewrite Hset; simpl.

Lemma Open_partial_approle pass (p : HW) c0 :
  readers (stateLock (self p)) = 0%nat ->
  writer (stateLock (self p)) = false ->
  client (self p) = None ->
  api_NewClient (environ (world p)) = inl c0 ->
  api_SetAddress c0 (Url (clientData (self p))) = None ->
  (environ (world p) !! vaultRoleId = None
   <-> environ (world p) !! vaultSecretId <> None) ->
  exists p',
    Open pass p = Ret (Some approleError) p'
    /\ self p' = self p
    /\ trace (world p') = trace (world p).
Proof.
  intros Hr Hw Hc Hnew Hset Hne.
  open_start p Hr Hw Hc Hnew Hset. simpl in Hne.
  destruct (env !! vaultRoleId) as [r|], (env !! vaultSecretId) as [s|]; simpl.
  - exfalso. destruct Hne as [_ Hne]. discriminate Hne. discriminate.
  - eexists. repeat split.
  - eexists. repeat split.
  - exfalso. destruct Hne as [Hne _]. apply Hne; reflexivity.
Qed.

Lemma Open_ambient_token pass (p : HW) c0 feed :
  readers (stateLock (self p)) = 0%nat ->
  writer (stateLock (self p)) = false ->
  client (self p) = None ->
  api_NewClient (environ (world p)) = inl c0 ->
  api_SetAddress c0 (Url (clientData (self p))) = None ->
  updateFeed (self p) = Some feed ->
  environ (world p) !! vaultRoleId = None ->
  environ (world p) !! vaultSecretId = None ->
  exists p',
    Open pass p = Ret None p'
    /\ client (self p') = Some (length (clients (world p)))
    /\ clients (world p') = clients (world p) ++ [addressed c0 p]
    /\ trace (world p')
       = trace (world p) ++ [FeedSend feed (url (self p)) WalletOpened].
Proof.
  intros Hr Hw Hc Hnew Hset Hfd Hrole Hsec.
  open_start p Hr Hw Hc Hnew Hset. simpl in Hfd, Hrole, Hsec. subst fd.
  rewrite Hrole, Hsec. simpl.
  rewrite insert_snoc.
  eexists. split; [reflexivity|]. simpl. repeat split.
Qed.

Lemma Open_approle_request pass (p : HW) c0 roleId secretId :
  readers (stateLock (self p)) = 0%nat ->
  writer (stateLock (self p)) = false ->
  client (self p) = None ->
  api_NewClient (environ (world p)) = inl c0 ->
  api_SetAddress c0 (Url (clientData (self p))) = None ->
  environ (world p) !! vaultRoleId = Some roleId ->
  environ (world p) !! vaultSecretId = Some secretId ->
  exists l,
    trace (world (final (Open pass p)))
    = trace (world p)
      ++ VaultWrite (addressed c0 p) (loginPath p) (loginData roleId secretId) :: l
    /\ (forall err,
          snd (api_Write (trace (world p)) (addressed c0 p) (loginPath p)
                 (loginData roleId secretId)) = Some err ->
          exists p', Open pass p = Ret (Some err) p' /\ client (self p') = None).
Proof.
  intros Hr Hw Hc Hnew Hset Hrole Hsec.
  open_start p Hr Hw Hc Hnew Hset. simpl in Hrole, Hsec.
  rewrite Hrole, Hsec. simpl.
  rewrite insert_snoc, lookup_snoc. simpl.
  destruct (api_Write tr _ _ _) as [resp [err|]]; simpl.
  - exists []. split; [reflexivity|].
    intros err' Herr. injection Herr as <-. eexists. split; reflexivity.
  - destruct resp as [resp|]; simpl.
    + destruct (Auth resp) as [auth|]; simpl.
      * rewrite lookup_snoc. simpl.
        destruct fd; simpl; eexists; (split; [rewrite <- ?app_assoc; reflexivity|]);
          intros err' Herr; discriminate.
      * exists []. split; [reflexivity|]. intros err' Herr; discriminate.
    + exists []. split; [reflexivity|]. intros err' Herr; discriminate.
Qed.

Lemma Open_approle_login pass (p : HW) c0 feed roleId secretId resp t :
  readers (stateLock (self p)) = 0%nat ->
  writer (stateLock (self p)) = false ->
  client (self p) = None ->
  api_NewClient (environ (world p)) = inl c0 ->
  api_SetAddress c0 (Url (clientData (self p))) = None ->
  updateFeed (self p) = Some feed ->
  environ (world p) !! vaultRoleId = Some roleId ->
  environ (world p) !! vaultSecretId = Some secretId ->
  api_Write (trace (world p)) (addressed c0 p) (loginPath p)
    (loginData roleId secretId) = (Some resp, None) ->
  Auth resp = Some {| ClientToken := t |} ->
  exists p',
    Open pass p = Ret None p'
    /\ client (self p') = Some (length (clients (world p)))
    /\ clients (world p')
       = clients (world p) ++ [{| addr := Url (clientData (self p)); token := t |}]
    /\ trace (world p')
       = trace (world p)
         ++ [VaultWrite (addressed c0 p) (loginPath p) (loginData roleId secretId);
             FeedSend feed (url (self p)) WalletOpened].
Proof.
  intros Hr Hw Hc Hnew Hset Hfd Hrole Hsec Hwrite Hauth.
  open_start p Hr Hw Hc Hnew Hset. simpl in Hfd, Hrole, Hsec, Hwrite. subst fd.
  rewrite Hrole, Hsec. simpl.
  rewrite insert_snoc, lookup_snoc. simpl.
  unfold addressed, loginPath, loginData in Hwrite. simpl in Hwrite.
  rewrite Hwrite. simpl. rewrite Hauth. simpl.
  rewrite lookup_snoc. simpl. rewrite insert_snoc.
  eexists. split; [reflexivity|]. simpl. repeat split.
  rewrite <- app_assoc. reflexivity.
Qed.

(** C5. [Open] on a closed wallet whose client can be built and addressed
    looks at the two environment variables. If exactly one of
    [VAULT_ROLE_ID] and [VAULT_SECRET_ID] is set, it fails with the error
    that asks for both, without a request to the Vault and with the wallet
    unchanged. If neither is set, it succeeds without a request to the
    Vault: the wallet's client keeps the token it was created with. If both
    are set, it first posts the two values to [auth/{path}/login], where
    the path is [VAULT_APPROLE_PATH] or ["approle"]; when that request
    fails [Open] fails with its error, and when it answers with a client
    token [Open] succeeds with that token set on the wallet's client. *)
Theorem Open_approle pass (p : HW) c0 :
  readers (stateLock (self p)) = 0%nat ->
  writer (stateLock (self p)) = false ->
  client (self p) = None ->
  api_NewClient (environ (world p)) = inl c0 ->
  api_SetAddress c0 (Url (clientData (self p))) = None ->
  ((environ (world p) !! vaultRoleId = None
    <-> environ (world p) !! vaultSecretId <> None) ->
   exists p',
     Open pass p = Ret (Some approleError) p'
     /\ self p' = self p
     /\ trace (world p') = trace (world p))
  /\ (forall feed,
        updateFeed (self p) = Some feed ->
        environ (world p) !! vaultRoleId = None ->
        environ (world p) !! vaultSecretId = None ->
        exists p',
          Open pass p = Ret None p'
          /\ client (self p') = Some (length (clients (world p)))
          /\ clients (world p')
             = clients (world p)
               ++ [{| addr := Url (clientData (self p)); token := token c0 |}]
          /\ trace (world p')
             = trace (world p) ++ [FeedSend feed (url (self p)) WalletOpened])
  /\ (forall roleId secretId,
        environ (world p) !! vaultRoleId = Some roleId ->
        environ (world p) !! vaultSecretId = Some secretId ->
        (exists l,
           trace (world (final (Open pass p)))
           = trace (world p)
             ++ VaultWrite (addressed c0 p) (loginPath p)
                  (loginData roleId secretId) :: l)
        /\ (forall err,
              snd (api_Write (trace (world p)) (addressed c0 p) (loginPath p)
                     (loginData roleId secretId)) = Some err ->
              exists p', Open pass p = Ret (Some err) p' /\ client (self p') = None)
        /\ (forall feed resp t,
              updateFeed (self p) = Some feed ->
              api_Write (trace (world p)) (addressed c0 p) (loginPath p)
                (loginData roleId secretId) = (Some resp, None) ->
              Auth resp = Some {| ClientToken := t |} ->
              exists p',
                Open pass p = Ret None p'
                /\ client (self p') = Some (length (clients (world p)))
                /\ clients (world p')
                   = clients (world p)
                     ++ [{| addr := Url (clientData (self p)); token := t |}]
                /\ trace (world p')
                   = trace (world p)
                     ++ [VaultWrite (addressed c0 p) (loginPath p)
                           (loginData roleId secretId);
                         FeedSend feed (url (self p)) WalletOpened])).
Proof.
  intros Hr Hw Hc Hnew Hset. split; [|split].
  - intros Hone. exact (Open_partial_approle pass p c0 Hr Hw Hc Hnew Hset Hone).
  - intros feed Hfd Hrole Hsec.
    exact (Open_ambient_token pass p c0 feed Hr Hw Hc Hnew Hset Hfd Hrole Hsec).
  - intros roleId secretId Hrole Hsec.
    destruct (Open_approle_request pass p c0 roleId secretId
                Hr Hw Hc Hnew Hset Hrole Hsec) as (l & Hl & Herr).
    split; [exists l; exact Hl|]. split; [exact Herr|].
    intros feed resp t Hfd Hwrite Hauth.
    exact (Open_approle_login pass p c0 feed roleId secretId resp t
             Hr Hw Hc Hnew Hset Hfd Hrole Hsec Hwrite Hauth).
Qed.

End OpenFacts.

Lemma Open_approle_witness :
  (exists p',
     Hashicorp.Open "" (Demo.closedIn {[ "VAULT_ROLE_ID" := "role" ]} [])
     = Ret (Some Hashicorp.approleError) p'
     /\ self p' = self (Demo.closedIn {[ "VAULT_ROLE_ID" := "role" ]} [])
     /\ trace (world p') = [])
  /\ (exists p',
        Hashicorp.Open "" (Demo.closedIn {[ "VAULT_TOKEN" := "root" ]} [])
        = Ret None p'
        /\ Hashicorp.client (self p') = Some 0%nat
        /\ clients (world p') = [{| addr := "http://vault:8200"; token := "root" |}]
        /\ trace (world p')
           = [FeedSend 0 {| Scheme := "http"; Path := "vault:8200" |} WalletOpened])
  /\ (exists p',
        Hashicorp.Open ""
          (Demo.closedIn {[ "VAULT_ROLE_ID" := "role"; "VAULT_SECRET_ID" := "secret" ]} [])
        = Ret None p'
        /\ Hashicorp.client (self p') = Some 0%nat
        /\ clients (world p')
           = [{| addr := "http://vault:8200"; token := "s.session" |}]
        /\ trace (world p')
           = [VaultWrite {| addr := "http://vault:8200"; token := "" |}
                "auth/approle/login"
                {[ "role_id" := VString "role"; "secret_id" := VString "secret" ]};
              FeedSend 0 {| Scheme := "http"; Path := "vault:8200" |} WalletOpened]).
Proof.
  split; [|split].
  - refine (proj1 (Open_approle ""
                     (Demo.closedIn {[ "VAULT_ROLE_ID" := "role" ]} [])
                     {| addr := "https://127.0.0.1:8200"; token := "" |}
                     _ _ _ _ _) _).
    + vm_compute. reflexivity.
    + vm_compute. reflexivity.
    + vm_compute. reflexivity.
    + vm_compute. reflexivity.
    + vm_compute. reflexivity.
    + vm_compute. split; intros H; [discriminate|]. exfalso. apply H. reflexivity.
  - refine (proj1 (proj2 (Open_approle ""
                            (Demo.closedIn {[ "VAULT_TOKEN" := "root" ]} [])
                            {| addr := "https://127.0.0.1:8200"; token := "root" |}
                            _ _ _ _ _)) 0%nat _ _ _).
    + vm_compute. reflexivity.
    + vm_compute. reflexivity.
    + vm_compute. reflexivity.
    + vm_compute. reflexivity.
    + vm_compute. reflexivity.
    + vm_compute. reflexivity.
    + vm_compute. reflexivity.
    + vm_compute. reflexivity.
  - refine (proj2 (proj2 (proj2 (proj2 (Open_approle ""
                     (Demo.closedIn {[ "VAULT_ROLE_ID" := "role";
                                       "VAULT_SECRET_ID" := "secret" ]} [])
                     {| addr := "https://127.0.0.1:8200"; token := "" |}
                     _ _ _ _ _)) "role" "secret" _ _))
              0%nat
              {| Data := ∅; Auth := Some {| ClientToken := "s.session" |} |}
              "s.session" _ _ _).
    + vm_compute. reflexivity.
    + vm_compute. reflexivity.
    + vm_compute. reflexivity.
    + vm_compute. reflexivity.
    + vm_compute. reflexivity.
    + vm_compute. reflexivity.
    + vm_compute. reflexivity.
    + vm_compute. reflexivity.
    + vm_compute. reflexivity.
    + vm_compute. reflexivity.
Defined.

(** ** C10: [Open] twice, then [Close] *)

Section LifecycleFacts.

Context {Transaction : Type} `{!Externals Transaction}.

Import Hashicorp.

Abbreviation HW := (Proc Transaction hashicorpWallet).

(** A second [Open] is rejected and leaves everything but the lock as it
    was: the read lock taken for the check is still held. *)
Lemma Open_already_open pass (p : HW) c :
  writer (stateLock (self p)) = false ->
  client (self p) = Some c ->
  Open pass p = Ret (Some ErrWalletAlreadyOpen) (rlocked p).
Proof.
  intros Hw Hc.
  destruct p as [hw w]; destruct hw as [[n wr] u cd ss accts m cl fd lg].
  simpl in Hw, Hc. subst wr cl.
  reflexivity.
Qed.

(** [Close] waits forever while a read lock is held. *)
Lemma Close_blocked (p : HW) :
  readers (stateLock (self p)) <> 0%nat -> Close p = Blocked p.
Proof.
  intros Hr.
  destruct p as [hw w]; destruct hw as [[n wr] u cd ss accts m cl fd lg].
  simpl in Hr. unfold Close, on_lock, Lock. unfold_run. simpl.
  destruct wr; [reflexivity|]. destruct n; [congruence|reflexivity].
Qed.

(** [Close] never returns an error. *)
Lemma Close_no_error (p p' : HW) err : Close p <> Ret (Some err) p'.
Proof.
  destruct p as [hw w]; destruct hw as [[n wr] u cd ss accts m cl fd lg].
  unfold Close, ClearToken, on_lock, Lock, Unlock. unfold_run. simpl.
  destruct wr; [discriminate|]. destruct n; [|discriminate]. simpl.
  destruct cl as [c|]; simpl; [|discriminate].
  destruct (clients w !! c); simpl; discriminate.
Qed.

(** [Close] on a wallet without a session, with a free lock: nothing
    changes. *)
Lemma Close_closed (p : HW) :
  readers (stateLock (self p)) = 0%nat ->
  writer (stateLock (self p)) = false ->
  client (self p) = None ->
  Close p = Ret None p.
Proof.
  intros Hr Hw Hc.
  destruct p as [hw w]; destruct hw as [[n wr] u cd ss accts m cl fd lg].
  simpl in Hr, Hw, Hc. subst n wr cl. reflexivity.
Qed.

(** [Close] on an open wallet with a free lock: the token of the client is
    cleared, the client, the account list and the index are dropped. *)
Lemma Close_open (p : HW) c cl :
  readers (stateLock (self p)) = 0%nat ->
  writer (stateLock (self p)) = false ->
  client (self p) = Some c ->
  clients (world p) !! c = Some cl ->
  exists p',
    Close p = Ret None p'
    /\ client (self p') = None
    /\ accounts (self p') = []
    /\ accountsSecretMap (self p') = ∅
    /\ clients (world p') = <[c := {| addr := addr cl; token := "" |}]> (clients (world p))
    /\ stateLock (self p') = stateLock (self p).
Proof.
  intros Hr Hw Hc Hcl.
  destruct p as [hw w]; destruct hw as [[n wr] u cd ss accts m c' fd lg].
  simpl in Hr, Hw, Hc, Hcl. subst n wr c'.
  unfold Close, ClearToken, on_lock, Lock, Unlock. unfold_run. simpl.
  rewrite Hcl. simpl. eexists. repeat split.
Qed.

End LifecycleFacts.

Example Close_twice :
  exists p1,
    Hashicorp.Close (Demo.opened [Demo.secret "acct1" 1]) = Ret None p1
    /\ Hashicorp.Close p1 = Ret None p1
    /\ Hashicorp.client (self p1) = None
    /\ Hashicorp.accounts (self p1) = []
    /\ clients (world p1) = [{| addr := "http://vault:8200"; token := "" |}].
Proof. eexists. vm_compute. repeat split. Qed.

(** C10. On an open wallet, a second [Open] fails with
    [ErrWalletAlreadyOpen] and keeps the session and the accounts, but it
    returns with the read lock still held. The [Close] that follows then
    never returns: it waits for the exclusive lock, and the session, the
    account list and the index stay in place. *)
Theorem Close_blocks_after_rejected_Open :
  exists p1,
    Hashicorp.Open "" (Demo.opened [Demo.secret "acct1" 1])
    = Ret (Some ErrWalletAlreadyOpen) p1
    /\ Hashicorp.client (self p1) = Some 0%nat
    /\ Hashicorp.accounts (self p1)
       = Hashicorp.accounts (self (Demo.opened [Demo.secret "acct1" 1]))
    /\ Hashicorp.stateLock (self p1) = {| readers := 1; writer := false |}
    /\ Hashicorp.Close p1 = Blocked p1
    /\ (Hashicorp.Open "";; Hashicorp.Close) (Demo.opened [Demo.secret "acct1" 1])
       = Blocked p1.
Proof. eexists. vm_compute. repeat split. Qed.

(** ** C3: the backend keeps the wallet it could not build *)

Section BackendFacts.

Context {Transaction : Type}.

Import Backend.

Abbreviation HB := (Proc Transaction hashicorpBackend).

Lemma buildWallets_length feed configs :
  forall wallets events (p : HB),
  exists ws es p',
    buildWallets feed configs wallets events p = Ret (ws, es) p'
    /\ self p' = self p
    /\ length ws = (length wallets + length configs)%nat.
Proof.
  induction configs as [|hc configs IH]; intros wallets events p; simpl.
  - eexists _, _, _. split; [reflexivity|]. split; [reflexivity|lia].
  - destruct (Hashicorp.NewHashicorpWallet (Client hc) (Secrets hc) (Some feed))
      as [w [err|]].
    + unfold mbind at 1. unfold M_bind at 1. rewrite emit_eq.
      destruct (IH (wallets ++ [w]) (events ++ [(w, WalletArrived)])
                  (logged (LogWarn "Unable to create Hashicorp wallet" (Some err)) p))
        as (ws & es & p' & Hb & Hs & Hl).
      exists ws, es, p'. split; [exact Hb|]. split; [exact Hs|].
      rewrite Hl, length_app. simpl. lia.
    + unfold mbind at 1. unfold M_bind at 1. unfold mret at 1. unfold M_ret at 1.
      destruct (IH (wallets ++ [w]) (events ++ [(w, WalletArrived)]) p)
        as (ws & es & p' & Hb & Hs & Hl).
      exists ws, es, p'. split; [exact Hb|]. split; [exact Hs|].
      rewrite Hl, length_app. simpl. lia.
Qed.

Lemma sendAll_self feed events :
  forall p : HB, exists p', sendAll feed events p = Ret tt p' /\ self p' = self p.
Proof.
  induction events as [|[w kind] events IH]; intros p; simpl.
  - eexists. split; reflexivity.
  - unfold mbind at 1. unfold M_bind at 1. rewrite emit_eq.
    destruct (IH (logged (FeedSend feed (Hashicorp.url w) kind) p)) as (p' & Hs & Hp).
    exists p'. split; [exact Hs|exact Hp].
Qed.

(** Construction always returns a backend, with one wallet per
    configuration. *)
Lemma NewHashicorpBackend_length feed configs (w : World Transaction) :
  exists hb p,
    NewHashicorpBackend feed configs w = Ret hb p
    /\ length (wallets hb) = length configs.
Proof.
  unfold NewHashicorpBackend, refreshWallets.
  unfold mbind at 1. unfold M_bind at 1.
  unfold mbind at 1. unfold M_bind at 1. unfold gets at 1. simpl.
  unfold mbind at 1. unfold M_bind at 1.
  destruct (buildWallets_length feed configs [] []
              {| self := {| stateLock := unlocked; wallets := []; updateFeed := feed;
                            hashicorpConfigs := configs |};
                 world := w |}) as (ws & es & p' & Hb & Hs & Hl).
  rewrite Hb. unfold mbind at 1. unfold M_bind at 1.
  destruct (sendAll_self feed es p') as (p'' & Hsend & Hs').
  rewrite Hsend. unfold on_self, modify, gets. simpl.
  eexists _, _. split; [reflexivity|]. simpl. exact Hl.
Qed.

End BackendFacts.

(** C3. From three configurations of which the second has a URL without a
    scheme, [NewHashicorpBackend] returns a backend with three wallets, not
    two: it logs the failure and then keeps the empty wallet that
    [NewHashicorpWallet] returned with the error, and announces it as
    arrived like the other two. *)
Theorem backend_keeps_failed_wallet :
  exists hb p,
    Backend.NewHashicorpBackend 0 Demo.threeConfigs Demo.world0 = Ret hb p
    /\ length (Backend.wallets hb) = 3%nat
    /\ Backend.wallets hb !! 1%nat = Some Demo.failedWallet
    /\ Hashicorp.url <$> Backend.wallets hb
       = [{| Scheme := "http"; Path := "vault-a:8200" |}; emptyURL;
          {| Scheme := "http"; Path := "vault-c:8200" |}]
    /\ trace (world p)
       = [LogWarn "Unable to create Hashicorp wallet"
            (Some (errorString "protocol scheme missing"));
          FeedSend 0 {| Scheme := "http"; Path := "vault-a:8200" |} WalletArrived;
          FeedSend 0 emptyURL WalletArrived;
          FeedSend 0 {| Scheme := "http"; Path := "vault-c:8200" |} WalletArrived].
Proof. eexists _, _. vm_compute. repeat split. Qed.

(** * Further properties *)

#[local] Existing Instance DemoLibrary.library.
#[local] Existing Instance DemoLibrary.stuckService.

(** ** [parseURL] and [NewHashicorpWallet] *)

Lemma string_of_list_ascii_snoc (l : list ascii) (c : ascii) :
  String.string_of_list_ascii (l ++ [c])
  = String.string_of_list_ascii l +:+ String c EmptyString.
Proof.
  induction l as [|a l IH]; [reflexivity|].
  change (String a (String.string_of_list_ascii (l ++ [c]))
          = String a (String.string_of_list_ascii l +:+ String c EmptyString)).
  rewrite IH. reflexivity.
Qed.

Lemma HasPrefix_split (s p : string) :
  HasPrefix s p = true ->
  s = p +:+ dropBytes (String.length p) s
  /\ (String.length p <= String.length s)%nat.
Proof.
  revert s. induction p as [|a p IH]; intros s H.
  - split; [destruct s; reflexivity|simpl; lia].
  - destruct s as [|b s]; simpl in H; [discriminate|].
    destruct (decide (a = b)) as [->|]; [|discriminate].
    destruct (IH s H) as [Hs Hl]. split.
    + change (String b s = String b (p +:+ dropBytes (String.length p) s)).
      rewrite <- Hs. reflexivity.
    + simpl. lia.
Qed.

Lemma Split_go_nonempty sep s : forall k cur, Split_go sep k cur s <> [].
Proof.
  induction s as [|c s IH]; intros k cur; cbn [Split_go]; [done|].
  destruct k; [|apply IH].
  destruct (HasPrefix (String c s) sep); [done|apply IH].
Qed.

Lemma Join_cons x l sep :
  l <> [] -> Join (x :: l) sep = x +:+ sep +:+ Join l sep.
Proof. destruct l; [congruence|reflexivity]. Qed.

Lemma app_empty_l (s : string) : EmptyString +:+ s = s.
Proof. reflexivity. Qed.

(** Joining the pieces of [Split] with the separator gives the string
    back; in a piece begun inside a separator the rest of the separator is
    left out. *)
Lemma Split_go_join sep s :
  sep <> EmptyString ->
  forall k cur,
    (k <= String.length s)%nat ->
    Join (Split_go sep k cur s) sep
    = String.string_of_list_ascii (rev cur) +:+ dropBytes k s.
Proof.
  intros Hsep. induction s as [|c s IH]; intros k cur Hk.
  - simpl in Hk. assert (k = 0)%nat as -> by lia. simpl.
    induction (String.string_of_list_ascii (rev cur)) as [|a t IHt]; [reflexivity|].
    change (String a t = String a (t +:+ EmptyString)). rewrite <- IHt. reflexivity.
  - destruct k as [|k].
    + cbn [Split_go dropBytes].
      destruct (HasPrefix (String c s) sep) eqn:Hp.
      * destruct sep as [|a sep']; [congruence|].
        simpl in Hp. destruct (decide (a = c)) as [->|]; [|discriminate].
        rewrite Join_cons by apply Split_go_nonempty.
        apply HasPrefix_split in Hp as [Hs Hl].
        rewrite IH by (simpl; lia).
        simpl. rewrite Nat.sub_0_r.
        change (String.string_of_list_ascii (rev cur)
                +:+ (String c sep' +:+ dropBytes (String.length sep') s)
                = String.string_of_list_ascii (rev cur) +:+ String c s).
        change (String c sep' +:+ dropBytes (String.length sep') s)
          with (String c (sep' +:+ dropBytes (String.length sep') s)).
        rewrite <- Hs. reflexivity.
      * rewrite IH by lia. simpl rev. rewrite string_of_list_ascii_snoc.
        rewrite string_app_assoc. reflexivity.
    + cbn [Split_go dropBytes]. apply IH. simpl in Hk. lia.
Qed.

Lemma Split_join s sep : sep <> EmptyString -> Join (Split s sep) sep = s.
Proof.
  intros Hsep. unfold Split.
  rewrite Split_go_join by (assumption || lia). reflexivity.
Qed.

Lemma app_cons (c : ascii) (s t : string) :
  String c s +:+ t = String c (s +:+ t).
Proof. reflexivity. Qed.

Lemma app_empty_r (s : string) : s +:+ EmptyString = s.
Proof.
  induction s as [|a s IH]; [reflexivity|].
  rewrite app_cons, IH. reflexivity.
Qed.

Lemma append_inv_head (s a b : string) : s +:+ a = s +:+ b -> a = b.
Proof.
  induction s as [|c s IH]; intros H; [exact H|].
  rewrite !app_cons in H. injection H as H. exact (IH H).
Qed.

Lemma HasPrefix_app (p t : string) : HasPrefix (p +:+ t) p = true.
Proof.
  induction p as [|a p IH]; [destruct t; reflexivity|].
  rewrite app_cons. simpl. destruct (decide (a = a)); [exact IH|congruence].
Qed.

(** Two ways to cut one string: the shorter head is a prefix of the
    longer. *)
Lemma append_split (x : string) :
  forall a r1 r2,
    x +:+ r1 = a +:+ r2 ->
    (String.length x <= String.length a)%nat ->
    exists t, a = x +:+ t /\ r1 = t +:+ r2.
Proof.
  induction x as [|c x IH]; intros a r1 r2 H Hl.
  - exists a. split; [reflexivity|exact H].
  - destruct a as [|c' a]; [simpl in Hl; lia|].
    rewrite !app_cons in H. injection H as -> H.
    destruct (IH a r1 r2 H) as (t & -> & ->); [simpl in Hl; lia|].
    exists t. split; reflexivity.
Qed.

(** Bytes skipped at the start of a piece are bytes dropped. *)
Lemma Split_go_skip sep s :
  forall k cur,
    (k <= String.length s)%nat ->
    Split_go sep k cur s = Split_go sep 0 cur (dropBytes k s).
Proof.
  induction s as [|c s IH]; intros k cur Hk.
  - simpl in Hk. assert (k = 0)%nat as -> by lia. reflexivity.
  - destruct k as [|k]; [reflexivity|].
    cbn [Split_go dropBytes]. apply IH. simpl in Hk. lia.
Qed.

(** The first piece of [Split] ends at the first separator: it is no longer
    than any head that a separator follows, and the other pieces are the
    pieces of what follows that separator. *)
Lemma Split_go_first sep a :
  sep <> EmptyString ->
  forall b cur,
    exists a' t,
      Split_go sep 0 cur (a +:+ sep +:+ b)
      = (String.string_of_list_ascii (rev cur) +:+ a') :: Split_go sep 0 [] t
      /\ (String.length a' <= String.length a)%nat.
Proof.
  intros Hsep.
  assert (Hhit : forall c s cur,
            HasPrefix (String c s) sep = true ->
            exists t,
              Split_go sep 0 cur (String c s)
              = (String.string_of_list_ascii (rev cur) +:+ EmptyString)
                  :: Split_go sep 0 [] t).
  { intros c s cur Hp. cbn [Split_go]. rewrite Hp.
    apply HasPrefix_split in Hp as [_ Hl].
    destruct sep as [|c0 sep']; [congruence|]. simpl in Hl.
    exists (dropBytes (String.length (String c0 sep') - 1) s).
    rewrite app_empty_r.
    rewrite Split_go_skip by (simpl; lia). reflexivity. }
  induction a as [|c a IH]; intros b cur.
  - rewrite app_empty_l.
    assert (exists c s, sep +:+ b = String c s) as (c & s & Hcs).
    { destruct sep as [|c0 sep']; [congruence|]. eexists _, _. apply app_cons. }
    rewrite Hcs. destruct (Hhit c s cur) as [t Ht].
    { rewrite <- Hcs. apply HasPrefix_app. }
    exists EmptyString, t. split; [exact Ht|simpl; lia].
  - rewrite app_cons.
    destruct (HasPrefix (String c (a +:+ sep +:+ b)) sep) eqn:Hp.
    + destruct (Hhit c (a +:+ sep +:+ b) cur Hp) as [t Ht].
      exists EmptyString, t. split; [exact Ht|simpl; lia].
    + cbn [Split_go]. rewrite Hp.
      destruct (IH b (c :: cur)) as (a' & t & Ht & Hl).
      exists (String c a'), t. split; [|simpl; lia].
      rewrite Ht. simpl rev. rewrite string_of_list_ascii_snoc.
      rewrite string_app_assoc. reflexivity.
Qed.

(** When [Split] gives two pieces, the first is the shortest head that a
    separator follows and the second holds no separator. *)
Lemma Split_two s sep x y :
  sep <> EmptyString ->
  Split s sep = [x; y] ->
  s = x +:+ sep +:+ y
  /\ (forall a b, s = a +:+ sep +:+ b ->
      (String.length x <= String.length a)%nat)
  /\ (forall a b, y <> a +:+ sep +:+ b).
Proof.
  intros Hsep Hxy.
  assert (Hs : s = x +:+ sep +:+ y).
  { rewrite <- (Split_join s sep Hsep) at 1. rewrite Hxy. reflexivity. }
  split; [exact Hs|]. split.
  - intros a b Hab. unfold Split in Hxy. rewrite Hab in Hxy.
    destruct (Split_go_first sep a Hsep b []) as (a' & t & Ht & Hl).
    rewrite Ht in Hxy. simpl in Hxy. injection Hxy as <- _. exact Hl.
  - intros a b ->. unfold Split in Hxy. rewrite Hs in Hxy.
    destruct (Split_go_first sep x Hsep (a +:+ sep +:+ b) [])
      as (x' & t & Ht & _).
    rewrite Ht in Hxy. injection Hxy as _ Hy.
    pose proof (Split_go_join sep t Hsep 0 [] ltac:(lia)) as Hj.
    rewrite Hy in Hj. simpl in Hj. rewrite app_empty_l in Hj. subst t.
    destruct (Split_go_first sep a Hsep b []) as (a'' & t'' & Ht'' & _).
    rewrite Ht'' in Hy. injection Hy as _ Hy.
    exact (Split_go_nonempty _ _ _ _ Hy).
Qed.

Lemma parseURL_parts (url : string) :
  (exists x y,
     Split url "://" = [x; y]
     /\ x <> EmptyString
     /\ parseURL url = ({| Scheme := x; Path := y |}, None))
  \/ parseURL url = (emptyURL, Some (errorString "protocol scheme missing")).
Proof.
  unfold parseURL.
  destruct (Split url "://") as [|a [|b [|c l]]]; simpl; try (right; reflexivity).
  case_bool_decide as Ha; simpl; [right; reflexivity|].
  left. exists a, b. split; [reflexivity|]. split; [|reflexivity].
  intros ->. apply Ha. reflexivity.
Qed.

Lemma parseURL_ok_inv url u :
  parseURL url = (u, None) ->
  Scheme u <> EmptyString /\ url = Scheme u +:+ "://" +:+ Path u.
Proof.
  intros H. destruct (parseURL_parts url) as [(x & y & Hxy & Hx & Hu)|He].
  - rewrite H in Hu. injection Hu as ->. simpl. split; [exact Hx|].
    apply (Split_two url "://" x y); [discriminate|exact Hxy].
  - rewrite H in He. discriminate.
Qed.

(** X1. [parseURL] either fails with "protocol scheme missing" and the
    empty URL, or returns a URL with a scheme that is not empty and from
    which the input is recovered as [Scheme://Path]; the input then holds
    ["://"] once only, so the scheme ends at its first ["://"]: there is
    no other way to write the input with a ["://"] in it. *)
Theorem parseURL_sound (url : string) :
  (exists u,
     parseURL url = (u, None)
     /\ Scheme u <> EmptyString
     /\ url = Scheme u +:+ "://" +:+ Path u
     /\ (forall a b, url = a +:+ "://" +:+ b -> a = Scheme u /\ b = Path u))
  \/ parseURL url = (emptyURL, Some (errorString "protocol scheme missing")).
Proof.
  destruct (parseURL_parts url) as [(x & y & Hxy & Hx & Hu)|He];
    [left|right; exact He].
  exists {| Scheme := x; Path := y |}. simpl.
  destruct (Split_two url "://" x y ltac:(discriminate) Hxy)
    as (Hs & Hmin & Hno).
  split; [exact Hu|]. split; [exact Hx|]. split; [exact Hs|].
  intros a b Hab. specialize (Hmin a b Hab).
  rewrite Hs in Hab.
  destruct (append_split x a _ _ Hab Hmin) as (t & -> & Ht).
  destruct t as [|c1 t].
  - rewrite app_empty_r. split; [reflexivity|].
    symmetry. exact (append_inv_head "://" y b Ht).
  - exfalso. rewrite !app_cons in Ht. injection Ht as <- Ht.
    destruct t as [|c2 t]; [discriminate|].
    rewrite !app_cons in Ht. injection Ht as <- Ht.
    destruct t as [|c3 t]; [discriminate|].
    rewrite !app_cons in Ht. injection Ht as <- Ht.
    exact (Hno t b Ht).
Qed.

(** X2. [NewHashicorpWallet] returns an error exactly when [parseURL]
    rejects the configured URL. With or without an error the wallet it
    returns is closed, has no accounts, a free lock, and the feed it was
    given; without an error it holds the configuration and its URL gives
    the configured URL back. *)
Theorem NewHashicorpWallet_closed cd ss feed :
  let hw := fst (Hashicorp.NewHashicorpWallet cd ss feed) in
  let err := snd (Hashicorp.NewHashicorpWallet cd ss feed) in
  err = snd (parseURL (Url cd))
  /\ Hashicorp.client hw = None
  /\ Hashicorp.accounts hw = []
  /\ Hashicorp.accountsSecretMap hw = ∅
  /\ Hashicorp.stateLock hw = unlocked
  /\ Hashicorp.updateFeed hw = feed
  /\ Hashicorp.logger hw = Some (Hashicorp.url hw)
  /\ (err = None ->
      Hashicorp.clientData hw = cd
      /\ Hashicorp.secrets hw = ss
      /\ Scheme (Hashicorp.url hw) <> EmptyString
      /\ Url cd = Scheme (Hashicorp.url hw) +:+ "://" +:+ Path (Hashicorp.url hw))
  /\ (err <> None -> Hashicorp.url hw = emptyURL /\ Hashicorp.secrets hw = []).
Proof.
  unfold Hashicorp.NewHashicorpWallet, Hashicorp.newHashicorpWallet.
  destruct (parseURL (Url cd)) as [u [e|]] eqn:Hp; simpl.
  - repeat split; try congruence.
  - apply parseURL_ok_inv in Hp as [Hs Hr].
    repeat split; try assumption; congruence.
Qed.

Lemma NewHashicorpWallet_closed_witness :
  Hashicorp.clientData (fst (Hashicorp.NewHashicorpWallet Demo.clientData
                               [Demo.secret "acct1" 1] (Some 0%nat)))
  = Demo.clientData
  /\ Hashicorp.secrets (fst (Hashicorp.NewHashicorpWallet Demo.clientData
                               [Demo.secret "acct1" 1] (Some 0%nat)))
     = [Demo.secret "acct1" 1]
  /\ Scheme (Hashicorp.url (fst (Hashicorp.NewHashicorpWallet Demo.clientData
                                   [Demo.secret "acct1" 1] (Some 0%nat))))
     <> EmptyString
  /\ Url Demo.clientData
     = Scheme (Hashicorp.url (fst (Hashicorp.NewHashicorpWallet Demo.clientData
                                     [Demo.secret "acct1" 1] (Some 0%nat))))
       +:+ "://"
       +:+ Path (Hashicorp.url (fst (Hashicorp.NewHashicorpWallet Demo.clientData
                                       [Demo.secret "acct1" 1] (Some 0%nat)))).
Proof.
  refine (proj1 (proj2 (proj2 (proj2 (proj2 (proj2 (proj2 (proj2
            (NewHashicorpWallet_closed Demo.clientData [Demo.secret "acct1" 1]
               (Some 0%nat))))))))) _).
  vm_compute. reflexivity.
Defined.

(** ** [getAccount] *)

Section AccountFacts.

Context {Transaction : Type} `{!Externals Transaction}.

Import Hashicorp.

Abbreviation HW := (Proc Transaction hashicorpWallet).

Lemma getAccount_eq sd (p : HW) :
  getAccount sd p =
  let wrap msg inner := hashicorpError msg sd (url (self p)) inner in
  if Version sd <? 0
  then Ret (emptyAccount,
            Some (hashicorpError "unable to get secret URL from data" sd emptyURL
                    (Some versionError))) p
  else if writer (stateLock (self p)) then Blocked p
  else match client (self p) with
       | None => Panic nilDeref p
       | Some c =>
           match clients (world p) !! c with
           | None => Panic nilDeref p
           | Some cl =>
               let p1 := logged (VaultRead cl (requestPath sd) (requestQuery sd)) p in
               match api_ReadWithData (trace (world p)) cl (requestPath sd)
                       (requestQuery sd) with
               | (Some _, Some err) | (None, Some err) =>
                   Ret (emptyAccount,
                        Some (wrap "unable to retrieve secret from vault" (Some err))) p1
               | (None, None) => Panic nilDeref p1
               | (Some secret, None) =>
                   match Data secret !! "data" with
                   | Some (VMap m) =>
                       match m !! AccountID sd with
                       | None =>
                           Ret (emptyAccount,
                                Some (wrap "no value found in vault with provided AccountID"
                                        None)) p1
                       | Some (VString strAcct) =>
                           if IsHexAddress strAcct then
                             match parseURL (accountLocator (Url (clientData (self p))) sd) with
                             | (_, Some err) =>
                                 Ret (emptyAccount,
                                      Some (wrap "unable to create account URL" (Some err))) p1
                             | (u, None) =>
                                 Ret ({| Address := HexToAddress strAcct;
                                         Account_URL := u |}, None) p1
                             end
                           else
                             Ret (emptyAccount,
                                  Some (wrap "unable to get account from vault" None)) p1
                       | Some _ =>
                           Ret (emptyAccount,
                                Some (wrap "AccountID value in vault is not plain string"
                                        None)) p1
                       end
                   | _ => Panic notAMap p1
                   end
               end
           end
       end.
Proof.
  unfold getAccount. cbv zeta.
  destruct (Version sd <? 0) eqn:Hv.
  - rewrite (toRequestData_negative _ Hv). reflexivity.
  - rewrite (toRequestData_ok _ Hv).
    unfold mbind at 1. unfold M_bind at 1. rewrite read_eq.
    destruct (writer (stateLock (self p))); [reflexivity|].
    destruct (client (self p)) as [c|]; [|reflexivity].
    destruct (clients (world p) !! c) as [cl|]; [|reflexivity].
    unfold_run. unfold accountLocator.
    destruct (api_ReadWithData _ _ _ _) as [[secret|] [err|]]; try reflexivity.
    simpl.
    destruct (Data secret !! "data") as [[]|]; try reflexivity.
    destruct (m !! AccountID sd) as [[]|]; try reflexivity.
    destruct (IsHexAddress s); [|reflexivity].
    destruct (parseURL _) as [u [err|]]; reflexivity.
Qed.

(** X3. When [getAccount] returns an account, the Vault answered the read
    for the descriptor with a secret whose account field is a string that
    [IsHexAddress] accepts; the account's address is [HexToAddress] of that
    string, and its locator, read as [Scheme://Path], is the configured
    URL followed by [/v1/], the secret's path and [?version=] with the
    version. Exactly one read was sent. *)
Theorem getAccount_success sd (p p' : HW) acct :
  getAccount sd p = Ret (acct, None) p' ->
  exists cl secret m strAcct,
    api_ReadWithData (trace (world p)) cl (requestPath sd) (requestQuery sd)
    = (Some secret, None)
    /\ Data secret !! "data" = Some (VMap m)
    /\ m !! AccountID sd = Some (VString strAcct)
    /\ IsHexAddress strAcct = true
    /\ Address acct = HexToAddress strAcct
    /\ Scheme (Account_URL acct) <> EmptyString
    /\ Url (clientData (self p)) +:+ "/v1/" +:+ SecretEngine sd +:+ "/data/"
       +:+ Name sd +:+ "?version=" +:+ Itoa (Version sd)
       = Scheme (Account_URL acct) +:+ "://" +:+ Path (Account_URL acct)
    /\ 0 <= Version sd
    /\ p' = logged (VaultRead cl (requestPath sd) (requestQuery sd)) p.
Proof.
  rewrite getAccount_eq. cbv zeta. intros H.
  destruct (Version sd <? 0) eqn:Hv; [discriminate|].
  destruct (writer (stateLock (self p))); [discriminate|].
  destruct (client (self p)) as [c|]; [|discriminate].
  destruct (clients (world p) !! c) as [cl|]; [|discriminate].
  destruct (api_ReadWithData _ _ _ _) as [[secret|] [err|]] eqn:Hr; try discriminate.
  destruct (Data secret !! "data") as [[| | | | |m]|] eqn:Hd; try discriminate.
  destruct (m !! AccountID sd) as [[| | |strAcct| |]|] eqn:Hm; try discriminate.
  destruct (IsHexAddress strAcct) eqn:Hx; [|discriminate].
  destruct (parseURL _) as [u [err|]] eqn:Hp; [discriminate|].
  injection H as <- <-.
  apply parseURL_ok_inv in Hp as [Hs Hu].
  exists cl, secret, m, strAcct. simpl.
  repeat split; try assumption; try reflexivity.
  - rewrite <- Hu. unfold accountLocator, requestPath.
    rewrite !string_app_assoc. reflexivity.
  - lia.
Qed.

(** X4. Every error [getAccount] returns comes with the empty account and
    is a [hashicorpError] that carries the descriptor; it carries the
    wallet's URL too, except for a negative version, which is reported with
    an empty URL before anything is read. *)
Theorem getAccount_error_wrapped sd (p p' : HW) acct e :
  getAccount sd p = Ret (acct, Some e) p' ->
  acct = emptyAccount
  /\ exists msg u inner,
       e = hashicorpError msg sd u inner
       /\ ((u = url (self p) /\ 0 <= Version sd)
           \/ (u = emptyURL /\ Version sd < 0 /\ inner = Some versionError
               /\ p' = p)).
Proof.
  rewrite getAccount_eq. cbv zeta. intros H.
  destruct (Version sd <? 0) eqn:Hv.
  - injection H as <- <- <-. split; [reflexivity|].
    eexists _, _, _. split; [reflexivity|]. right. repeat split. lia.
  - assert (0 <= Version sd) by lia.
    repeat case_match; simplify_eq/=;
      (split; [reflexivity|]; eexists _, _, _; split; [reflexivity|]; left; split;
       [reflexivity|assumption]).
Qed.

(** X5. However [getAccount] ends, it leaves the wallet, the heap of keys
    and the clients as they were, and adds to the trace nothing or the one
    read request for the descriptor: it writes nothing to standard output
    and sends nothing else. *)
Theorem getAccount_quiet sd (p : HW) :
  self (final (getAccount sd p)) = self p
  /\ keys (world (final (getAccount sd p))) = keys (world p)
  /\ clients (world (final (getAccount sd p))) = clients (world p)
  /\ (trace (world (final (getAccount sd p))) = trace (world p)
      \/ exists cl,
           trace (world (final (getAccount sd p)))
           = trace (world p) ++ [VaultRead cl (requestPath sd) (requestQuery sd)]).
Proof.
  rewrite getAccount_eq. cbv zeta.
  repeat case_match; simpl; repeat split; eauto.
Qed.

End AccountFacts.

Lemma getAccount_success_witness :
  exists cl secret m strAcct,
    api_ReadWithData (trace (world Demo.justOpened)) cl
      (requestPath (Demo.secret "acct1" 1)) (requestQuery (Demo.secret "acct1" 1))
    = (Some secret, None)
    /\ Data secret !! "data" = Some (VMap m)
    /\ m !! AccountID (Demo.secret "acct1" 1) = Some (VString strAcct)
    /\ IsHexAddress strAcct = true
    /\ Address (Demo.accountAt 10%N "acct1") = HexToAddress strAcct
    /\ Scheme (Account_URL (Demo.accountAt 10%N "acct1")) <> EmptyString
    /\ Url (Hashicorp.clientData (self Demo.justOpened)) +:+ "/v1/"
       +:+ SecretEngine (Demo.secret "acct1" 1) +:+ "/data/"
       +:+ Name (Demo.secret "acct1" 1) +:+ "?version="
       +:+ Itoa (Version (Demo.secret "acct1" 1))
       = Scheme (Account_URL (Demo.accountAt 10%N "acct1")) +:+ "://"
         +:+ Path (Account_URL (Demo.accountAt 10%N "acct1"))
    /\ 0 <= Version (Demo.secret "acct1" 1)
    /\ final (Hashicorp.getAccount (Demo.secret "acct1" 1) Demo.justOpened)
       = logged (VaultRead cl (requestPath (Demo.secret "acct1" 1))
                   (requestQuery (Demo.secret "acct1" 1))) Demo.justOpened.
Proof.
  refine (getAccount_success (Demo.secret "acct1" 1) Demo.justOpened
            (final (Hashicorp.getAccount (Demo.secret "acct1" 1) Demo.justOpened))
            (Demo.accountAt 10%N "acct1") _).
  vm_compute. reflexivity.
Defined.

Lemma getAccount_error_wrapped_witness :
  emptyAccount = emptyAccount
  /\ exists msg u inner,
       hashicorpError "unable to get secret URL from data" (Demo.secret "acct1" (-2))
         emptyURL (Some versionError)
       = hashicorpError msg (Demo.secret "acct1" (-2)) u inner
       /\ ((u = Hashicorp.url (self Demo.justOpened)
            /\ 0 <= Version (Demo.secret "acct1" (-2)))
           \/ (u = emptyURL /\ Version (Demo.secret "acct1" (-2)) < 0
               /\ inner = Some versionError
               /\ Demo.justOpened = Demo.justOpened)).
Proof.
  refine (getAccount_error_wrapped (Demo.secret "acct1" (-2)) Demo.justOpened
            Demo.justOpened emptyAccount
            (hashicorpError "unable to get secret URL from data"
               (Demo.secret "acct1" (-2)) emptyURL (Some versionError)) _).
  vm_compute. reflexivity.
Defined.

(** ** More on [refreshAccounts] *)

Lemma indexAll_notin (new : list Account) :
  forall sds m a,
    a ∉ (Address <$> new) -> indexAll new sds m !! a = m !! a.
Proof.
  induction new as [|acct new IH]; intros sds m a Ha; [reflexivity|].
  destruct sds as [|sd sds]; [reflexivity|]. simpl.
  rewrite fmap_cons in Ha. apply not_elem_of_cons in Ha as [Hne Ha].
  rewrite IH by exact Ha. apply lookup_insert_ne. congruence.
Qed.

Lemma indexAll_app (pre : list Account) :
  forall presd post postsd m,
    length pre = length presd ->
    indexAll (pre ++ post) (presd ++ postsd) m
    = indexAll post postsd (indexAll pre presd m).
Proof.
  induction pre as [|a pre IH]; intros [|sd presd] post postsd m Hl;
    simpl in Hl; try discriminate; [reflexivity|].
  simpl. apply IH. lia.
Qed.

(** The index maps an address to the descriptor of the last account with
    that address. *)
Lemma indexAll_last pre acct post presd sd postsd m :
  length pre = length presd ->
  Address acct ∉ (Address <$> post) ->
  indexAll (pre ++ acct :: post) (presd ++ sd :: postsd) m !! Address acct
  = Some sd.
Proof.
  intros Hl Hlast. rewrite indexAll_app by exact Hl. simpl.
  rewrite indexAll_notin by exact Hlast. apply lookup_insert_eq.
Qed.

Lemma indexAll_dom (new : list Account) :
  forall sds m a,
    length new = length sds ->
    (is_Some (indexAll new sds m !! a)
     <-> a ∈ (Address <$> new) \/ is_Some (m !! a)).
Proof.
  induction new as [|acct new IH]; intros [|sd sds] m a Hl; simpl in Hl;
    try discriminate.
  - simpl. rewrite elem_of_nil. tauto.
  - simpl. rewrite IH by lia. rewrite ?fmap_cons, elem_of_cons.
    destruct (decide (Address acct = a)) as [<-|Hne].
    + rewrite lookup_insert_eq. split; [auto|]. intros _. right. eauto.
    + rewrite lookup_insert_ne by exact Hne. split.
      * intros [H|H]; auto.
      * intros [[H|H]|H]; auto. congruence.
Qed.

Section RefreshMore.

Context {Transaction : Type} `{!Externals Transaction}.

Import Hashicorp.

Abbreviation HW := (Proc Transaction hashicorpWallet).

Lemma getAccount_ok_state sd (p p1 : HW) c cl acct :
  client (self p) = Some c ->
  clients (world p) !! c = Some cl ->
  getAccount sd p = Ret (acct, None) p1 ->
  p1 = logged (VaultRead cl (requestPath sd) (requestQuery sd)) p.
Proof.
  intros Hc Hcl. rewrite getAccount_eq. cbv zeta. rewrite Hc, Hcl.
  intros H. repeat case_match; simplify_eq/=; reflexivity.
Qed.

Lemma resolves_reads (p p1 : HW) sds new c cl :
  client (self p) = Some c ->
  clients (world p) !! c = Some cl ->
  resolves p sds new p1 ->
  trace (world p1) = trace (world p) ++ readsFor cl sds
  /\ keys (world p1) = keys (world p)
  /\ clients (world p1) = clients (world p).
Proof.
  intros Hc Hcl Hres. revert Hc Hcl.
  induction Hres as [p|p p1 p2 sd sds acct accts Hget _ IH]; intros Hc Hcl.
  - simpl. rewrite app_nil_r. repeat split.
  - pose proof (getAccount_ok_state sd p p1 c cl acct Hc Hcl Hget) as ->.
    destruct IH as (Ht & Hk & Hcls); [exact Hc|exact Hcl|].
    rewrite Ht, Hk, Hcls. simpl. rewrite <- app_assoc. repeat split.
Qed.

(** A successful [refreshAccounts], taken apart. *)
Lemma refreshAccounts_success (p q : HW) :
  refreshAccounts p = Ret None q ->
  exists new p1,
    resolves p (secrets (self p)) new p1
    /\ q = {| self := set_accountsSecretMap (indexAll new (secrets (self p)) ∅)
                        (set_accounts new (self p1));
              world := world p1 |}
    /\ self p1 = self p
    /\ length new = length (secrets (self p)).
Proof.
  rewrite refreshAccounts_eq. intros H.
  pose proof (refreshLoop_total (secrets (self p)) 0
                (replicate (length (secrets (self p))) emptyAccount) ∅ p) as Ht.
  destruct (refreshLoop _ _ _ _ p) as [[[a' m'] [err|]] p1|msg p1|p1] eqn:Hloop;
    try discriminate.
  destruct Ht as [new Hnew].
  rewrite (refreshLoop_resolves p p1 _ new Hnew) in Hloop.
  injection Hloop as <- <-. injection H as <-.
  destruct (resolves_frame p p1 _ new Hnew) as [Hs Hl].
  exists new, p1. rewrite <- Hl, place_replicate. repeat split; assumption.
Qed.

(** X6. A [refreshAccounts] that succeeds has sent exactly one read
    request for each configured descriptor, in the order of the
    configuration, and nothing else; it has allocated no key; the account
    list has one account for each descriptor. *)
Theorem refreshAccounts_reads (p q : HW) c cl :
  refreshAccounts p = Ret None q ->
  client (self p) = Some c ->
  clients (world p) !! c = Some cl ->
  trace (world q) = trace (world p) ++ readsFor cl (secrets (self p))
  /\ keys (world q) = keys (world p)
  /\ length (accounts (self q)) = length (secrets (self p))
  /\ secrets (self q) = secrets (self p)
  /\ client (self q) = client (self p)
  /\ stateLock (self q) = stateLock (self p).
Proof.
  intros H Hc Hcl.
  apply refreshAccounts_success in H as (new & p1 & Hres & -> & Hs & Hl).
  destruct (resolves_reads p p1 _ new c cl Hc Hcl Hres) as (Ht & Hk & _).
  simpl. rewrite Hs. repeat split; assumption.
Qed.

(** X7. After a [refreshAccounts] that succeeds, the index holds exactly
    the addresses of the account list, and it maps the address of an
    account to the descriptor at the same position, unless a later account
    has the same address: the last descriptor for an address wins. *)
Theorem refreshAccounts_index (p q : HW) :
  refreshAccounts p = Ret None q ->
  consistent (self q)
  /\ (forall pre acct post presd sd postsd,
        accounts (self q) = pre ++ acct :: post ->
        secrets (self p) = presd ++ sd :: postsd ->
        length pre = length presd ->
        Address acct ∉ (Address <$> post) ->
        accountsSecretMap (self q) !! Address acct = Some sd).
Proof.
  intros H.
  apply refreshAccounts_success in H as (new & p1 & Hres & -> & Hs & Hl).
  simpl. split.
  - intros a. simpl. rewrite indexAll_dom by exact Hl.
    rewrite lookup_empty. split; [intros [H|[x H]]; [exact H|discriminate]|auto].
  - intros pre acct post presd sd postsd Hn Hsd Hlen Hlast.
    rewrite Hn, Hsd. apply indexAll_last; assumption.
Qed.

End RefreshMore.

Lemma refreshAccounts_reads_witness :
  trace (world (final (Hashicorp.refreshAccounts Demo.justOpened)))
  = trace (world Demo.justOpened)
    ++ readsFor {| addr := "http://vault:8200"; token := "" |}
         (Hashicorp.secrets (self Demo.justOpened))
  /\ keys (world (final (Hashicorp.refreshAccounts Demo.justOpened)))
     = keys (world Demo.justOpened)
  /\ length (Hashicorp.accounts (self (final (Hashicorp.refreshAccounts Demo.justOpened))))
     = length (Hashicorp.secrets (self Demo.justOpened))
  /\ Hashicorp.secrets (self (final (Hashicorp.refreshAccounts Demo.justOpened)))
     = Hashicorp.secrets (self Demo.justOpened)
  /\ Hashicorp.client (self (final (Hashicorp.refreshAccounts Demo.justOpened)))
     = Hashicorp.client (self Demo.justOpened)
  /\ Hashicorp.stateLock (self (final (Hashicorp.refreshAccounts Demo.justOpened)))
     = Hashicorp.stateLock (self Demo.justOpened).
Proof.
  refine (refreshAccounts_reads Demo.justOpened
            (final (Hashicorp.refreshAccounts Demo.justOpened)) 0%nat
            {| addr := "http://vault:8200"; token := "" |} _ _ _).
  - vm_compute. reflexivity.
  - vm_compute. reflexivity.
  - vm_compute. reflexivity.
Defined.

Lemma refreshAccounts_index_witness :
  consistent (self (final (Hashicorp.refreshAccounts Demo.justOpened)))
  /\ Hashicorp.accountsSecretMap (self (final (Hashicorp.refreshAccounts Demo.justOpened)))
       !! Address (Demo.accountAt 15%N "once")
     = Some (Demo.secret "once" 1).
Proof.
  pose proof (refreshAccounts_index Demo.justOpened
                (final (Hashicorp.refreshAccounts Demo.justOpened))) as H.
  assert (Hrun : Hashicorp.refreshAccounts Demo.justOpened
                 = Ret None (final (Hashicorp.refreshAccounts Demo.justOpened))).
  { vm_compute. reflexivity. }
  destruct (H Hrun) as [Hc Hi]. split; [exact Hc|].
  refine (Hi [Demo.accountAt 10%N "acct1"] (Demo.accountAt 15%N "once") []
            [Demo.secret "acct1" 1] (Demo.secret "once" 1) [] _ _ _ _).
  - vm_compute. reflexivity.
  - vm_compute. reflexivity.
  - reflexivity.
  - simpl. apply not_elem_of_nil.
Defined.

(** ** Read-only operations, [Status], [Open] and [Close] *)

Section LifecycleMore.

Context {Transaction : Type} `{!Externals Transaction} `{!Library Transaction}.

Import Hashicorp.

Abbreviation HW := (Proc Transaction hashicorpWallet).

Lemma hContains_eq account (p : HW) :
  Contains account p
  = if writer (stateLock (self p)) then Blocked p
    else Ret (hcontains account (self p)) p.
Proof.
  destruct p as [hw w]; destruct hw as [[n wr] u cd ss accts m cl fd lg].
  unfold Contains, on_lock, RLock, RUnlock, hcontains. unfold_run. simpl.
  destruct wr; reflexivity.
Qed.

Lemma Accounts_eq (p : HW) :
  Accounts p
  = if writer (stateLock (self p)) then Blocked p
    else Ret (accounts (self p)) p.
Proof.
  destruct p as [hw w]; destruct hw as [[n wr] u cd ss accts m cl fd lg].
  unfold Accounts, on_lock, RLock, RUnlock. unfold_run. simpl.
  destruct wr; reflexivity.
Qed.

Lemma Status_eq (p : HW) :
  Status p
  = if writer (stateLock (self p)) then Blocked p
    else match client (self p) with
         | None => Ret (walletClosed, None) p
         | Some c =>
             match clients (world p) !! c with
             | None => Panic nilDeref p
             | Some cl =>
                 let p1 := logged (VaultHealth cl) p in
                 match api_Health (trace (world p)) cl with
                 | (Some _, Some err) | (None, Some err) =>
                     Ret (healthcheckFailed, Some err) p1
                 | (None, None) => Panic nilDeref p1
                 | (Some health, None) =>
                     if negb (Initialized health)
                     then Ret (vaultUninitialised, Some (healthError health)) p1
                     else if Sealed health
                     then Ret (vaultSealed, Some (healthError health)) p1
                     else Ret (walletOpen, None) p1
                 end
             end
         end.
Proof.
  destruct p as [hw w]; destruct hw as [[n wr] u cd ss accts m cl fd lg].
  unfold Status, Health, on_lock, RLock, RUnlock, logged. unfold_run. simpl.
  destruct wr; [reflexivity|]. simpl.
  destruct cl as [c|]; [|reflexivity]. simpl.
  destruct (clients w !! c) as [c0|]; [|reflexivity]. simpl.
  destruct (api_Health (trace w) c0) as [[h|] [err|]]; try reflexivity.
  simpl. destruct (Initialized h); simpl; [|reflexivity].
  destruct (Sealed h); reflexivity.
Qed.

(** X8. [Status] answers "Closed" exactly for a wallet without a client,
    and then without asking the Vault: nothing changes. For a wallet with
    a client it sends exactly one health request, to that client, and
    changes nothing else. Its error is [nil] exactly for the answers
    "Closed" and "Open, vault initialised and unsealed". A Vault that is
    not initialised is reported as uninitialised whether it is sealed or
    not. *)
Theorem Status_spec (p p' : HW) status err :
  Status p = Ret (status, err) p' ->
  (status = walletClosed <-> client (self p) = None)
  /\ (client (self p) = None -> p' = p)
  /\ (forall c,
        client (self p) = Some c ->
        exists cl,
          clients (world p) !! c = Some cl
          /\ p' = logged (VaultHealth cl) p)
  /\ (err = None <-> status = walletClosed \/ status = walletOpen)
  /\ (forall c cl health,
        client (self p) = Some c ->
        clients (world p) !! c = Some cl ->
        api_Health (trace (world p)) cl = (Some health, None) ->
        (Initialized health = false -> status = vaultUninitialised)
        /\ (Initialized health = true -> Sealed health = true ->
            status = vaultSealed)
        /\ (Initialized health = true -> Sealed health = false ->
            status = walletOpen)).
Proof.
  rewrite Status_eq. intros H.
  destruct (writer (stateLock (self p))); [discriminate|].
  destruct (client (self p)) as [c|] eqn:Hc.
  - destruct (clients (world p) !! c) as [cl|] eqn:Hcl; [|discriminate].
    assert (Hreq : forall c', Some c = Some c' ->
              p' = logged (VaultHealth cl) p ->
              exists cl', clients (world p) !! c' = Some cl'
                          /\ p' = logged (VaultHealth cl') p).
    { intros c' [= <-] Hp. exists cl. split; [exact Hcl|exact Hp]. }
    cbv zeta in H.
    destruct (api_Health (trace (world p)) cl) as [[h|] [e|]] eqn:Hh;
      try discriminate.
    + injection H as <- <- <-.
      split; [split; discriminate|]. split; [discriminate|].
      split; [intros c' Hc'; exact (Hreq c' Hc' eq_refl)|].
      split; [split; [discriminate|]|].
      * intros [H|H]; discriminate.
      * intros c' cl' h' Hc' Hcl' Hh'. congruence.
    + destruct (Initialized h) eqn:Hi; simpl in H;
        [destruct (Sealed h) eqn:Hs|]; injection H as <- <- <-;
        (split; [split; discriminate|]);
        (split; [discriminate|]);
        (split; [intros c' Hc'; exact (Hreq c' Hc' eq_refl)|]).
      * split; [split; [discriminate|intros [H|H]; discriminate]|].
        intros c' cl' h' Hc' Hcl' Hh'.
        assert (h' = h) as -> by congruence.
        repeat split; congruence.
      * split; [split; [intros _; right; reflexivity|reflexivity]|].
        intros c' cl' h' Hc' Hcl' Hh'.
        assert (h' = h) as -> by congruence.
        repeat split; congruence.
      * split; [split; [discriminate|intros [H|H]; discriminate]|].
        intros c' cl' h' Hc' Hcl' Hh'.
        assert (h' = h) as -> by congruence.
        repeat split; congruence.
    + injection H as <- <- <-.
      split; [split; discriminate|]. split; [discriminate|].
      split; [intros c' Hc'; exact (Hreq c' Hc' eq_refl)|].
      split; [split; [discriminate|]|].
      * intros [H|H]; discriminate.
      * intros c' cl' h' Hc' Hcl' Hh'. congruence.
  - injection H as <- <- <-.
    split; [split; reflexivity|]. split; [reflexivity|].
    split; [discriminate|].
    split; [split; [intros _; left|]; reflexivity|].
    intros c' cl' h' Hc'. congruence.
Qed.

Lemma signingOutcome_self {A} (nilv : A) E F account (p : HW) :
  self (final (signingOutcome nilv E F account p)) = self p.
Proof.
  unfold signingOutcome.
  destruct (writer (stateLock (self p))) eqn:Hw; [reflexivity|].
  case_bool_decide; [reflexivity|].
  destruct (accountsSecretMap (self p) !! Address account) as [sd|];
    [|reflexivity].
  pose proof (getPrivateKey_blocked sd (rlocked p)) as Hb.
  destruct (getPrivateKey sd (rlocked p)) as [[k [err|]] p2|msg p2|p2];
    try reflexivity.
  - destruct (keyCallZeroed_frame E F k p2) as [_ Hnb].
    destruct (keyCallZeroed E F k p2) as [r p4|msg p4|p4]; try reflexivity.
    exfalso. exact (Hnb p4 eq_refl).
  - specialize (Hb p2 eq_refl). simpl in Hb. congruence.
Qed.

(** X9. [SignHash], [SignTx], [Contains], [Accounts], [Status],
    [getAccount] and [getPrivateKey] never change the wallet: however the
    call ends, the client, the account list, the index, the configuration
    and the lock are what they were before it. *)
Theorem readers_leave_wallet account hash tx chainID isQuorum sd (p : HW) :
  self (final (SignHash account hash p)) = self p
  /\ self (final (SignTx account tx chainID isQuorum p)) = self p
  /\ self (final (Contains account p)) = self p
  /\ self (final (Accounts p)) = self p
  /\ self (final (Status p)) = self p
  /\ self (final (getAccount sd p)) = self p
  /\ self (final (getPrivateKey sd p)) = self p.
Proof.
  rewrite SignHash_signing, SignTx_signing, !signing_eq.
  rewrite hContains_eq, Accounts_eq, Status_eq.
  repeat split; try apply signingOutcome_self.
  - destruct (writer (stateLock (self p))); reflexivity.
  - destruct (writer (stateLock (self p))); reflexivity.
  - repeat case_match; reflexivity.
  - apply getAccount_frame.
  - apply getPrivateKey_frame.
Qed.

(** [Open], whatever the wallet and the libraries: the account list, the
    index, the descriptors and the URL stay. *)
Lemma Open_frame pass (p : HW) :
  accounts (self (final (Open pass p))) = accounts (self p)
  /\ accountsSecretMap (self (final (Open pass p))) = accountsSecretMap (self p)
  /\ secrets (self (final (Open pass p))) = secrets (self p)
  /\ url (self (final (Open pass p))) = url (self p).
Proof.
  destruct p as [hw w]; destruct hw as [[n wr] u cd ss accts m cl fd lg];
    destruct w as [env ks cls tr].
  unfold Open, OpenLocked, Write, on_lock, RLock, RUnlock, Lock, Unlock.
  unfold_run. simpl.
  destruct wr; [repeat split|]. simpl.
  destruct cl as [c|]; [repeat split|]. simpl.
  destruct n as [|n]; [|repeat split]. simpl.
  destruct (api_NewClient env) as [c0|e]; [|repeat split]. simpl.
  destruct (api_SetAddress c0 (Url cd)) as [e|]; [repeat split|]. simpl.
  destruct (env !! vaultRoleId) as [r|], (env !! vaultSecretId) as [s|]; simpl;
    try (repeat split; fail).
  - rewrite insert_snoc, lookup_snoc. simpl.
    destruct (api_Write tr _ _ _) as [[resp|] [e|]]; simpl; try (repeat split; fail).
    destruct (Auth resp) as [auth|]; simpl; [|repeat split].
    rewrite lookup_snoc. simpl. destruct fd; repeat split.
  - destruct fd; repeat split.
Qed.

(** X10. [Open] on a closed wallet with a free lock never leaves the
    wallet half open. If it returns [nil], the wallet has a client and the
    last thing it did was to send [WalletOpened] on its feed, once. If it
    returns an error or panics, the wallet still has no client and no
    event was sent. Whenever the call returns or panics, the lock is free
    again, and the account list and the index are untouched. Nothing is
    said of a call that does not end. *)
Theorem Open_outcome pass (p : HW) :
  readers (stateLock (self p)) = 0%nat ->
  writer (stateLock (self p)) = false ->
  client (self p) = None ->
  match Open pass p with
  | Ret None p' =>
      stateLock (self p') = stateLock (self p)
      /\ accounts (self p') = accounts (self p)
      /\ accountsSecretMap (self p') = accountsSecretMap (self p)
      /\ client (self p') = Some (length (clients (world p)))
      /\ exists feed,
           updateFeed (self p) = Some feed
           /\ feedEvents (added p p') = [(feed, url (self p), WalletOpened)]
           /\ last (trace (world p'))
              = Some (FeedSend feed (url (self p)) WalletOpened)
  | Ret (Some _) p' | Panic _ p' =>
      stateLock (self p') = stateLock (self p)
      /\ accounts (self p') = accounts (self p)
      /\ accountsSecretMap (self p') = accountsSecretMap (self p)
      /\ client (self p') = None
      /\ feedEvents (added p p') = []
  | Blocked _ => True
  end.
Proof.
  intros Hr Hw Hc.
  destruct p as [hw w]; destruct hw as [[n wr] u cd ss accts m cl fd lg];
    destruct w as [env ks cls tr].
  simpl in Hr, Hw, Hc. subst n wr cl.
  unfold added.
  unfold Open, OpenLocked, Write, on_lock, RLock, RUnlock, Lock, Unlock.
  unfold_run. simpl.
  assert (Hnil : feedEvents (drop (length tr) tr) = ([] : list (nat * URL * WalletEventType))).
  { rewrite drop_all. reflexivity. }
  assert (Hone : forall e : event Transaction,
             drop (length tr) (tr ++ [e]) = [e]).
  { intros e. rewrite drop_app_length. reflexivity. }
  assert (Htwo : forall e1 e2 : event Transaction,
             drop (length tr) ((tr ++ [e1]) ++ [e2]) = [e1; e2]).
  { intros e1 e2. rewrite <- app_assoc. rewrite drop_app_length. reflexivity. }
  destruct (api_NewClient env) as [c0|e]; [|simpl; auto 10]. simpl.
  destruct (api_SetAddress c0 (Url cd)) as [e|]; [simpl; auto 10|]. simpl.
  destruct (env !! vaultRoleId) as [r|], (env !! vaultSecretId) as [s|]; simpl;
    auto 10.
  - rewrite insert_snoc, lookup_snoc. simpl.
    destruct (api_Write tr _ _ _) as [[resp|] [e|]]; simpl;
      try (rewrite Hone; simpl; auto 10; fail).
    destruct (Auth resp) as [auth|]; simpl; [|rewrite Hone; simpl; auto 10].
    rewrite lookup_snoc. simpl.
    destruct fd as [feed|]; simpl; [|rewrite Hone; simpl; auto 10].
    do 4 (split; [reflexivity|]). exists feed. rewrite Htwo.
    split; [reflexivity|]. split; [reflexivity|]. apply last_snoc.
  - destruct fd as [feed|]; simpl; [|auto 10].
    do 4 (split; [reflexivity|]). exists feed. rewrite Hone.
    split; [reflexivity|]. split; [reflexivity|]. apply last_snoc.
Qed.

End LifecycleMore.

Lemma Status_spec_witness :
  (Hashicorp.walletOpen = Hashicorp.walletClosed
   <-> Hashicorp.client (self (Demo.opened Demo.twoSecrets)) = None)
  /\ (Hashicorp.client (self (Demo.opened Demo.twoSecrets)) = None ->
      logged (VaultHealth {| addr := "http://vault:8200"; token := "" |})
        (Demo.opened Demo.twoSecrets)
      = Demo.opened Demo.twoSecrets)
  /\ (forall c,
        Hashicorp.client (self (Demo.opened Demo.twoSecrets)) = Some c ->
        exists cl,
          clients (world (Demo.opened Demo.twoSecrets)) !! c = Some cl
          /\ logged (VaultHealth {| addr := "http://vault:8200"; token := "" |})
               (Demo.opened Demo.twoSecrets)
             = logged (VaultHealth cl) (Demo.opened Demo.twoSecrets))
  /\ ((None : option error) = None
      <-> Hashicorp.walletOpen = Hashicorp.walletClosed
          \/ Hashicorp.walletOpen = Hashicorp.walletOpen)
  /\ (forall c cl health,
        Hashicorp.client (self (Demo.opened Demo.twoSecrets)) = Some c ->
        clients (world (Demo.opened Demo.twoSecrets)) !! c = Some cl ->
        api_Health (trace (world (Demo.opened Demo.twoSecrets))) cl
        = (Some health, None) ->
        (Initialized health = false
         -> Hashicorp.walletOpen = Hashicorp.vaultUninitialised)
        /\ (Initialized health = true -> Sealed health = true ->
            Hashicorp.walletOpen = Hashicorp.vaultSealed)
        /\ (Initialized health = true -> Sealed health = false ->
            Hashicorp.walletOpen = Hashicorp.walletOpen)).
Proof.
  refine (Status_spec (Demo.opened Demo.twoSecrets)
            (logged (VaultHealth {| addr := "http://vault:8200"; token := "" |})
               (Demo.opened Demo.twoSecrets))
            Hashicorp.walletOpen None _).
  vm_compute. reflexivity.
Defined.

Lemma Open_outcome_witness :
  match Hashicorp.Open "" (Demo.closed Demo.twoSecrets) with
  | Ret None p' =>
      Hashicorp.stateLock (self p')
      = Hashicorp.stateLock (self (Demo.closed Demo.twoSecrets))
      /\ Hashicorp.accounts (self p')
         = Hashicorp.accounts (self (Demo.closed Demo.twoSecrets))
      /\ Hashicorp.accountsSecretMap (self p')
         = Hashicorp.accountsSecretMap (self (Demo.closed Demo.twoSecrets))
      /\ Hashicorp.client (self p')
         = Some (length (clients (world (Demo.closed Demo.twoSecrets))))
      /\ exists feed,
           Hashicorp.updateFeed (self (Demo.closed Demo.twoSecrets)) = Some feed
           /\ feedEvents (added (Demo.closed Demo.twoSecrets) p')
              = [(feed, Hashicorp.url (self (Demo.closed Demo.twoSecrets)),
                  WalletOpened)]
           /\ last (trace (world p'))
              = Some (FeedSend feed
                        (Hashicorp.url (self (Demo.closed Demo.twoSecrets)))
                        WalletOpened)
  | Ret (Some _) p' | Panic _ p' =>
      Hashicorp.stateLock (self p')
      = Hashicorp.stateLock (self (Demo.closed Demo.twoSecrets))
      /\ Hashicorp.accounts (self p')
         = Hashicorp.accounts (self (Demo.closed Demo.twoSecrets))
      /\ Hashicorp.accountsSecretMap (self p')
         = Hashicorp.accountsSecretMap (self (Demo.closed Demo.twoSecrets))
      /\ Hashicorp.client (self p') = None
      /\ feedEvents (added (Demo.closed Demo.twoSecrets) p') = []
  | Blocked _ => True
  end.
Proof.
  refine (Open_outcome "" (Demo.closed Demo.twoSecrets) _ _ _).
  - vm_compute. reflexivity.
  - vm_compute. reflexivity.
  - vm_compute. reflexivity.
Defined.

(** ** The list and the index agree; what [Close] leaves behind *)

Section InvariantFacts.

Context {Transaction : Type} `{!Externals Transaction} `{!Library Transaction}.

Import Hashicorp.

Abbreviation HW := (Proc Transaction hashicorpWallet).

Lemma consistent_empty (hw : hashicorpWallet) :
  accounts hw = [] -> accountsSecretMap hw = ∅ -> consistent hw.
Proof.
  intros Ha Hm a. rewrite Ha, Hm, lookup_empty. simpl. rewrite elem_of_nil.
  split; [intros [x H]; discriminate|tauto].
Qed.

Lemma consistent_same (hw hw' : hashicorpWallet) :
  accounts hw' = accounts hw -> accountsSecretMap hw' = accountsSecretMap hw ->
  consistent hw -> consistent hw'.
Proof. intros Ha Hm H a. rewrite Ha, Hm. apply H. Qed.

(** What [Close] does to the wallet, however it ends. *)
Lemma Close_cases (p : HW) :
  (accounts (self (final (Close p))) = accounts (self p)
   /\ accountsSecretMap (self (final (Close p))) = accountsSecretMap (self p))
  \/ (accounts (self (final (Close p))) = []
      /\ accountsSecretMap (self (final (Close p))) = ∅).
Proof.
  destruct p as [hw w]; destruct hw as [[n wr] u cd ss accts m cl fd lg].
  unfold Close, ClearToken, on_lock, Lock, Unlock. unfold_run. simpl.
  destruct wr; [left; split; reflexivity|].
  destruct n; [|left; split; reflexivity]. simpl.
  destruct cl as [c|]; simpl; [|left; split; reflexivity].
  destruct (clients w !! c); simpl; [right|left]; split; reflexivity.
Qed.

Lemma refreshAccounts_cases (p : HW) :
  (accounts (self (final (refreshAccounts p))) = accounts (self p)
   /\ accountsSecretMap (self (final (refreshAccounts p)))
      = accountsSecretMap (self p))
  \/ exists q, refreshAccounts p = Ret None q.
Proof.
  rewrite refreshAccounts_eq.
  pose proof (refreshLoop_total (secrets (self p)) 0
                (replicate (length (secrets (self p))) emptyAccount) ∅ p) as Ht.
  destruct (refreshLoop _ _ _ _ p) as [[[a' m'] [err|]] p1|msg p1|p1].
  - left. simpl. rewrite Ht. split; reflexivity.
  - right. eexists. reflexivity.
  - left. simpl. rewrite Ht. split; reflexivity.
  - left. simpl. rewrite Ht. split; reflexivity.
Qed.

(** X11. The account list and the index name the same addresses in a
    wallet that [NewHashicorpWallet] returns, and [Open], [Close] and
    [refreshAccounts] keep it so, however they end (the calls that only
    read do not change the wallet at all). *)
Theorem list_and_index_agree cd ss feed pass (p : HW) :
  consistent (fst (NewHashicorpWallet cd ss feed))
  /\ (consistent (self p) ->
      consistent (self (final (Open pass p)))
      /\ consistent (self (final (Close p)))
      /\ consistent (self (final (refreshAccounts p)))).
Proof.
  split.
  - apply consistent_empty.
    + unfold NewHashicorpWallet, newHashicorpWallet.
      destruct (parseURL (Url cd)) as [u [e|]]; reflexivity.
    + unfold NewHashicorpWallet, newHashicorpWallet.
      destruct (parseURL (Url cd)) as [u [e|]]; reflexivity.
  - intros Hp. split; [|split].
    + destruct (Open_frame pass p) as (Ha & Hm & _ & _).
      exact (consistent_same _ _ Ha Hm Hp).
    + destruct (Close_cases p) as [[Ha Hm]|[Ha Hm]].
      * exact (consistent_same _ _ Ha Hm Hp).
      * exact (consistent_empty _ Ha Hm).
    + destruct (refreshAccounts_cases p) as [[Ha Hm]|[q Hq]].
      * exact (consistent_same _ _ Ha Hm Hp).
      * rewrite Hq. simpl.
        apply refreshAccounts_success in Hq as (new & p1 & Hres & -> & Hs & Hl).
        intros a. simpl. rewrite indexAll_dom by exact Hl.
        rewrite lookup_empty.
        split; [intros [H|[x H]]; [exact H|discriminate]|auto].
Qed.

(** A [Close] that returns. *)
Lemma Close_returns (p p' : HW) err :
  Close p = Ret err p' ->
  err = None
  /\ writer (stateLock (self p')) = false
  /\ client (self p') = None
  /\ (client (self p) <> None ->
      accounts (self p') = [] /\ accountsSecretMap (self p') = ∅).
Proof.
  destruct p as [hw w]; destruct hw as [[n wr] u cd ss accts m cl fd lg].
  unfold Close, ClearToken, on_lock, Lock, Unlock. unfold_run. simpl.
  destruct wr; [discriminate|].
  destruct n; [|discriminate]. simpl.
  destruct cl as [c|]; simpl.
  - destruct (clients w !! c); simpl; [|discriminate].
    intros H. injection H as <- <-. simpl. repeat split.
  - intros H. injection H as <- <-. simpl. repeat split; congruence.
Qed.

(** X12. After a [Close] that returns, the wallet behaves as closed:
    [SignHash] and [SignTx] fail with [ErrWalletClosed] for every account,
    without a request to the Vault, and [Status] answers "Closed". If the
    wallet was open before, its account list is empty and [Contains] is
    false for every account. [Close] itself never returns an error. *)
Theorem closed_after_Close (p p' : HW) err account hash tx chainID isQuorum :
  Close p = Ret err p' ->
  err = None
  /\ SignHash account hash p' = Ret ([], Some ErrWalletClosed) p'
  /\ SignTx account tx chainID isQuorum p' = Ret (None, Some ErrWalletClosed) p'
  /\ Status p' = Ret (walletClosed, None) p'
  /\ (client (self p) <> None ->
      Accounts p' = Ret [] p' /\ Contains account p' = Ret false p').
Proof.
  intros H. apply Close_returns in H as (-> & Hw & Hc & Hopen).
  rewrite SignHash_signing, SignTx_signing, !signing_eq.
  rewrite Status_eq, Accounts_eq, hContains_eq.
  unfold signingOutcome. rewrite Hw, Hc.
  rewrite !bool_decide_eq_true_2 by reflexivity.
  repeat split.
  - destruct (Hopen H) as [Ha _]. rewrite Ha. reflexivity.
  - destruct (Hopen H) as [Ha _]. unfold hcontains. rewrite Ha. reflexivity.
Qed.

End InvariantFacts.

Lemma list_and_index_agree_witness :
  consistent (self (final (Hashicorp.Open "" (Demo.opened Demo.twoSecrets))))
  /\ consistent (self (final (Hashicorp.Close (Demo.opened Demo.twoSecrets))))
  /\ consistent (self (final (Hashicorp.refreshAccounts (Demo.opened Demo.twoSecrets)))).
Proof.
  refine (proj2 (list_and_index_agree Demo.clientData Demo.twoSecrets (Some 0%nat) ""
                   (Demo.opened Demo.twoSecrets)) _).
  intros a.
  change (Hashicorp.accounts (self (Demo.opened Demo.twoSecrets)))
    with [Demo.accountAt 10%N "acct1"; Demo.accountAt 15%N "once"].
  change (Hashicorp.accountsSecretMap (self (Demo.opened Demo.twoSecrets)))
    with (<[15%N := Demo.secret "once" 1]>
            (<[10%N := Demo.secret "acct1" 1]> (∅ : gmap address SecretData))).
  rewrite !fmap_cons, fmap_nil. simpl.
  rewrite !elem_of_cons, elem_of_nil.
  destruct (decide (a = 15%N)) as [->|H15].
  - rewrite lookup_insert_eq. split; [auto|eauto].
  - rewrite lookup_insert_ne by congruence.
    destruct (decide (a = 10%N)) as [->|H10].
    + rewrite lookup_insert_eq. split; [auto|eauto].
    + rewrite lookup_insert_ne by congruence. rewrite lookup_empty.
      split; [intros [x H]; discriminate|intros [H|[H|H]]; congruence || tauto].
Defined.

Lemma closed_after_Close_witness :
  None = (None : option error)
  /\ Hashicorp.SignHash Demo.account1 Demo.hash32
       (final (Hashicorp.Close (Demo.opened Demo.twoSecrets)))
     = Ret ([], Some ErrWalletClosed)
         (final (Hashicorp.Close (Demo.opened Demo.twoSecrets)))
  /\ Hashicorp.SignTx Demo.account1 Demo.tx1 (Some 1) true
       (final (Hashicorp.Close (Demo.opened Demo.twoSecrets)))
     = Ret (None, Some ErrWalletClosed)
         (final (Hashicorp.Close (Demo.opened Demo.twoSecrets)))
  /\ Hashicorp.Status (final (Hashicorp.Close (Demo.opened Demo.twoSecrets)))
     = Ret (Hashicorp.walletClosed, None)
         (final (Hashicorp.Close (Demo.opened Demo.twoSecrets)))
  /\ (Hashicorp.client (self (Demo.opened Demo.twoSecrets)) <> None ->
      Hashicorp.Accounts (final (Hashicorp.Close (Demo.opened Demo.twoSecrets)))
      = Ret [] (final (Hashicorp.Close (Demo.opened Demo.twoSecrets)))
      /\ Hashicorp.Contains Demo.account1
           (final (Hashicorp.Close (Demo.opened Demo.twoSecrets)))
         = Ret false (final (Hashicorp.Close (Demo.opened Demo.twoSecrets)))).
Proof.
  refine (closed_after_Close (Demo.opened Demo.twoSecrets)
            (final (Hashicorp.Close (Demo.opened Demo.twoSecrets)))
            None Demo.account1 Demo.hash32 Demo.tx1 (Some 1) true _).
  vm_compute. reflexivity.
Defined.

(** ** [zeroKey] *)

Section ZeroKeyFacts.

Context {Transaction : Type} {W : Type}.

(** X13. [zeroKey] panics on a [nil] key and on a key without a private
    number, changing nothing. Otherwise it returns after overwriting the
    words of the private number of that one key with zeros: the number of
    words, the sign, the public part and every other key stay, and a
    second [zeroKey] changes nothing more. *)
Theorem zeroKey_spec (k : nat) (p : Proc Transaction W) :
  match zeroKey k p with
  | Ret _ p' =>
      exists key d,
        keys (world p) !! k = Some key
        /\ D key = Some d
        /\ keys (world p')
           = <[k := {| X := X key; Y := Y key;
                       D := Some {| neg := neg d;
                                    abs := replicate (length (abs d)) 0 |} |}]>
               (keys (world p))
        /\ (forall j, j <> k -> keys (world p') !! j = keys (world p) !! j)
        /\ self p' = self p
        /\ trace (world p') = trace (world p)
        /\ zeroKey k p' = Ret tt p'
  | Panic _ p' =>
      p' = p
      /\ (keys (world p) !! k = None
          \/ exists key, keys (world p) !! k = Some key /\ D key = None)
  | Blocked _ => False
  end.
Proof.
  destruct p as [s w]; destruct w as [env ks cls tr].
  unfold zeroKey. unfold_run. simpl.
  destruct (ks !! k) as [key|] eqn:Hk; simpl; [|split; [reflexivity|left; reflexivity]].
  destruct (D key) as [d|] eqn:Hd; simpl;
    [|split; [reflexivity|right; exists key; split; [reflexivity|assumption]]].
  exists key, d. rewrite zeroWords_replicate.
  repeat split.
  - exact Hd.
  - intros j Hj. apply list_lookup_insert_ne. congruence.
  - rewrite list_lookup_insert_eq by (apply lookup_lt_Some in Hk; exact Hk).
    simpl. unfold on_world, modify. simpl. rewrite list_insert_insert_eq.
    rewrite zeroWords_replicate, length_replicate. reflexivity.
Qed.

End ZeroKeyFacts.

(** ** The backend *)

Section BackendMore.

Context {Transaction : Type}.

Import Backend.

Abbreviation HB := (Proc Transaction hashicorpBackend).

Lemma traced_nil (p : HB) : traced [] p = p.
Proof.
  destruct p as [s w]; destruct w as [env ks cls tr].
  unfold traced. simpl. rewrite app_nil_r. reflexivity.
Qed.

Lemma traced_app l1 l2 (p : HB) : traced l2 (traced l1 p) = traced (l1 ++ l2) p.
Proof. unfold traced. simpl. rewrite app_assoc. reflexivity. Qed.

Lemma NewHashicorpWallet_pair feed (hc : HashicorpConfig) :
  Hashicorp.NewHashicorpWallet (Client hc) (Secrets hc) (Some feed)
  = (builtWallet feed hc, snd (parseURL (Url (Client hc)))).
Proof.
  unfold builtWallet, Hashicorp.NewHashicorpWallet, Hashicorp.newHashicorpWallet.
  destruct (parseURL (Url (Client hc))) as [u [err|]]; reflexivity.
Qed.

Lemma warningsFor_cons (hc : HashicorpConfig) configs :
  @warningsFor Transaction (hc :: configs)
  = match snd (parseURL (Url (Client hc))) with
    | Some err => [LogWarn "Unable to create Hashicorp wallet" (Some err)]
    | None => []
    end ++ warningsFor configs.
Proof.
  unfold warningsFor. simpl.
  destruct (snd (parseURL (Url (Client hc)))); reflexivity.
Qed.

Lemma buildWallets_eq feed configs :
  forall ws es (p : HB),
    buildWallets feed configs ws es p
    = Ret (ws ++ (builtWallet feed <$> configs),
           es ++ ((fun w => (w, WalletArrived)) <$> (builtWallet feed <$> configs)))
          (traced (warningsFor configs) p).
Proof.
  induction configs as [|hc configs IH]; intros ws es p.
  - simpl. rewrite !app_nil_r, traced_nil. reflexivity.
  - cbn [buildWallets]. rewrite NewHashicorpWallet_pair, warningsFor_cons.
    rewrite !fmap_cons.
    destruct (snd (parseURL (Url (Client hc)))) as [err|].
    + unfold mbind at 1. unfold M_bind at 1. rewrite emit_eq.
      rewrite IH. rewrite <- !app_assoc.
      change (logged ?e p) with (traced [e] p). rewrite traced_app. reflexivity.
    + unfold mbind at 1. unfold M_bind at 1. unfold mret at 1. unfold M_ret at 1.
      rewrite IH. rewrite <- !app_assoc. reflexivity.
Qed.

Lemma sendAll_eq feed ws :
  forall p : HB,
    sendAll feed ((fun w => (w, WalletArrived)) <$> ws) p
    = Ret tt (traced (arrivals feed ws) p).
Proof.
  induction ws as [|w ws IH]; intros p.
  - simpl. rewrite traced_nil. reflexivity.
  - simpl. unfold mbind at 1. unfold M_bind at 1. rewrite emit_eq.
    rewrite IH. change (logged ?e p) with (traced [e] p).
    rewrite traced_app. reflexivity.
Qed.

Lemma NewHashicorpBackend_eq feed configs (w : World Transaction) :
  NewHashicorpBackend feed configs w
  = let hb := {| stateLock := unlocked; wallets := builtWallet feed <$> configs;
                 updateFeed := feed; hashicorpConfigs := configs |} in
    Ret hb
      {| self := hb;
         world := {| environ := environ w; keys := keys w; clients := clients w;
                     trace := trace w ++ warningsFor configs
                              ++ arrivals feed (builtWallet feed <$> configs) |} |}.
Proof.
  unfold NewHashicorpBackend, refreshWallets.
  unfold mbind at 1. unfold M_bind at 1.
  unfold mbind at 1. unfold M_bind at 1. unfold gets at 1. simpl.
  unfold mbind at 1. unfold M_bind at 1.
  rewrite buildWallets_eq. simpl.
  unfold mbind at 1. unfold M_bind at 1.
  rewrite sendAll_eq. unfold on_self, modify, gets, traced. simpl.
  rewrite <- app_assoc. reflexivity.
Qed.

(** X14. [NewHashicorpBackend] always returns a backend. Its wallets are
    the wallets [NewHashicorpWallet] returns for the configurations, one
    for each and in their order, all on the backend's feed. It first logs
    one warning for each configuration whose URL is rejected, then sends
    one [WalletArrived] event for each wallet, in order, and does nothing
    else. *)
Theorem NewHashicorpBackend_spec feed configs (w : World Transaction) :
  exists hb p,
    NewHashicorpBackend feed configs w = Ret hb p
    /\ self p = hb
    /\ wallets hb = builtWallet feed <$> configs
    /\ hashicorpConfigs hb = configs
    /\ Forall (fun hw => Hashicorp.updateFeed hw = Some feed
                         /\ Hashicorp.client hw = None) (wallets hb)
    /\ trace (world p)
       = trace w ++ warningsFor configs ++ arrivals feed (wallets hb)
    /\ keys (world p) = keys w
    /\ clients (world p) = clients w.
Proof.
  rewrite NewHashicorpBackend_eq. cbv zeta.
  eexists _, _. split; [reflexivity|]. simpl. repeat split.
  apply Forall_fmap, Forall_forall. intros hc _. simpl.
  unfold builtWallet, Hashicorp.NewHashicorpWallet, Hashicorp.newHashicorpWallet.
  destruct (parseURL (Url (Client hc))) as [u [err|]]; split; reflexivity.
Qed.

(** X15. On the backend [NewHashicorpBackend] returned, a further
    [refreshWallets] changes nothing and sends no event, also when the
    first one built no wallet; [Wallets] returns the wallets built at
    construction. *)
Theorem refreshWallets_once feed configs (w : World Transaction) hb p :
  NewHashicorpBackend feed configs w = Ret hb p ->
  refreshWallets p = Ret tt p
  /\ Wallets p = Ret (builtWallet feed <$> configs) p.
Proof.
  rewrite NewHashicorpBackend_eq. cbv zeta. intros H. injection H as <- <-.
  split; [|reflexivity].
  unfold refreshWallets. unfold mbind at 1. unfold M_bind at 1.
  unfold gets at 1. simpl.
  destruct configs as [|hc configs]; simpl; [|reflexivity].
  unfold mbind, M_bind, mret, M_ret, on_self, modify. simpl. reflexivity.
Qed.

End BackendMore.

Lemma refreshWallets_once_witness :
  Backend.refreshWallets
    (final (Backend.NewHashicorpBackend 0 Demo.threeConfigs Demo.world0))
  = Ret tt (final (Backend.NewHashicorpBackend 0 Demo.threeConfigs Demo.world0))
  /\ Backend.Wallets
       (final (Backend.NewHashicorpBackend 0 Demo.threeConfigs Demo.world0))
     = Ret (builtWallet 0 <$> Demo.threeConfigs)
         (final (Backend.NewHashicorpBackend 0 Demo.threeConfigs Demo.world0)).
Proof.
  refine (refreshWallets_once 0 Demo.threeConfigs Demo.world0
            (self (final (Backend.NewHashicorpBackend 0 Demo.threeConfigs Demo.world0)))
            (final (Backend.NewHashicorpBackend 0 Demo.threeConfigs Demo.world0)) _).
  vm_compute. reflexivity.
Defined.

(** ** More on [vault_wallet.go] *)

Section VaultMore.

Context {Transaction : Type} `{!Externals Transaction}.
Context {V : Type} `{!VaultWallet.VaultService Transaction V}.

Import VaultWallet.

Abbreviation VW := (Proc Transaction (vaultWallet V)).

(** A call into the service changes the service object and the world
    only. *)
Lemma on_vault_frame {A} (c : M (Proc Transaction V) A) (q : VW) :
  accounts (self (final (on_vault c q))) = accounts (self q)
  /\ stateLock (self (final (on_vault c q))) = stateLock (self q)
  /\ url (self (final (on_vault c q))) = url (self q)
  /\ updateFeed (self (final (on_vault c q))) = updateFeed (self q).
Proof.
  unfold on_vault.
  destruct (c _) as [a r|msg r|r]; simpl; repeat split.
Qed.

Lemma vault_Close_eq (q : VW) :
  readers (stateLock (self q)) = 0%nat ->
  writer (stateLock (self q)) = false ->
  Close q = on_vault close (withAccounts [] q).
Proof.
  intros Hr Hw.
  destruct q as [w wd]; destruct w as [v u f [n wr] accts].
  simpl in Hr, Hw. subst n wr.
  unfold Close, on_lock, Lock, Unlock, withAccounts. unfold_run. simpl.
  reflexivity.
Qed.

(** X16. [Close] of [vault_wallet.go], called with a free lock, empties
    the account list before it asks the service to close, and ends as the
    service's [close] ends: whatever the service answers, the list is
    empty afterwards and [SignHash] and [SignTx] fail with
    [ErrUnknownAccount] for every account. *)
Theorem vault_Close_clears account hash tx chainID isQuorum (q : VW) :
  readers (stateLock (self q)) = 0%nat ->
  writer (stateLock (self q)) = false ->
  Close q = on_vault close (withAccounts [] q)
  /\ accounts (self (final (Close q))) = []
  /\ stateLock (self (final (Close q))) = stateLock (self q)
  /\ SignHash account hash (final (Close q))
     = Ret ([], Some ErrUnknownAccount) (final (Close q))
  /\ SignTx account tx chainID isQuorum (final (Close q))
     = Ret (None, Some ErrUnknownAccount) (final (Close q)).
Proof.
  intros Hr Hw. rewrite (vault_Close_eq q Hr Hw).
  destruct (on_vault_frame close (withAccounts [] q)) as (Ha & Hl & _ & _).
  simpl in Ha, Hl.
  split; [reflexivity|]. split; [exact Ha|]. split; [exact Hl|].
  rewrite vault_SignHash_signing, vault_SignTx_signing, !vsigning_eq.
  unfold vsigningOutcome, contains. rewrite Hl, Hw, Ha. split; reflexivity.
Qed.

Lemma warnAll_eq errs :
  forall q : VW, warnAll errs q = Ret tt (traced (accountWarnings errs) q).
Proof.
  induction errs as [|err errs IH]; intros q.
  - destruct q as [w wd]; destruct wd as [env ks cls tr].
    unfold traced. simpl. rewrite app_nil_r. reflexivity.
  - simpl. unfold mbind at 1. unfold M_bind at 1. rewrite emit_eq. rewrite IH.
    unfold traced, logged. simpl. rewrite <- app_assoc. reflexivity.
Qed.

Lemma contains_own acct (w : vaultWallet V) :
  acct ∈ accounts w -> contains acct w = true.
Proof.
  intros Hin. unfold contains. apply existsb_exists. exists acct. split.
  - apply list_elem_of_In. exact Hin.
  - rewrite (bool_decide_eq_true_2 (Address acct = Address acct)) by reflexivity.
    rewrite (bool_decide_eq_true_2 (Account_URL acct = Account_URL acct))
      by reflexivity.
    simpl. apply orb_true_r.
Qed.

(** X17. [Accounts] of [vault_wallet.go], called with a free lock,
    replaces the account list by the list the service returns, also when
    the service reports errors next to it; it logs one warning for each of
    these errors and returns the new list. Afterwards [Contains] is true
    for every account of the list. *)
Theorem vault_Accounts_installs (q q1 : VW) accts errs :
  readers (stateLock (self q)) = 0%nat ->
  writer (stateLock (self q)) = false ->
  on_vault getAccounts q = Ret (accts, errs) q1 ->
  Accounts q = Ret accts (withAccounts accts (traced (accountWarnings errs) q1))
  /\ forall acct,
       acct ∈ accts ->
       Contains acct (withAccounts accts (traced (accountWarnings errs) q1))
       = Ret true (withAccounts accts (traced (accountWarnings errs) q1)).
Proof.
  intros Hr Hw Hget.
  destruct (on_vault_frame getAccounts q) as (_ & Hl & _ & _).
  rewrite Hget in Hl. simpl in Hl.
  split.
  - unfold Accounts. unfold mbind at 1. unfold M_bind at 1. rewrite Hget.
    unfold mbind at 1. unfold M_bind at 1. rewrite warnAll_eq.
    rewrite <- Hl in Hr, Hw.
    destruct q1 as [w wd]; destruct w as [v u f [n wr] a0].
    simpl in Hr, Hw. subst n wr.
    unfold on_lock, Lock, Unlock, RLock, RUnlock, withAccounts, traced.
    unfold_run. simpl. reflexivity.
  - intros acct Hin. rewrite Contains_eq. simpl. rewrite Hl, Hw.
    rewrite contains_own by exact Hin. reflexivity.
Qed.

(** X18. In [vault_wallet.go], when [SignHash] or [SignTx] gets a key from
    the service without an error, that key is overwritten with zeros when
    the call ends, whether the signing function returned or panicked: the
    heap of keys is the one the service left, with the words of this key
    set to zero. *)
Theorem vault_signing_zeroes_key account hash tx chainID isQuorum (q q2 : VW) k key :
  writer (stateLock (self q)) = false ->
  contains account (self q) = true ->
  on_vault (getPrivateKey account) q = Ret (k, None) q2 ->
  keys (world q2) !! k = Some key ->
  keys (world (final (SignHash account hash q)))
  = <[k := zeroedKey key]> (keys (world q2))
  /\ keys (world (final (SignTx account tx chainID isQuorum q)))
     = <[k := zeroedKey key]> (keys (world q2))
  /\ zeroed (zeroedKey key).
Proof.
  intros Hw Hc Hget Hk.
  rewrite vault_SignHash_signing, vault_SignTx_signing, !vsigning_eq.
  unfold vsigningOutcome. rewrite Hw, Hc, Hget. simpl.
  split; [|split].
  - apply keyCallZeroed_keys. exact Hk.
  - apply keyCallZeroed_keys. exact Hk.
  - apply zeroedKey_zeroed.
Qed.

End VaultMore.

Lemma vault_Close_clears_witness :
  VaultWallet.Close DemoLibrary.stuckWallet
  = VaultWallet.on_vault VaultWallet.close (withAccounts [] DemoLibrary.stuckWallet)
  /\ VaultWallet.accounts (self (final (VaultWallet.Close DemoLibrary.stuckWallet))) = []
  /\ VaultWallet.stateLock (self (final (VaultWallet.Close DemoLibrary.stuckWallet)))
     = VaultWallet.stateLock (self DemoLibrary.stuckWallet)
  /\ VaultWallet.SignHash Demo.account1 Demo.hash32
       (final (VaultWallet.Close DemoLibrary.stuckWallet))
     = Ret ([], Some ErrUnknownAccount)
         (final (VaultWallet.Close DemoLibrary.stuckWallet))
  /\ VaultWallet.SignTx Demo.account1 Demo.tx1 None true
       (final (VaultWallet.Close DemoLibrary.stuckWallet))
     = Ret (None, Some ErrUnknownAccount)
         (final (VaultWallet.Close DemoLibrary.stuckWallet)).
Proof.
  refine (vault_Close_clears Demo.account1 Demo.hash32 Demo.tx1 None true
            DemoLibrary.stuckWallet _ _).
  - vm_compute. reflexivity.
  - vm_compute. reflexivity.
Defined.

Lemma vault_Accounts_installs_witness :
  VaultWallet.Accounts DemoLibrary.stuckWallet
  = Ret [Demo.account1]
      (withAccounts [Demo.account1]
         (traced (accountWarnings [ErrLibrary "service" "one secret is missing"])
            DemoLibrary.stuckWallet))
  /\ forall acct,
       acct ∈ [Demo.account1] ->
       VaultWallet.Contains acct
         (withAccounts [Demo.account1]
            (traced (accountWarnings [ErrLibrary "service" "one secret is missing"])
               DemoLibrary.stuckWallet))
       = Ret true
           (withAccounts [Demo.account1]
              (traced (accountWarnings [ErrLibrary "service" "one secret is missing"])
                 DemoLibrary.stuckWallet)).
Proof.
  refine (vault_Accounts_installs DemoLibrary.stuckWallet DemoLibrary.stuckWallet
            [Demo.account1] [ErrLibrary "service" "one secret is missing"] _ _ _).
  - vm_compute. reflexivity.
  - vm_compute. reflexivity.
  - vm_compute. reflexivity.
Defined.

Lemma vault_signing_zeroes_key_witness :
  keys (world (final (VaultWallet.SignHash Demo.account1 Demo.hash32
                        Demo.openVaultWallet)))
  = <[0%nat := zeroedKey Demo.key17]>
      (keys (world (final (VaultWallet.on_vault
                             (VaultWallet.getPrivateKey Demo.account1)
                             Demo.openVaultWallet))))
  /\ keys (world (final (VaultWallet.SignTx Demo.account1 Demo.tx1 (Some 1) true
                           Demo.openVaultWallet)))
     = <[0%nat := zeroedKey Demo.key17]>
         (keys (world (final (VaultWallet.on_vault
                                (VaultWallet.getPrivateKey Demo.account1)
                                Demo.openVaultWallet))))
  /\ zeroed (zeroedKey Demo.key17).
Proof.
  refine (vault_signing_zeroes_key Demo.account1 Demo.hash32 Demo.tx1 (Some 1) true
            Demo.openVaultWallet
            (final (VaultWallet.on_vault (VaultWallet.getPrivateKey Demo.account1)
                      Demo.openVaultWallet))
            0%nat Demo.key17 _ _ _ _).
  - vm_compute. reflexivity.
  - vm_compute. reflexivity.
  - vm_compute. reflexivity.
  - vm_compute. reflexivity.
Defined.

(** ** [storeKey] and [GenerateAndStore] *)

Lemma EncodeToString_length (b : bytes) :
  String.length (EncodeToString b) = (2 * length b)%nat.
Proof. induction b as [|x b IH]; simpl; [reflexivity|]. rewrite IH. lia. Qed.

Section StoreFacts.

Context {Transaction : Type} `{!Externals Transaction} `{!Library Transaction}.

Import Hashicorp.

Abbreviation HW := (Proc Transaction hashicorpWallet).

(** X19. [storeKey] for a key on the heap panics with an index error when
    the wallet has no descriptor. Otherwise it sends one write request, to
    the path that [toRequestData] gives for the first descriptor, and
    returns the key's address, or the zero address with the error of the
    request; the key on the heap is not changed. In the payload the field
    named by [KeyID] holds the hexadecimal string of the key's bytes, two
    digits for each byte, the field named by [AccountID], when it is
    another name, holds the address without its ["0x"], and there is no
    other field. *)
Theorem storeKey_spec (key : nat) (k : PrivateKey) (p : HW) :
  keys (world p) !! key = Some k ->
  (secrets (self p) = [] -> storeKey key p = Panic indexOutOfRange p)
  /\ (forall s c cl,
        secrets (self p) !! 0%nat = Some s ->
        client (self p) = Some c ->
        clients (world p) !! c = Some cl ->
        let addrHex := without0x (AddressHex (PubkeyToAddress k)) in
        let keyHex := EncodeToString (FromECDSA k) in
        let data := storedData s addrHex keyHex in
        let p1 := logged (VaultWrite cl (requestPath s) data) p in
        storeKey key p
        = match snd (api_Write (trace (world p)) cl (requestPath s) data) with
          | Some err => Ret (0%N, Some err) p1
          | None => Ret (PubkeyToAddress k, None) p1
          end
        /\ keys (world p1) = keys (world p)
        /\ String.length keyHex = (2 * length (FromECDSA k))%nat
        /\ exists m,
             data !! "data" = Some (VMap m)
             /\ m !! KeyID s = Some (VString keyHex)
             /\ (AccountID s <> KeyID s ->
                 m !! AccountID s = Some (VString addrHex))
             /\ forall f, f <> KeyID s -> f <> AccountID s -> m !! f = None).
Proof.
  intros Hk. split.
  - intros Hs. unfold storeKey. unfold_run. rewrite Hk. simpl. rewrite Hs.
    reflexivity.
  - intros s c cl Hs Hc Hcl. cbv zeta. split; [|split; [reflexivity|split]].
    + unfold storeKey, Write, without0x, storedData, requestPath. unfold_run.
      rewrite Hk. simpl. rewrite Hs, Hc. simpl. rewrite Hcl. simpl.
      destruct (api_Write _ _ _ _) as [resp [err|]]; reflexivity.
    + apply EncodeToString_length.
    + eexists. split; [apply lookup_insert_eq|]. split; [apply lookup_insert_eq|].
      split.
      * intros Hne. rewrite lookup_insert_ne by congruence.
        apply lookup_insert_eq.
      * intros f Hf1 Hf2. rewrite !lookup_insert_ne by congruence.
        apply lookup_empty.
Qed.

(** X20. [GenerateAndStore] never returns an address. The wallet it builds
    has no update feed, so its [Open] fails or panics on the send of
    [WalletOpened] and never installs a client; [Status] then answers
    "Closed". The call ends with the URL error of [parseURL], with "error
    creating Vault client", or with a panic. However it ends, the wallet
    has no client and answers "Closed", no key was generated, and the only
    request that can have been sent is the login of the Approle exchange:
    nothing is written to a secret. *)
Theorem GenerateAndStore_never_stores config (w : World Transaction) :
  match GenerateAndStore config w with
  | Ret (_, None) _ => False
  | Ret (a, Some e) p' =>
      a = 0%N
      /\ (e = clientError \/ snd (parseURL (Url (Backend.Client config))) = Some e)
      /\ leftClosed w p'
  | Panic msg p' => msg = nilDeref /\ leftClosed w p'
  | Blocked _ => False
  end.
Proof.
  unfold leftClosed, GenerateAndStore, newHashicorpWallet.
  destruct (parseURL (Url (Backend.Client config))) as [u [e|]] eqn:Hp; simpl.
  { repeat split; try (left; reflexivity). right. reflexivity. }
  destruct w as [env ks cls tr].
  unfold generateAndStoreOn.
  unfold mbind at 1. unfold M_bind at 1.
  unfold Open, OpenLocked, Write, on_lock, RLock, RUnlock, Lock, Unlock.
  unfold_run. simpl.
  unfold Status, on_lock, RLock, RUnlock, loginPath, loginData. unfold_run.
  destruct (api_NewClient env) as [c0|e]; simpl;
    [|repeat split; left; reflexivity].
  destruct (api_SetAddress c0 (Url (Backend.Client config))) as [e|]; simpl;
    [repeat split; left; reflexivity|].
  destruct (env !! vaultRoleId) as [r|], (env !! vaultSecretId) as [s|]; simpl;
    try (repeat split; left; reflexivity).
  rewrite insert_snoc, lookup_snoc. simpl.
  destruct (api_Write tr _ _ _) as [[resp|] [e|]]; simpl;
    try (repeat split; try (left; reflexivity);
         right; do 3 eexists; reflexivity).
  destruct (Auth resp) as [auth|]; simpl;
    [|repeat split; right; do 3 eexists; reflexivity].
  rewrite lookup_snoc. simpl.
  repeat split; right; do 3 eexists; reflexivity.
Qed.

End StoreFacts.

Lemma storeKey_spec_witness :
  Hashicorp.storeKey 0
    (withKey Demo.key17 (Demo.opened [Demo.secret "acct1" 1]))
  = Ret (0%N, Some (ErrLibrary "api" "permission denied"))
      (logged (VaultWrite {| addr := "http://vault:8200"; token := "" |}
                 "secret/data/acct1"
                 (storedData (Demo.secret "acct1" 1) "0a" "11"))
         (withKey Demo.key17 (Demo.opened [Demo.secret "acct1" 1]))).
Proof.
  destruct (proj2 (storeKey_spec 0 Demo.key17
                     (withKey Demo.key17 (Demo.opened [Demo.secret "acct1" 1]))
                     ltac:(vm_compute; reflexivity))
              (Demo.secret "acct1" 1) 0%nat
              {| addr := "http://vault:8200"; token := "" |}
              ltac:(vm_compute; reflexivity) ltac:(vm_compute; reflexivity)
              ltac:(vm_compute; reflexivity)) as [H _].
  exact H.
Defined.

(** ** [Open] of [vault_wallet.go] *)

Section VaultOpen.

Context {Transaction : Type} `{!Externals Transaction}.
Context {V : Type} `{!VaultWallet.VaultService Transaction V}.

Import VaultWallet.

Abbreviation VW := (Proc Transaction (vaultWallet V)).

Lemma vault_Open_frame passphrase (q : VW) :
  stateLock (self (final (Open passphrase q))) = stateLock (self q)
  /\ accounts (self (final (Open passphrase q))) = accounts (self q).
Proof.
  unfold Open. unfold_run.
  destruct (on_vault_frame isOpen q) as (Ha & Hl & _ & Hf).
  destruct (on_vault isOpen q) as [o q1|msg q1|q1]; simpl in *;
    [|split; assumption..].
  destruct o; simpl; [split; assumption|].
  destruct (on_vault_frame open q1) as (Ha1 & Hl1 & _ & Hf1).
  destruct (on_vault open q1) as [[e|] q2|msg q2|q2]; simpl in *;
    try (split; congruence).
  destruct (updateFeed (self q2)); simpl; split; congruence.
Qed.

(** X21. [Open] of [vault_wallet.go] takes no lock: in every outcome,
    also when the service reports an open session and the call is
    rejected, the wallet's lock and its account list are as before. A
    [Close] that follows, with the lock free at the start, empties the
    list and ends as the service's [close] ends; it does not wait. *)
Theorem vault_Open_leaves_lock passphrase (q : VW) :
  readers (stateLock (self q)) = 0%nat ->
  writer (stateLock (self q)) = false ->
  let q' := final (Open passphrase q) in
  stateLock (self q') = stateLock (self q)
  /\ accounts (self q') = accounts (self q)
  /\ Close q' = on_vault close (withAccounts [] q')
  /\ accounts (self (final (Close q'))) = [].
Proof.
  intros Hr Hw q'.
  destruct (vault_Open_frame passphrase q) as (Hl & Ha). fold q' in Hl, Ha.
  split; [exact Hl|]. split; [exact Ha|].
  assert (Hc : Close q' = on_vault close (withAccounts [] q')).
  { apply vault_Close_eq; rewrite Hl; assumption. }
  split; [exact Hc|]. rewrite Hc.
  destruct (on_vault_frame close (withAccounts [] q')) as (Ha' & _).
  exact Ha'.
Qed.

End VaultOpen.

Lemma vault_Open_leaves_lock_witness :
  VaultWallet.stateLock (self (final (VaultWallet.Open "" Demo.openVaultWallet)))
  = VaultWallet.stateLock (self Demo.openVaultWallet)
  /\ VaultWallet.accounts (self (final (VaultWallet.Open "" Demo.openVaultWallet)))
     = VaultWallet.accounts (self Demo.openVaultWallet)
  /\ VaultWallet.Close (final (VaultWallet.Open "" Demo.openVaultWallet))
     = VaultWallet.on_vault VaultWallet.close
         (withAccounts [] (final (VaultWallet.Open "" Demo.openVaultWallet)))
  /\ VaultWallet.accounts
       (self (final (VaultWallet.Close
                       (final (VaultWallet.Open "" Demo.openVaultWallet))))) = [].
Proof.
  refine (vault_Open_leaves_lock "" Demo.openVaultWallet _ _).
  - vm_compute. reflexivity.
  - vm_compute. reflexivity.
Defined.
